(** * Clear-txt: a shallow embedding of [clear.cc]

    The to-do list window of [clear.cc] is modelled as a record holding the
    fields of [class ClearApp] together with the parts of its environment
    that the class talks to: the data file on disk, the FLTK timeout queue
    and the text-input widget.  Member functions become functions on that
    record; the ones that index [items] without a bounds check return
    [option], [None] standing for the undefined behaviour of an
    out-of-range [std::vector] access.

    Conventions.  An [int] is a [Z]: the values are pixel coordinates,
    list positions and their differences, far from the range where C++
    arithmetic would overflow; the one exception is the wheel distance
    [Fl::event_dy()], on which the arithmetic is checked against the
    range of [int] (see [handle_mousewheel]), [None] standing for the
    undefined behaviour of an overflow.  A [std::string] is a [string] of
    bytes, and what passes through a C string ends at its first NUL byte
    (see [Str.c_str] and [Fl_Input]).
    Comparisons of an [int] with a [double] product such as [w() * 0.3]
    are written as comparisons of exact fractions (see [release_swipe]).
    Calls that only paint or request painting ([redraw], [fl_rectf],
    [Fl::flush], the geometry and colours of the input widget) are left
    out, and [Fl::check] inside [start_editing] is taken to find no event
    waiting; [draw] keeps the calls of [draw_item] it makes and the fields
    it updates.  [get_data_directory] is the environment's: its result is an
    argument of the constructor. *)

From Stdlib Require Import List String Ascii Bool Arith ZArith QArith Lia Lqa.
From Stdlib Require Import Permutation Sorted.
From Equations Require Import Equations.
Import ListNotations.

Local Open Scope string_scope.
Local Open Scope list_scope.

(** ** [std::string] *)

Module Str.

(** The newline character ['\n']. *)
Definition nl : ascii := "010"%char.
Definition backslash : ascii := "\"%char.
Definition bar : ascii := "|"%char.
(** The byte that ends a C string. *)
Definition nul : ascii := Ascii.zero.

(** [s.find(c, pos)]; [None] is [std::string::npos]. *)
Fixpoint find (s : string) (c : ascii) (pos : nat) : option nat :=
  match s with
  | EmptyString => None
  | String a s' =>
      match pos with
      | O => if (a =? c)%char then Some O else option_map S (find s' c O)
      | S p => option_map S (find s' c p)
      end
  end.

(** [s.substr(pos, len)] and [s.substr(pos)], for [pos <= s.length()]
    (beyond that [substr] throws; the program never calls it there). *)
Definition substr (s : string) (pos len : nat) : string := substring pos len s.
Definition substr_from (s : string) (pos : nat) : string :=
  substring pos (String.length s - pos) s.

Definition empty (s : string) : bool :=
  match s with EmptyString => true | _ => false end.

(** Number of occurrences of a character. *)
Fixpoint count (c : ascii) (s : string) : nat :=
  match s with
  | EmptyString => O
  | String a s' => (if (a =? c)%char then 1 else 0) + count c s'
  end.

(** What a reader of [s.c_str()] as a C string sees: the bytes before
    the first NUL. *)
Fixpoint c_str (s : string) : string :=
  match s with
  | EmptyString => EmptyString
  | String a s' => if (a =? nul)%char then EmptyString else String a (c_str s')
  end.

End Str.

(** ** The item record *)

Record TodoItem := mkTodoItem {
  text : string;
  completed : bool;
  y_position : Z;
  swipe_offset : Z
}.

(** The constructor [TodoItem(const std::string &t)]. *)
Definition TodoItem_new (t : string) : TodoItem :=
  mkTodoItem t false 0 0.

Definition set_text (v : string) (it : TodoItem) : TodoItem :=
  mkTodoItem v (completed it) (y_position it) (swipe_offset it).
Definition set_completed (v : bool) (it : TodoItem) : TodoItem :=
  mkTodoItem (text it) v (y_position it) (swipe_offset it).
Definition set_y_position (v : Z) (it : TodoItem) : TodoItem :=
  mkTodoItem (text it) (completed it) v (swipe_offset it).
Definition set_swipe_offset (v : Z) (it : TodoItem) : TodoItem :=
  mkTodoItem (text it) (completed it) (y_position it) v.

(** What the data file keeps of an item. *)
Definition persisted (it : TodoItem) : string * bool := (text it, completed it).

(** ** Escaping *)

(** [escape_text]: the loop appends two characters for a newline or a
    backslash and the character itself otherwise. *)
Fixpoint escape_text (t : string) : string :=
  match t with
  | EmptyString => EmptyString
  | String c rest =>
      ((if (c =? Str.nl)%char then "\n"
        else if (c =? Str.backslash)%char then "\\"
        else String c EmptyString) ++ escape_text rest)%string
  end.

(** [unescape_text]: the index loop looks one character ahead of a
    backslash; [i++] inside the body skips the character it consumed. *)
Fixpoint unescape_text (t : string) : string :=
  match t with
  | EmptyString => EmptyString
  | String c rest =>
      if (c =? Str.backslash)%char then
        match rest with
        | String d rest' =>
            if (d =? "n")%char then String Str.nl (unescape_text rest')
            else if (d =? Str.backslash)%char then String Str.backslash (unescape_text rest')
            else String c (unescape_text rest)
        | EmptyString => String c (unescape_text rest)
        end
      else String c (unescape_text rest)
  end.

(** ** Streams and the data file *)

(** The data file as the program sees it.  [disk_data] is [None] when the
    file does not exist; [disk_readable] and [disk_writable] say whether an
    [ifstream] resp. [ofstream] on it opens; [disk_quota] bounds the bytes a
    write can store before it fails ([None]: no bound); [disk_read_fault]
    makes a read stop with an I/O error instead of end-of-file. *)
Record Disk := mkDisk {
  disk_data : option string;
  disk_readable : bool;
  disk_writable : bool;
  disk_quota : option nat;
  disk_read_fault : bool
}.

Definition set_disk_data (v : option string) (d : Disk) : Disk :=
  mkDisk v (disk_readable d) (disk_writable d) (disk_quota d) (disk_read_fault d).

(** [std::ifstream]: unread bytes and the state bits. *)
Record ifstream := mk_ifstream {
  in_buf : string;
  eofbit : bool;
  failbit : bool;
  badbit : bool;
  in_fault : bool
}.

Definition good (f : ifstream) : bool := negb (eofbit f || failbit f || badbit f).
Definition fail (f : ifstream) : bool := failbit f || badbit f.
Definition eof (f : ifstream) : bool := eofbit f.

(** Opening for reading: [None] is [!file.is_open()]. *)
Definition ifstream_open (d : Disk) : option ifstream :=
  match disk_data d with
  | Some content =>
      if disk_readable d then Some (mk_ifstream content false false false (disk_read_fault d))
      else None
  | None => None
  end.

(** Characters up to the delimiter, and what follows the delimiter
    ([None] when the buffer ends before one is found). *)
Fixpoint extract_line (buf : string) : string * option string :=
  match buf with
  | EmptyString => (EmptyString, None)
  | String c rest =>
      if (c =? Str.nl)%char then (EmptyString, Some rest)
      else let (l, r) := extract_line rest in (String c l, r)
  end.

(** [std::getline(file, line)]. *)
Definition getline (f : ifstream) : string * ifstream :=
  if negb (good f) then
    (EmptyString, mk_ifstream (in_buf f) (eofbit f) true (badbit f) (in_fault f))
  else
    match extract_line (in_buf f) with
    | (line, Some rest) =>
        (line, mk_ifstream rest (eofbit f) (failbit f) (badbit f) (in_fault f))
    | (line, None) =>
        if in_fault f then
          (line, mk_ifstream EmptyString (eofbit f) (failbit f) true (in_fault f))
        else
          (line, mk_ifstream EmptyString true (Str.empty line) (badbit f) (in_fault f))
    end.

(** [std::ofstream]: the bytes written so far. *)
Record ofstream := mk_ofstream { out_buf : string }.

(** Opening for writing truncates the file; [None] is [!file.is_open()]. *)
Definition ofstream_open (d : Disk) : option ofstream :=
  if disk_writable d then Some (mk_ofstream EmptyString) else None.

(** [file << s]. *)
Definition put (s : string) (f : ofstream) : ofstream := mk_ofstream (out_buf f ++ s)%string.

(** [file.close()] followed by [file.fail()]: the bytes that fit are on
    disk afterwards, and the stream has failed when some did not fit. *)
Definition ofstream_close (f : ofstream) (d : Disk) : Disk * bool :=
  match disk_quota d with
  | Some q =>
      if (String.length (out_buf f) <=? q)%nat then (set_disk_data (Some (out_buf f)) d, false)
      else (set_disk_data (Some (Str.substr (out_buf f) 0 q)) d, true)
  | None => (set_disk_data (Some (out_buf f)) d, false)
  end.

(** ** The file format *)

(** The body of the loop of [save_to_file]. *)
Definition write_item (f : ofstream) (item : TodoItem) : ofstream :=
  put (String Str.nl EmptyString)
    (put (escape_text (text item))
      (put "|"
        (put (if completed item then "1" else "0")
          (put "0|" f)))).

(** The body of the loop of [load_from_file]; [None] is [continue]. *)
Definition parse_line (line : string) : option TodoItem :=
  if Str.empty line then None
  else
    match Str.find line Str.bar 0 with
    | None => None
    | Some pos1 =>
        match Str.find line Str.bar (pos1 + 1) with
        | None => None
        | Some pos2 =>
            let completed := (Str.substr line (pos1 + 1) (pos2 - pos1 - 1) =? "1")%string in
            let text := unescape_text (Str.substr_from line (pos2 + 1)) in
            let item := TodoItem_new text in
            Some (set_completed completed item)
        end
    end.

(** What a stream can still deliver: its unread bytes, and one more
    [getline] that reports the end.  It decreases along the loop below. *)
Definition stream_measure (f : ifstream) : nat :=
  String.length (in_buf f) + (if good f then 1 else 0).

(** Keeps the equation of a matched value at hand. *)
Definition inspect {A : Type} (a : A) : {b : A | a = b} := exist _ a eq_refl.

(** The [while (std::getline(file, line))] loop of [load_from_file],
    threading the stream, [items] and [loaded_any]. *)
Equations? load_loop (f : ifstream) (items : list TodoItem) (loaded_any : bool)
  : ifstream * list TodoItem * bool by wf (stream_measure f) lt :=
  load_loop f items loaded_any with inspect (getline f) => {
    | exist _ (line, f') Hget with inspect (fail f') => {
        | exist _ true _ => (f', items, loaded_any)
        | exist _ false Hok with parse_line line => {
            | None => load_loop f' items loaded_any
            | Some item => load_loop f' (items ++ [item]) true } } }.
Proof.
  all: clear load_loop.
  all: assert (forall buf l rest, extract_line buf = (l, Some rest) ->
                                  (String.length rest < String.length buf)%nat) as Hshort.
  1,3: (induction buf as [|c buf IH]; cbn [extract_line]; intros l rest H;
        [discriminate|];
        destruct (c =? Str.nl)%char;
        [injection H as _ <-; cbn; lia|];
        destruct (extract_line buf) as [l0 r0]; injection H as _ ->;
        specialize (IH l0 rest eq_refl); cbn; lia).
  all: unfold stream_measure, getline in *.
  all: destruct (good f) eqn:G; cbn [negb] in Hget;
    [|injection Hget as _ <-; unfold fail in Hok; cbn in Hok; discriminate].
  all: destruct (extract_line (in_buf f)) as [l0 [rest|]] eqn:E.
  1,3: (injection Hget as _ <-; apply Hshort in E; unfold good in *; cbn in *;
        rewrite G; lia).
  all: destruct (in_fault f); injection Hget as _ <-;
    [unfold fail in Hok; cbn in Hok; rewrite orb_true_r in Hok; discriminate|].
  all: unfold good; cbn; lia.
Qed.

(** ** [std::vector] *)

Module Vec.

Section Ops.
Context {A : Type}.

(** [v.size()] as an [int]. *)
Definition size (v : list A) : Z := Z.of_nat (List.length v).

Definition empty (v : list A) : bool :=
  match v with [] => true | _ :: _ => false end.

(** [v[i]]; [None] when [i] is out of range, where C++ leaves the
    behaviour undefined. *)
Definition at_ (v : list A) (i : Z) : option A :=
  if (i <? 0)%Z then None else nth_error v (Z.to_nat i).

(** [v.erase(v.begin() + i)] and [v.insert(v.begin() + i, x)]. *)
Definition erase (v : list A) (i : Z) : list A :=
  firstn (Z.to_nat i) v ++ skipn (S (Z.to_nat i)) v.
Definition insert (v : list A) (i : Z) (x : A) : list A :=
  firstn (Z.to_nat i) v ++ x :: skipn (Z.to_nat i) v.

(** [v[i] = f(v[i])], undefined out of range. *)
Definition update (v : list A) (i : Z) (f : A -> A) : option (list A) :=
  match at_ v i with
  | Some x => Some (firstn (Z.to_nat i) v ++ f x :: skipn (S (Z.to_nat i)) v)
  | None => None
  end.

End Ops.

End Vec.

(** ** The window and its environment *)

Record ErrorDisplay := mkErrorDisplay {
  message : string;
  is_visible : bool
}.

(** The [Fl_Input] used for editing: only its visibility and its text
    matter to the list; geometry and colours are left out.  [value] is
    the C string that [input_widget->value()] points to: the program
    hands the widget a C string and reads the text back into a
    [std::string], so it sees the text up to the first NUL byte and no
    further. *)
Record Fl_Input := mkFl_Input {
  visible : bool;
  value : string
}.

(** The three timeout callbacks ([data] is always the window). *)
Inductive Callback := hide_error_cb | click_timeout_cb | long_press_timeout_cb.

Definition Callback_eqb (a b : Callback) : bool :=
  match a, b with
  | hide_error_cb, hide_error_cb => true
  | click_timeout_cb, click_timeout_cb => true
  | long_press_timeout_cb, long_press_timeout_cb => true
  | _, _ => false
  end.

Record ClearApp := mkClearApp {
  items : list TodoItem;
  selected_index : Z;
  drag_start_y : Z;
  drag_start_x : Z;
  is_dragging : bool;
  is_swiping : bool;
  is_pulling_down : bool;
  pull_down_offset : Z;
  drag_offset : Z;
  item_height : Z;
  data_file : string;
  editing_index : Z;
  editing_text : string;
  pending_click_index : Z;
  can_reorder : bool;
  input_widget : Fl_Input;
  scroll_offset : Z;
  error_display : ErrorDisplay;
  win_w : Z;  (* [w()] *)
  win_h : Z;  (* [h()] *)
  disk : Disk;  (* the file named by [data_file] *)
  timeouts : list (Callback * Q)  (* pending [Fl::add_timeout] entries with the time left *)
}.

Definition set_items (v : list TodoItem) (s : ClearApp) : ClearApp :=
  mkClearApp v (selected_index s) (drag_start_y s) (drag_start_x s) (is_dragging s)
    (is_swiping s) (is_pulling_down s) (pull_down_offset s) (drag_offset s) (item_height s)
    (data_file s) (editing_index s) (editing_text s) (pending_click_index s) (can_reorder s)
    (input_widget s) (scroll_offset s) (error_display s) (win_w s) (win_h s) (disk s)
    (timeouts s).
Definition set_selected_index (v : Z) (s : ClearApp) : ClearApp :=
  mkClearApp (items s) v (drag_start_y s) (drag_start_x s) (is_dragging s) (is_swiping s)
    (is_pulling_down s) (pull_down_offset s) (drag_offset s) (item_height s) (data_file s)
    (editing_index s) (editing_text s) (pending_click_index s) (can_reorder s)
    (input_widget s) (scroll_offset s) (error_display s) (win_w s) (win_h s) (disk s)
    (timeouts s).
Definition set_drag_start_y (v : Z) (s : ClearApp) : ClearApp :=
  mkClearApp (items s) (selected_index s) v (drag_start_x s) (is_dragging s) (is_swiping s)
    (is_pulling_down s) (pull_down_offset s) (drag_offset s) (item_height s) (data_file s)
    (editing_index s) (editing_text s) (pending_click_index s) (can_reorder s)
    (input_widget s) (scroll_offset s) (error_display s) (win_w s) (win_h s) (disk s)
    (timeouts s).
Definition set_drag_start_x (v : Z) (s : ClearApp) : ClearApp :=
  mkClearApp (items s) (selected_index s) (drag_start_y s) v (is_dragging s) (is_swiping s)
    (is_pulling_down s) (pull_down_offset s) (drag_offset s) (item_height s) (data_file s)
    (editing_index s) (editing_text s) (pending_click_index s) (can_reorder s)
    (input_widget s) (scroll_offset s) (error_display s) (win_w s) (win_h s) (disk s)
    (timeouts s).
Definition set_is_dragging (v : bool) (s : ClearApp) : ClearApp :=
  mkClearApp (items s) (selected_index s) (drag_start_y s) (drag_start_x s) v (is_swiping s)
    (is_pulling_down s) (pull_down_offset s) (drag_offset s) (item_height s) (data_file s)
    (editing_index s) (editing_text s) (pending_click_index s) (can_reorder s)
    (input_widget s) (scroll_offset s) (error_display s) (win_w s) (win_h s) (disk s)
    (timeouts s).
Definition set_is_swiping (v : bool) (s : ClearApp) : ClearApp :=
  mkClearApp (items s) (selected_index s) (drag_start_y s) (drag_start_x s) (is_dragging s)
    v (is_pulling_down s) (pull_down_offset s) (drag_offset s) (item_height s) (data_file s)
    (editing_index s) (editing_text s) (pending_click_index s) (can_reorder s)
    (input_widget s) (scroll_offset s) (error_display s) (win_w s) (win_h s) (disk s)
    (timeouts s).
Definition set_is_pulling_down (v : bool) (s : ClearApp) : ClearApp :=
  mkClearApp (items s) (selected_index s) (drag_start_y s) (drag_start_x s) (is_dragging s)
    (is_swiping s) v (pull_down_offset s) (drag_offset s) (item_height s) (data_file s)
    (editing_index s) (editing_text s) (pending_click_index s) (can_reorder s)
    (input_widget s) (scroll_offset s) (error_display s) (win_w s) (win_h s) (disk s)
    (timeouts s).
Definition set_pull_down_offset (v : Z) (s : ClearApp) : ClearApp :=
  mkClearApp (items s) (selected_index s) (drag_start_y s) (drag_start_x s) (is_dragging s)
    (is_swiping s) (is_pulling_down s) v (drag_offset s) (item_height s) (data_file s)
    (editing_index s) (editing_text s) (pending_click_index s) (can_reorder s)
    (input_widget s) (scroll_offset s) (error_display s) (win_w s) (win_h s) (disk s)
    (timeouts s).
Definition set_drag_offset (v : Z) (s : ClearApp) : ClearApp :=
  mkClearApp (items s) (selected_index s) (drag_start_y s) (drag_start_x s) (is_dragging s)
    (is_swiping s) (is_pulling_down s) (pull_down_offset s) v (item_height s) (data_file s)
    (editing_index s) (editing_text s) (pending_click_index s) (can_reorder s)
    (input_widget s) (scroll_offset s) (error_display s) (win_w s) (win_h s) (disk s)
    (timeouts s).
Definition set_item_height (v : Z) (s : ClearApp) : ClearApp :=
  mkClearApp (items s) (selected_index s) (drag_start_y s) (drag_start_x s) (is_dragging s)
    (is_swiping s) (is_pulling_down s) (pull_down_offset s) (drag_offset s) v (data_file s)
    (editing_index s) (editing_text s) (pending_click_index s) (can_reorder s)
    (input_widget s) (scroll_offset s) (error_display s) (win_w s) (win_h s) (disk s)
    (timeouts s).
Definition set_data_file (v : string) (s : ClearApp) : ClearApp :=
  mkClearApp (items s) (selected_index s) (drag_start_y s) (drag_start_x s) (is_dragging s)
    (is_swiping s) (is_pulling_down s) (pull_down_offset s) (drag_offset s) (item_height s)
    v (editing_index s) (editing_text s) (pending_click_index s) (can_reorder s)
    (input_widget s) (scroll_offset s) (error_display s) (win_w s) (win_h s) (disk s)
    (timeouts s).
Definition set_editing_index (v : Z) (s : ClearApp) : ClearApp :=
  mkClearApp (items s) (selected_index s) (drag_start_y s) (drag_start_x s) (is_dragging s)
    (is_swiping s) (is_pulling_down s) (pull_down_offset s) (drag_offset s) (item_height s)
    (data_file s) v (editing_text s) (pending_click_index s) (can_reorder s)
    (input_widget s) (scroll_offset s) (error_display s) (win_w s) (win_h s) (disk s)
    (timeouts s).
Definition set_editing_text (v : string) (s : ClearApp) : ClearApp :=
  mkClearApp (items s) (selected_index s) (drag_start_y s) (drag_start_x s) (is_dragging s)
    (is_swiping s) (is_pulling_down s) (pull_down_offset s) (drag_offset s) (item_height s)
    (data_file s) (editing_index s) v (pending_click_index s) (can_reorder s)
    (input_widget s) (scroll_offset s) (error_display s) (win_w s) (win_h s) (disk s)
    (timeouts s).
Definition set_pending_click_index (v : Z) (s : ClearApp) : ClearApp :=
  mkClearApp (items s) (selected_index s) (drag_start_y s) (drag_start_x s) (is_dragging s)
    (is_swiping s) (is_pulling_down s) (pull_down_offset s) (drag_offset s) (item_height s)
    (data_file s) (editing_index s) (editing_text s) v (can_reorder s) (input_widget s)
    (scroll_offset s) (error_display s) (win_w s) (win_h s) (disk s) (timeouts s).
Definition set_can_reorder (v : bool) (s : ClearApp) : ClearApp :=
  mkClearApp (items s) (selected_index s) (drag_start_y s) (drag_start_x s) (is_dragging s)
    (is_swiping s) (is_pulling_down s) (pull_down_offset s) (drag_offset s) (item_height s)
    (data_file s) (editing_index s) (editing_text s) (pending_click_index s) v
    (input_widget s) (scroll_offset s) (error_display s) (win_w s) (win_h s) (disk s)
    (timeouts s).
Definition set_input_widget (v : Fl_Input) (s : ClearApp) : ClearApp :=
  mkClearApp (items s) (selected_index s) (drag_start_y s) (drag_start_x s) (is_dragging s)
    (is_swiping s) (is_pulling_down s) (pull_down_offset s) (drag_offset s) (item_height s)
    (data_file s) (editing_index s) (editing_text s) (pending_click_index s) (can_reorder s)
    v (scroll_offset s) (error_display s) (win_w s) (win_h s) (disk s) (timeouts s).
Definition set_scroll_offset (v : Z) (s : ClearApp) : ClearApp :=
  mkClearApp (items s) (selected_index s) (drag_start_y s) (drag_start_x s) (is_dragging s)
    (is_swiping s) (is_pulling_down s) (pull_down_offset s) (drag_offset s) (item_height s)
    (data_file s) (editing_index s) (editing_text s) (pending_click_index s) (can_reorder s)
    (input_widget s) v (error_display s) (win_w s) (win_h s) (disk s) (timeouts s).
Definition set_error_display (v : ErrorDisplay) (s : ClearApp) : ClearApp :=
  mkClearApp (items s) (selected_index s) (drag_start_y s) (drag_start_x s) (is_dragging s)
    (is_swiping s) (is_pulling_down s) (pull_down_offset s) (drag_offset s) (item_height s)
    (data_file s) (editing_index s) (editing_text s) (pending_click_index s) (can_reorder s)
    (input_widget s) (scroll_offset s) v (win_w s) (win_h s) (disk s) (timeouts s).
Definition set_win_w (v : Z) (s : ClearApp) : ClearApp :=
  mkClearApp (items s) (selected_index s) (drag_start_y s) (drag_start_x s) (is_dragging s)
    (is_swiping s) (is_pulling_down s) (pull_down_offset s) (drag_offset s) (item_height s)
    (data_file s) (editing_index s) (editing_text s) (pending_click_index s) (can_reorder s)
    (input_widget s) (scroll_offset s) (error_display s) v (win_h s) (disk s) (timeouts s).
Definition set_disk (v : Disk) (s : ClearApp) : ClearApp :=
  mkClearApp (items s) (selected_index s) (drag_start_y s) (drag_start_x s) (is_dragging s)
    (is_swiping s) (is_pulling_down s) (pull_down_offset s) (drag_offset s) (item_height s)
    (data_file s) (editing_index s) (editing_text s) (pending_click_index s) (can_reorder s)
    (input_widget s) (scroll_offset s) (error_display s) (win_w s) (win_h s) v (timeouts s).
Definition set_timeouts (v : list (Callback * Q)) (s : ClearApp) : ClearApp :=
  mkClearApp (items s) (selected_index s) (drag_start_y s) (drag_start_x s) (is_dragging s)
    (is_swiping s) (is_pulling_down s) (pull_down_offset s) (drag_offset s) (item_height s)
    (data_file s) (editing_index s) (editing_text s) (pending_click_index s) (can_reorder s)
    (input_widget s) (scroll_offset s) (error_display s) (win_w s) (win_h s) (disk s) v.

Local Open Scope Z_scope.

Notation "s |> f" := (f s) (at level 45, left associativity, only parsing).
Notation "'do' x <- e ; k" :=
  (match e with Some x => k | None => None end)
  (at level 10, x name, e at level 100, k at level 200, only parsing).

(** *** FLTK timeouts *)

(** [Fl::remove_timeout(cb, this)] drops every pending entry of [cb];
    [Fl::add_timeout(t, cb, this)] queues one. *)
Definition remove_timeout (cb : Callback) (s : ClearApp) : ClearApp :=
  set_timeouts (filter (fun e => negb (Callback_eqb (fst e) cb)) (timeouts s)) s.
Definition add_timeout (t : Q) (cb : Callback) (s : ClearApp) : ClearApp :=
  set_timeouts (timeouts s ++ [(cb, t)]) s.

(** The entries of one callback. *)
Definition pending (cb : Callback) (s : ClearApp) : list (Callback * Q) :=
  filter (fun e => Callback_eqb (fst e) cb) (timeouts s).

(** *** Error display *)

Definition show_error (msg : string) (s : ClearApp) : ClearApp :=
  s |> remove_timeout hide_error_cb
    |> set_error_display (mkErrorDisplay msg true)
    |> add_timeout 3.0 hide_error_cb.

Definition hide_error (s : ClearApp) : ClearApp :=
  s |> set_error_display (mkErrorDisplay "" false)
    |> remove_timeout hide_error_cb.

(** *** Persistence *)

Definition save_to_file (s : ClearApp) : ClearApp :=
  match ofstream_open (disk s) with
  | None => show_error ("Failed to save file: " ++ data_file s)%string s
  | Some file =>
      let file := fold_left write_item (items s) file in
      let (d, failed) := ofstream_close file (disk s) in
      let s := set_disk d s in
      if failed then show_error ("Error saving file: " ++ data_file s)%string s else s
  end.

Definition load_from_file (s : ClearApp) : bool * ClearApp :=
  match ifstream_open (disk s) with
  | None => (false, s)
  | Some file =>
      let s := set_items [] s in
      let '(file, loaded, loaded_any) := load_loop file (items s) false in
      let s := set_items loaded s in
      let s := if fail file && negb (eof file)
               then show_error ("Error reading file: " ++ data_file s)%string s else s in
      (loaded_any, s)
  end.

Definition add_sample_items (s : ClearApp) : ClearApp :=
  set_items (items s ++ [TodoItem_new "Welcome to Clear"]
                     ++ [TodoItem_new "Pull down to add new task"]
                     ++ [TodoItem_new "Click to edit task"]
                     ++ [TodoItem_new "Double-click to complete"]
                     ++ [TodoItem_new "Swipe right to delete"]
                     ++ [TodoItem_new "Long press to reorder"]) s.

(** *** Display order and geometry *)

(** One loop of [get_sorted_indices]: the indices [i], [i+1], ... of the
    items that satisfy [p]. *)
Fixpoint indices_where (p : TodoItem -> bool) (v : list TodoItem) (i : Z) : list Z :=
  match v with
  | [] => []
  | item :: rest =>
      if p item then i :: indices_where p rest (i + 1)
      else indices_where p rest (i + 1)
  end.

Definition get_sorted_indices (s : ClearApp) : list Z :=
  indices_where (fun item => negb (completed item)) (items s) 0
  ++ indices_where completed (items s) 0.

Definition get_item_at_y (y : Z) (s : ClearApp) : Z :=
  let start_y := 0 in
  let adjusted_y := y + scroll_offset s in
  if adjusted_y <? start_y then -1
  else
    let visual_index := Z.quot (adjusted_y - start_y) (item_height s) in
    let sorted_indices := get_sorted_indices s in
    if (visual_index >=? 0) && (visual_index <? Vec.size sorted_indices)
    then nth (Z.to_nat visual_index) sorted_indices (-1)
    else -1.

Definition get_max_scroll_offset (s : ClearApp) : Z :=
  let total_height := Vec.size (items s) * item_height s in
  let visible_height := win_h s - 40 in
  let max_scroll := total_height - visible_height in
  if max_scroll >? 0 then max_scroll else 0.

Definition clamp_scroll_offset (s : ClearApp) : ClearApp :=
  let max_scroll := get_max_scroll_offset s in
  if scroll_offset s <? 0 then set_scroll_offset 0 s
  else if scroll_offset s >? max_scroll then set_scroll_offset max_scroll s
  else s.

Definition in_range (index : Z) (s : ClearApp) : bool :=
  (index >=? 0) && (index <? Vec.size (items s)).

Definition reorder_items (from_index to_index : Z) (s : ClearApp) : ClearApp :=
  if (from_index <? 0) || (from_index >=? Vec.size (items s)) || (to_index <? 0)
     || (to_index >=? Vec.size (items s)) || (from_index =? to_index)
  then s
  else
    match Vec.at_ (items s) from_index with
    | Some item =>
        s |> set_items (Vec.erase (items s) from_index)
          |> (fun s => set_items (Vec.insert (items s) to_index item) s)
          |> save_to_file
    | None => s
    end.

(** *** Editing *)

Definition hide (i : Fl_Input) : Fl_Input := mkFl_Input false (value i).
Definition show (i : Fl_Input) : Fl_Input := mkFl_Input true (value i).
(** [value(v)] for a C string [v]. *)
Definition set_value (v : string) (i : Fl_Input) : Fl_Input := mkFl_Input (visible i) v.

(** [start_editing] and [finish_editing] call each other.  Each is written
    over the other one as a parameter; the knot is tied below.
    [start_editing] hands the widget [text_value.c_str()], the item's text
    up to its first NUL byte, while [editing_text] gets the whole text;
    [finish_editing] builds [editing_text] from the C string that the
    widget holds. *)
Definition start_editing_with (finish_editing : ClearApp -> option ClearApp)
  (index : Z) (s : ClearApp) : option ClearApp :=
  if (index <? 0) || (index >=? Vec.size (items s)) then Some s
  else
    do s <- (if (editing_index s >=? 0) && negb (editing_index s =? index)
             then finish_editing s else Some s);
    do item <- Vec.at_ (items s) index;
    Some (s |> set_editing_index index
            |> set_editing_text (text item)
            |> (fun s => set_input_widget
                           (set_value (Str.c_str (text item)) (input_widget s)) s)
            |> (fun s => set_input_widget (show (input_widget s)) s)).

Definition finish_editing_with (start_editing : Z -> ClearApp -> option ClearApp)
  (s : ClearApp) : option ClearApp :=
  if (editing_index s >=? 0) && (editing_index s <? Vec.size (items s)) then
    let s := if visible (input_widget s)
             then set_editing_text (value (input_widget s)) s else s in
    let s := set_input_widget (hide (input_widget s)) s in
    let old_editing_index := editing_index s in
    let old_editing_text := editing_text s in
    if Str.empty old_editing_text then
      let s := set_items (Vec.erase (items s) old_editing_index) s in
      match items s with
      | [] =>
          s |> set_items (items s ++ [TodoItem_new ""])
            |> set_editing_index (-1)
            |> set_editing_text ""
            |> start_editing 0
      | _ :: _ =>
          Some (s |> set_editing_index (-1) |> set_editing_text "")
      end
    else
      do updated <- Vec.update (items s) old_editing_index (set_text old_editing_text);
      Some (s |> set_items updated
              |> set_editing_index (-1)
              |> set_editing_text ""
              |> save_to_file)
  else Some s.

(** The call [start_editing(0)] inside [finish_editing] runs with
    [editing_index = -1] ("Reset first to avoid recursion"), so it never
    calls back; see [start_editing_with_idle]. *)
Definition finish_editing : ClearApp -> option ClearApp :=
  finish_editing_with (start_editing_with (fun _ => None)).

Definition start_editing : Z -> ClearApp -> option ClearApp :=
  start_editing_with finish_editing.

Definition add_item (t : string) (s : ClearApp) : option ClearApp :=
  do s <- (if editing_index s >=? 0 then finish_editing s else Some s);
  do s <- (s |> set_is_pulling_down false
             |> set_pull_down_offset 0
             |> set_scroll_offset 0
             |> (fun s => set_items (Vec.insert (items s) 0 (TodoItem_new t)) s)
             |> set_editing_index 0
             |> set_editing_text t
             |> start_editing 0);
  Some (save_to_file s).

Definition delete_item (index : Z) (s : ClearApp) : option ClearApp :=
  if (index >=? 0) && (index <? Vec.size (items s)) then
    let s := set_items (Vec.erase (items s) index) s in
    let s := if selected_index s >=? Vec.size (items s) then set_selected_index (-1) s else s in
    let s := set_items (map (set_swipe_offset 0) (items s)) s in
    let s := clamp_scroll_offset s in
    do s <- (match items s with
             | [] =>
                 s |> set_items (items s ++ [TodoItem_new ""])
                   |> set_editing_index 0
                   |> set_editing_text ""
                   |> set_scroll_offset 0
                   |> start_editing 0
             | _ :: _ => Some s
             end);
    Some (save_to_file s)
  else Some s.

Definition toggle_complete (index : Z) (s : ClearApp) : ClearApp :=
  if (index >=? 0) && (index <? Vec.size (items s)) then
    match Vec.update (items s) index (fun item => set_completed (negb (completed item)) item) with
    | Some updated => save_to_file (set_items updated s)
    | None => s
    end
  else s.

(** *** Events *)

(** What [Fl::event_x()], [Fl::event_y()], [Fl::event_button()],
    [Fl::event_clicks()], [Fl::event_dy()] and [Fl::event_key()] return
    while an event is handled. *)
Record Fl := mkFl {
  event_x : Z;
  event_y : Z;
  event_button : Z;
  event_clicks : Z;
  event_dy : Z;
  event_key : Z
}.

Definition FL_LEFT_MOUSE : Z := 1.
Definition FL_MIDDLE_MOUSE : Z := 2.
Definition FL_RIGHT_MOUSE : Z := 3.

Definition FL_Escape : Z := 0xff1b.
Definition FL_Enter : Z := 0xff0d.
Definition FL_KP_Enter : Z := 0xff8d.
Definition FL_Delete : Z := 0xffff.

Inductive Event := FL_PUSH | FL_DRAG | FL_RELEASE | FL_MOUSEWHEEL | FL_KEYBOARD | FL_OTHER.

(** The block "Handle swipe based on direction", which [FL_RELEASE] has
    twice.  The thresholds [w() * 0.3] are compared as exact fractions:
    an [int] is never closer than a tenth to a non-integral multiple of
    three tenths, so rounding in [double] cannot change the outcome. *)
Definition release_swipe (s : ClearApp) : option ClearApp :=
  do item <- Vec.at_ (items s) (selected_index s);
  let swipe_offset := swipe_offset item in
  if 10 * swipe_offset <? - (3 * win_w s) then
    let s := if editing_index s =? selected_index s
             then s |> set_editing_index (-1) |> set_editing_text "" else s in
    delete_item (selected_index s) s
  else if 10 * swipe_offset >? 3 * win_w s then
    let s := toggle_complete (selected_index s) s in
    do updated <- Vec.update (items s) (selected_index s) (set_swipe_offset 0);
    Some (set_items updated s)
  else
    do updated <- Vec.update (items s) (selected_index s) (set_swipe_offset 0);
    Some (set_items updated s).

Definition handle_push (fl : Fl) (s : ClearApp) : option ClearApp :=
  let mx := event_x fl in
  let my := event_y fl in
  let start_y := 0 in
  do s <- (if (editing_index s >=? 0) && (event_button fl =? FL_LEFT_MOUSE) then
             let clicked_index := get_item_at_y my s in
             if negb (clicked_index =? editing_index s) then finish_editing s else Some s
           else Some s);
  let s := set_items (map (set_swipe_offset 0) (items s)) s in
  let index := get_item_at_y my s in
  let in_pull_zone := (my <? start_y) && (index <? 0) in
  if index >=? 0 then
    if event_button fl =? FL_LEFT_MOUSE then
      Some (s |> set_selected_index index
              |> set_is_dragging false
              |> set_is_swiping false
              |> set_is_pulling_down false
              |> set_can_reorder false
              |> set_drag_start_y my
              |> set_drag_start_x mx
              |> set_drag_offset (my - (start_y + index * item_height s))
              |> set_pending_click_index (-1)
              |> add_timeout 0.3 long_press_timeout_cb)
    else if event_button fl =? FL_RIGHT_MOUSE then
      do s <- (if editing_index s >=? 0 then finish_editing s else Some s);
      delete_item index s
    else Some s
  else if in_pull_zone && (event_button fl =? FL_LEFT_MOUSE) then
    Some (s |> set_is_dragging true
            |> set_is_pulling_down true
            |> set_drag_start_y my
            |> set_drag_start_x mx
            |> set_pull_down_offset 0
            |> set_selected_index (-1))
  else Some s.

(** [FL_DRAG] from "Only allow reordering after long press" onwards. *)
Definition drag_selected (dx dy my : Z) (s : ClearApp) : option ClearApp :=
  if negb (can_reorder s) && negb (is_swiping s) then Some s
  else
    let s := if negb (is_swiping s) then set_is_dragging true s else s in
    let s := if negb (is_swiping s) && (Z.abs dx >? 10) then set_is_swiping true s else s in
    if is_swiping s then
      do updated <- Vec.update (items s) (selected_index s) (set_swipe_offset dx);
      Some (set_items updated s)
    else if can_reorder s && (Z.abs dy >? 10) then
      let new_index := get_item_at_y my s in
      if (new_index >=? 0) && negb (new_index =? selected_index s) then
        Some (s |> reorder_items (selected_index s) new_index
                |> set_selected_index new_index)
      else Some s
    else Some s.

(** [item_height * 1.5] is exact in [double]; the assignment to the [int]
    [pull_down_offset] truncates. *)
Definition handle_drag (fl : Fl) (s : ClearApp) : option ClearApp :=
  let mx := event_x fl in
  let my := event_y fl in
  let dx := mx - drag_start_x s in
  let dy := my - drag_start_y s in
  if is_pulling_down s then
    if dy >? 0 then
      let s := set_pull_down_offset dy s in
      Some (if 2 * pull_down_offset s >? 3 * item_height s
            then set_pull_down_offset (Z.quot (3 * item_height s) 2) s else s)
    else if dy <? -5 then Some (set_pull_down_offset 0 s)
    else Some s
  else if selected_index s >=? 0 then
    if negb (can_reorder s) && (dy >? 20) && (Z.abs dx <? 30) then
      s |> remove_timeout long_press_timeout_cb
        |> set_is_pulling_down true
        |> set_is_dragging true
        |> set_selected_index (-1)
        |> set_pull_down_offset dy
        |> drag_selected dx dy my
    else if negb (can_reorder s) then
      if (Z.abs dx >? 10) && (Z.abs dx >? Z.abs dy) then
        let s := s |> set_is_swiping true |> set_is_dragging true in
        do updated <- Vec.update (items s) (selected_index s) (set_swipe_offset dx);
        drag_selected dx dy my (set_items updated s)
      else if (Z.abs dx >? 5) || (Z.abs dy >? 5) then
        Some (s |> remove_timeout long_press_timeout_cb |> set_can_reorder false)
      else Some s
    else drag_selected dx dy my s
  else Some s.

(** [item_height * 0.6] against an [int]: the same remark as for
    [w() * 0.3] applies. *)
Definition handle_release (fl : Fl) (s : ClearApp) : option ClearApp :=
  let mx := event_x fl in
  let my := event_y fl in
  let s := remove_timeout long_press_timeout_cb s in
  do s <-
    (if is_pulling_down s then
       if 5 * pull_down_offset s >? 3 * item_height s then add_item "" s
       else Some (s |> set_pull_down_offset 0 |> set_is_pulling_down false)
     else if is_dragging s && (selected_index s >=? 0) && can_reorder s then
       if is_swiping s then release_swipe s else Some s
     else if selected_index s >=? 0 then
       let dx := mx - drag_start_x s in
       let dy := my - drag_start_y s in
       if is_swiping s then release_swipe s
       else if (Z.abs dx <? 5) && (Z.abs dy <? 5) && negb (can_reorder s) then
         if event_clicks fl >? 0 then
           let s := if pending_click_index s >=? 0
                    then s |> remove_timeout click_timeout_cb |> set_pending_click_index (-1)
                    else s in
           Some (if editing_index s <? 0 then toggle_complete (selected_index s) s else s)
         else
           let s := if pending_click_index s >=? 0
                    then remove_timeout click_timeout_cb s else s in
           Some (s |> set_pending_click_index (selected_index s)
                   |> add_timeout 0.3 click_timeout_cb)
       else Some s
     else Some s);
  Some (s |> set_is_dragging false |> set_is_swiping false |> set_can_reorder false).

(** [int] is 32 bits wide, and an [int] operation whose exact result
    lies outside that range has no defined behaviour.  Pixel coordinates
    and the offsets computed from them are bounded by the size of the
    window; [Fl::event_dy()] is whatever the device reports, so the
    arithmetic on it is checked. *)
Definition INT_MIN : Z := - 2 ^ 31.
Definition INT_MAX : Z := 2 ^ 31 - 1.
Definition is_int (z : Z) : bool := (INT_MIN <=? z) && (z <=? INT_MAX).

(** [scroll_offset -= dy * item_height]: [None] when the product or the
    difference overflows. *)
Definition handle_mousewheel (fl : Fl) (s : ClearApp) : option ClearApp :=
  let dy := event_dy fl in
  if negb (dy =? 0) then
    let product := dy * item_height s in
    if is_int product && is_int (scroll_offset s - product) then
      Some (s |> set_scroll_offset (scroll_offset s - product) |> clamp_scroll_offset)
    else None
  else Some s.

(** Keys other than Escape go to [Fl_Window::handle], which passes them to
    the input widget; see [Typed] below. *)
Definition handle_keyboard (fl : Fl) (s : ClearApp) : option ClearApp :=
  if (editing_index s >=? 0) && visible (input_widget s) then
    let key := event_key fl in
    if key =? FL_Escape then
      let current_text := value (input_widget s) in
      let finish (s : ClearApp) :=
        Some (s |> (fun s => set_input_widget (hide (input_widget s)) s)
                |> set_editing_index (-1)
                |> set_editing_text ""
                |> save_to_file) in
      if Str.empty current_text && (editing_index s <? Vec.size (items s)) then
        let s := set_items (Vec.erase (items s) (editing_index s)) s in
        match items s with
        | [] =>
            s |> set_items (items s ++ [TodoItem_new ""])
              |> set_editing_index 0
              |> set_editing_text ""
              |> start_editing 0
        | _ :: _ => finish s
        end
      else finish s
    else Some s
  else if (event_key fl =? FL_Delete) && (selected_index s >=? 0) then
    do s <- delete_item (selected_index s) s;
    Some (set_selected_index (-1) s)
  else Some s.

Definition handle (event : Event) (fl : Fl) (s : ClearApp) : option ClearApp :=
  match event with
  | FL_PUSH => handle_push fl s
  | FL_DRAG => handle_drag fl s
  | FL_RELEASE => handle_release fl s
  | FL_MOUSEWHEEL => handle_mousewheel fl s
  | FL_KEYBOARD => handle_keyboard fl s
  | FL_OTHER => Some s
  end.

(** *** Painting *)

(** One call [draw_item(index, y, is_editing, visual_position,
    total_visual_items)]. *)
Record DrawItem := mkDrawItem {
  drawn_index : Z;
  drawn_y : Z;
  drawn_is_editing : bool;
  drawn_visual_position : Z;
  drawn_total : Z
}.

(** [draw_item] records where the item was painted; the painting itself
    leaves the window's fields alone. *)
Definition draw_item (index y : Z) (s : ClearApp) : ClearApp :=
  if (index <? 0) || (index >=? Vec.size (items s)) then s
  else
    match Vec.update (items s) index (set_y_position y) with
    | Some updated => set_items updated s
    | None => s
    end.

(** The loop of [draw] over [sorted_indices], from position [visual_pos]
    with the running [y]. *)
Fixpoint draw_loop (rest : list Z) (visual_pos y total : Z) (s : ClearApp)
  : ClearApp * list DrawItem :=
  match rest with
  | [] => (s, [])
  | actual_index :: rest' =>
      let item_y := y - scroll_offset s in
      let item_y := if is_pulling_down s && (pull_down_offset s >? 0)
                    then item_y + pull_down_offset s else item_y in
      let (s, call) :=
        if (item_y + item_height s >? 0) && (item_y <? win_h s) then
          (draw_item actual_index item_y s,
           [mkDrawItem actual_index item_y (actual_index =? editing_index s) visual_pos total])
        else (s, []) in
      let (s, calls) := draw_loop rest' (visual_pos + 1) (y + item_height s) total s in
      (s, call ++ calls)
  end.

(** Position of the first occurrence of [index], [-1] when absent. *)
Fixpoint find_visual_pos (sorted_indices : list Z) (index i : Z) : Z :=
  match sorted_indices with
  | [] => -1
  | x :: rest => if x =? index then i else find_visual_pos rest index (i + 1)
  end.

(** The part of [draw] that keeps the edited item in view. *)
Definition draw_editing (sorted_indices : list Z) (s : ClearApp) : ClearApp :=
  if (editing_index s >=? 0) && (editing_index s <? Vec.size (items s))
     && visible (input_widget s) then
    let start_y := 0 in
    let visual_pos := find_visual_pos sorted_indices (editing_index s) 0 in
    let place (s : ClearApp) :=
      let item_y := if visual_pos >=? 0
                    then start_y + visual_pos * item_height s - scroll_offset s
                    else start_y + editing_index s * item_height s - scroll_offset s in
      if is_pulling_down s && (pull_down_offset s >? 0)
      then item_y + pull_down_offset s else item_y in
    let item_y := place s in
    if item_y <? 0 then
      s |> set_scroll_offset (scroll_offset s + item_y) |> clamp_scroll_offset
    else if item_y + item_height s >? win_h s - 40 then
      s |> set_scroll_offset (scroll_offset s + ((item_y + item_height s) - (win_h s - 40)))
        |> clamp_scroll_offset
    else s
  else s.

Definition draw (s : ClearApp) : ClearApp * list DrawItem :=
  let start_y := 0 in
  let sorted_indices := get_sorted_indices s in
  let (s, calls) := draw_loop sorted_indices 0 start_y (Vec.size sorted_indices) s in
  (draw_editing sorted_indices s, calls).

(** *** Callbacks *)

Definition handle_single_click (index : Z) (s : ClearApp) : option ClearApp :=
  if (index >=? 0) && (index <? Vec.size (items s)) && (pending_click_index s =? index) then
    do s <- (if negb (editing_index s =? index) then start_editing index s else Some s);
    Some (set_pending_click_index (-1) s)
  else Some s.

Definition enable_reorder (s : ClearApp) : ClearApp :=
  if selected_index s >=? 0 then s |> set_can_reorder true |> set_is_dragging true
  else s.

Definition input_callback (fl : Fl) (s : ClearApp) : option ClearApp :=
  if negb (visible (input_widget s)) then Some s
  else
    let key := event_key fl in
    if (key =? FL_Enter) || (key =? FL_KP_Enter) then finish_editing s
    else Some s.

Definition run_callback (cb : Callback) (s : ClearApp) : option ClearApp :=
  match cb with
  | hide_error_cb => Some (hide_error s)
  | click_timeout_cb =>
      if pending_click_index s >=? 0 then handle_single_click (pending_click_index s) s
      else Some s
  | long_press_timeout_cb => Some (enable_reorder s)
  end.

(** *** Construction *)

(** The constructor.  [data_dir] is what [get_data_directory] returned;
    [y0] and [x0] are whatever [drag_start_y] and [drag_start_x], which no
    initialiser sets, happen to hold. *)
Definition ClearApp_new (W H : Z) (data_dir : string) (d : Disk) (y0 x0 : Z) : ClearApp :=
  let s := mkClearApp [] (-1) y0 x0 false false false 0 0 60 "" (-1) "" (-1) false
             (mkFl_Input false "") 0 (mkErrorDisplay "" false) W H d [] in
  let s := if (data_dir =? ".")%string then set_data_file "todos.txt" s
           else set_data_file (data_dir ++ "/todos.txt")%string s in
  let (loaded, s) := load_from_file s in
  if negb loaded || Vec.empty (items s)
  then s |> add_sample_items |> save_to_file
  else s.

(** The window that [main] creates. *)
Definition main_window (data_dir : string) (d : Disk) (y0 x0 : Z) : ClearApp :=
  ClearApp_new 600 800 data_dir d y0 x0.

(** *** The event loop *)

(** What [Fl::run] can do next: deliver an event to [handle]; let the user
    change the text of the visible input widget, whose callback then runs
    with the key just pressed; run the [n]-th pending timeout once its time
    is up; repaint; or let time pass.  Of the text the user left in the
    widget the program can read the C string, [Str.c_str new_value]. *)
Inductive Action :=
| Deliver (event : Event) (fl : Fl)
| Typed (new_value : string) (fl : Fl)
| Fire (n : nat)
| Paint
| Elapse (dt : Q).

Definition remove_nth {A : Type} (n : nat) (l : list A) : list A :=
  firstn n l ++ skipn (S n) l.

Definition step (a : Action) (s : ClearApp) : option ClearApp :=
  match a with
  | Deliver event fl => handle event fl s
  | Typed new_value fl =>
      if visible (input_widget s)
      then input_callback fl
             (set_input_widget (set_value (Str.c_str new_value) (input_widget s)) s)
      else None
  | Fire n =>
      match nth_error (timeouts s) n with
      | Some (cb, t) =>
          if Qle_bool t 0
          then run_callback cb (set_timeouts (remove_nth n (timeouts s)) s)
          else None
      | None => None
      end
  | Paint => Some (fst (draw s))
  | Elapse dt =>
      if Qle_bool 0 dt
      then Some (set_timeouts (map (fun e => (fst e, (snd e - dt)%Q)) (timeouts s)) s)
      else None
  end.

Fixpoint run (actions : list Action) (s : ClearApp) : option ClearApp :=
  match actions with
  | [] => Some s
  | a :: rest => do s <- step a s; run rest s
  end.

(** States the window can be in while [Fl::run] runs. *)
Inductive reachable : ClearApp -> Prop :=
| reachable_start (data_dir : string) (d : Disk) (y0 x0 : Z) :
    reachable (main_window data_dir d y0 x0)
| reachable_step (a : Action) (s s' : ClearApp) :
    reachable s -> step a s = Some s' -> reachable s'.

(** * Vocabulary of the properties *)

(** ** The file format *)

(** The line that [save_to_file] writes for an item, without its newline,
    and the whole file for a list. *)
Definition item_line (item : TodoItem) : string :=
  ("0|" ++ (if completed item then "1" else "0") ++ "|" ++ escape_text (text item))%string.

Fixpoint file_image (v : list TodoItem) : string :=
  match v with
  | [] => EmptyString
  | item :: rest => (item_line item ++ String Str.nl EmptyString ++ file_image rest)%string
  end.

(** [e] is [t] with each newline written as backslash-n and each backslash
    doubled. *)
Inductive escapes : string -> string -> Prop :=
| escapes_nil : escapes EmptyString EmptyString
| escapes_newline (t e : string) :
    escapes t e -> escapes (String Str.nl t) (String Str.backslash (String "n" e))
| escapes_backslash (t e : string) :
    escapes t e ->
    escapes (String Str.backslash t) (String Str.backslash (String Str.backslash e))
| escapes_plain (c : ascii) (t e : string) :
    c <> Str.nl -> c <> Str.backslash -> escapes t e -> escapes (String c t) (String c e).

(** [content] holds one line [0|<0 or 1>|<escaped text>] per item, in
    order, each ended by a newline. *)
Inductive file_of : list TodoItem -> string -> Prop :=
| file_of_nil : file_of [] EmptyString
| file_of_cons (item : TodoItem) (rest : list TodoItem) (e content : string) :
    escapes (text item) e ->
    file_of rest content ->
    file_of (item :: rest)
      ("0|" ++ (if completed item then "1" else "0") ++ "|" ++ e
       ++ String Str.nl content)%string.

(** The write stores every byte: the file opens and the quota, if any,
    is large enough. *)
Definition write_succeeds (d : Disk) (bytes : string) : Prop :=
  disk_writable d = true /\
  match disk_quota d with
  | Some q => (String.length bytes <= q)%nat
  | None => True
  end.

(** A file that can always be written in full. *)
Definition reliable (d : Disk) : Prop := disk_writable d = true /\ disk_quota d = None.

(** The file holds the list as [save_to_file] writes it. *)
Definition synced (s : ClearApp) : Prop :=
  disk_data (disk s) = Some (file_image (items s)).

(** ** Reading *)

(** The lines of a file: maximal runs without a newline, each ended by a
    newline except possibly the last; [cur] is the line read so far. *)
Fixpoint lines_from (cur buf : string) : list string :=
  match buf with
  | EmptyString => if Str.empty cur then [] else [cur]
  | String c rest =>
      if (c =? Str.nl)%char then cur :: lines_from EmptyString rest
      else lines_from (cur ++ String c EmptyString) rest
  end.

Definition lines (content : string) : list string := lines_from EmptyString content.

(** The items of the lines that [load_from_file] does not skip. *)
Definition parse_lines (ls : list string) : list TodoItem :=
  flat_map (fun line => match parse_line line with Some item => [item] | None => [] end) ls.

(** [t] is what [e] stands for: backslash-n is a newline and two
    backslashes are one; a backslash before any other character, or at
    the end, stands for itself, and so does every other character. *)
Inductive unescapes : string -> string -> Prop :=
| unescapes_nil : unescapes EmptyString EmptyString
| unescapes_newline (e t : string) :
    unescapes e t -> unescapes (String Str.backslash (String "n" e)) (String Str.nl t)
| unescapes_backslash (e t : string) :
    unescapes e t ->
    unescapes (String Str.backslash (String Str.backslash e)) (String Str.backslash t)
| unescapes_stray (c : ascii) (e t : string) :
    c <> "n"%char -> c <> Str.backslash -> unescapes (String c e) t ->
    unescapes (String Str.backslash (String c e)) (String Str.backslash t)
| unescapes_last : unescapes (String Str.backslash EmptyString) (String Str.backslash EmptyString)
| unescapes_plain (c : ascii) (e t : string) :
    c <> Str.backslash -> unescapes e t -> unescapes (String c e) (String c t).

(** The item for a line whose text between the first two separators is [b]
    and whose text after the second stands for [t]. *)
Definition item_of_fields (b t : string) : TodoItem :=
  mkTodoItem t (b =? "1")%string 0 0.

(** What comes back for a saved item: its text and flag, with the
    transient fields as the constructor sets them. *)
Definition reloaded (item : TodoItem) : TodoItem :=
  mkTodoItem (text item) (completed item) 0 0.

(** A line with at least two separators and the item it stands for: [a]
    and [b] hold no separator, so the two that are written out are the
    first and the second of the line, and the rest [c] stands for the
    text. *)
Inductive line_item : string -> TodoItem -> Prop :=
| line_item_intro (a b c t : string) :
    Str.count Str.bar a = 0%nat -> Str.count Str.bar b = 0%nat ->
    unescapes c t ->
    line_item (a ++ "|" ++ b ++ "|" ++ c)%string (item_of_fields b t).

(** A line that yields no item: empty, or with fewer than two separators. *)
Definition skipped (line : string) : Prop :=
  line = EmptyString \/ (Str.count Str.bar line < 2)%nat.

(** The items of a list of lines: one per line that is not skipped. *)
Inductive loads : list string -> list TodoItem -> Prop :=
| loads_nil : loads [] []
| loads_skip (line : string) (ls : list string) (v : list TodoItem) :
    skipped line -> loads ls v -> loads (line :: ls) v
| loads_item (line : string) (ls : list string) (item : TodoItem) (v : list TodoItem) :
    ~ skipped line -> line_item line item -> loads ls v -> loads (line :: ls) (item :: v).

(** The sample list of a first run. *)
Definition sample_items : list TodoItem :=
  map TodoItem_new
    ["Welcome to Clear"; "Pull down to add new task"; "Click to edit task";
     "Double-click to complete"; "Swipe right to delete"; "Long press to reorder"].

(** ** The list and its display *)

(** The guard of [reorder_items]. *)
Definition reorder_refused (from_index to_index : Z) (s : ClearApp) : bool :=
  (from_index <? 0) || (from_index >=? Vec.size (items s)) || (to_index <? 0)
  || (to_index >=? Vec.size (items s)) || (from_index =? to_index).

(** The positions [0 .. n-1] of a list of length [n]. *)
Definition positions (n : nat) : list Z := map Z.of_nat (seq 0 n).

(** Where the item in slot [pos] of the display is painted, whether that
    is on screen, and the call [draw] makes for it. *)
Definition slot_y (s : ClearApp) (pos : Z) : Z :=
  let y := pos * item_height s - scroll_offset s in
  if is_pulling_down s && (pull_down_offset s >? 0) then y + pull_down_offset s else y.

Definition on_screen (s : ClearApp) (pos : Z) : bool :=
  (slot_y s pos + item_height s >? 0) && (slot_y s pos <? win_h s).

Definition draw_call (s : ClearApp) (total : Z) (slot : Z * Z) : list DrawItem :=
  let (pos, index) := slot in
  if on_screen s pos
  then [mkDrawItem index (slot_y s pos) (index =? editing_index s) pos total]
  else [].

(** The fields the loop of [draw] reads; [draw_item] leaves them alone. *)
Definition same_view (s s0 : ClearApp) : Prop :=
  scroll_offset s0 = scroll_offset s /\ item_height s0 = item_height s
  /\ is_pulling_down s0 = is_pulling_down s /\ pull_down_offset s0 = pull_down_offset s
  /\ win_h s0 = win_h s /\ editing_index s0 = editing_index s.

(** An empty item was put in and is being edited. *)
Definition refilled (s : ClearApp) : Prop :=
  items s = [TodoItem_new ""]
  /\ editing_index s = 0
  /\ editing_text s = ""%string
  /\ input_widget s = mkFl_Input true "".

(** ** Gesture modes *)

(** The mode flags together with the pending long-press timers. *)
Definition modes (s : ClearApp) : bool * bool * bool * Z * list (Callback * Q) :=
  (is_swiping s, can_reorder s, is_pulling_down s, pending_click_index s,
   pending long_press_timeout_cb s).

(** A pending click excludes reordering: with a click pending, reordering
    is off and no long-press timer is running. *)
Definition calm (s : ClearApp) : Prop :=
  0 <= pending_click_index s ->
  can_reorder s = false /\ pending long_press_timeout_cb s = [].

(** How many of the four gesture modes are active. *)
Definition active_modes (s : ClearApp) : nat :=
  Nat.b2n (is_swiping s) + Nat.b2n (can_reorder s) + Nat.b2n (is_pulling_down s)
  + Nat.b2n (pending_click_index s >=? 0).

Definition mutually_exclusive (s : ClearApp) : Prop := (active_modes s <= 1)%nat.

(** ** Example windows, files and gestures *)

(** A window whose file is missing but can be created. *)
Definition fresh_disk : Disk := mkDisk None true true None false.
Definition first_window : ClearApp := main_window "/home/user/.config/Clear" fresh_disk 0 0.

(** Items with awkward texts: separators, backslashes, a newline, the
    two-character sequence backslash-n, and the empty text. *)
Definition awkward_items : list TodoItem :=
  [mkTodoItem ("a|b\" ++ String Str.nl "c\n\\")%string true 7 (-3);
   TodoItem_new "";
   TodoItem_new "\";
   mkTodoItem "|||" false 0 5].

(** A file with a comment line, an empty line, a line with one separator
    and a last line without a newline. *)
Definition mixed_file : string :=
  ("# saved list" ++ String Str.nl
     ("0|1|done \\ and\nmore" ++ String Str.nl
        (String Str.nl
           ("7|x" ++ String Str.nl "3|yes|not|done"))))%string.

Definition mixed_window : ClearApp :=
  set_disk (mkDisk (Some mixed_file) true true None false) first_window.

(** A window editing its only item, whose text the user has cleared. *)
Definition last_item_window : ClearApp :=
  first_window |> set_items [TodoItem_new "Buy milk"]
               |> set_editing_index 0
               |> set_editing_text "Buy milk"
               |> set_input_widget (mkFl_Input true "").

(** A window whose file cannot be opened for writing. *)
Definition locked_window : ClearApp :=
  set_disk (mkDisk (Some "") true false None false) first_window.

Definition left_button (x y : Z) : Fl := mkFl x y FL_LEFT_MOUSE 0 0 0.
Definition key (k : Z) : Fl := mkFl 0 0 0 0 0 k.

(** Press on the first item, move 20 pixels to the right, and keep the
    button down until the long-press timer fires. *)
Definition swipe_and_hold : list Action :=
  [Deliver FL_PUSH (left_button 100 30);
   Deliver FL_DRAG (left_button 120 30);
   Elapse 0.3;
   Fire 0].

(** Press on the first item and drag down far enough to add an item,
    release, then leave the still empty text by pressing on the item
    below. *)
Definition add_and_leave_empty : list Action :=
  [Deliver FL_PUSH (left_button 100 30);
   Deliver FL_DRAG (left_button 100 80);
   Deliver FL_RELEASE (left_button 100 80);
   Deliver FL_PUSH (left_button 100 90)].

(** The same, giving the edit up with Escape instead. *)
Definition add_and_escape_empty : list Action :=
  [Deliver FL_PUSH (left_button 100 30);
   Deliver FL_DRAG (left_button 100 80);
   Deliver FL_RELEASE (left_button 100 80);
   Deliver FL_KEYBOARD (key FL_Escape)].

(** ** Well-formed windows *)

(** The error display and its timer fit together: a visible message has
    exactly one pending [hide_error_cb]; without a visible message the
    text is empty and no [hide_error_cb] is pending. *)
Definition toast_ok (s : ClearApp) : Prop :=
  if is_visible (error_display s)
  then exists t, pending hide_error_cb s = [(hide_error_cb, t)]
  else message (error_display s) = ""%string /\ pending hide_error_cb s = [].

(** What holds of the window of [main] at all times. *)
Definition well_formed (s : ClearApp) : Prop :=
  items s <> []
  /\ item_height s = 60 /\ win_w s = 600 /\ win_h s = 800
  /\ 0 <= scroll_offset s
  /\ toast_ok s.

(** The input widget holds a C string: no NUL byte inside. *)
Definition c_string (w : Fl_Input) : Prop := Str.count Str.nul (value w) = 0%nat.

(** [s'] keeps what [s] has of being well formed, and of its widget
    holding a C string. *)
Definition keeps (s s' : ClearApp) : Prop :=
  item_height s' = item_height s /\ win_w s' = win_w s /\ win_h s' = win_h s
  /\ (items s <> [] -> items s' <> [])
  /\ (0 <= scroll_offset s -> 0 <= scroll_offset s')
  /\ (toast_ok s -> toast_ok s')
  /\ (c_string (input_widget s) -> c_string (input_widget s')).

(** ** C strings *)

(** [shown] is what a reader of a C string sees of [t]: all of [t] when
    [t] has no NUL byte, and otherwise what stands before the first one. *)
Definition c_string_of (t shown : string) : Prop :=
  Str.count Str.nul shown = 0%nat
  /\ (t = shown \/ exists rest, t = (shown ++ String Str.nul rest)%string).

(** A file with two items, the first with a NUL byte in its text, and
    the window that [main] opens on it. *)
Definition nul_disk : Disk :=
  mkDisk
    (Some ("0|0|a" ++ String Str.nul ("b" ++ String Str.nl ("0|0|x" ++ String Str.nl "")))%string)
    true true None false.
Definition nul_window : ClearApp := main_window "." nul_disk 0 0.

(** ** States of a gesture *)

(** The list with every swipe offset back at zero, as [FL_PUSH] leaves
    it. *)
Definition settled (v : list TodoItem) : list TodoItem := map (set_swipe_offset 0) v.

(** The window after the left button went down at [(x, y)] on item [i]. *)
Definition pressed (x y i : Z) (s : ClearApp) : ClearApp :=
  s |> set_items (settled (items s))
    |> set_selected_index i
    |> set_is_dragging false
    |> set_is_swiping false
    |> set_is_pulling_down false
    |> set_can_reorder false
    |> set_drag_start_y y
    |> set_drag_start_x x
    |> set_drag_offset (y - (0 + i * item_height s))
    |> set_pending_click_index (-1)
    |> add_timeout 0.3 long_press_timeout_cb.

(** The timers left when the long-press timer is cancelled. *)
Definition other_timers (s : ClearApp) : list (Callback * Q) :=
  filter (fun e => negb (Callback_eqb (fst e) long_press_timeout_cb)) (timeouts s).

(** The window after the button, pressed at [(x, y)] on item [i], came up
    in place as the first click of a series: the click is noted and the
    double-click timer runs. *)
Definition clicked (x y i : Z) (s : ClearApp) : ClearApp :=
  pressed x y i s
    |> set_timeouts (other_timers s)
    |> set_pending_click_index i
    |> add_timeout 0.3 click_timeout_cb
    |> set_is_dragging false
    |> set_is_swiping false
    |> set_can_reorder false.

(** What is saved of an item whose completion was toggled. *)
Definition flipped (p : string * bool) : string * bool := (fst p, negb (snd p)).

(** An event of the left button at [(x, y)] that FLTK counts as click
    number [clicks + 1] of a series. *)
Definition left_click (x y clicks : Z) : Fl := mkFl x y FL_LEFT_MOUSE clicks 0 0.

(** * Properties *)

(** ** Strings *)

Section StringFacts.

Lemma string_app_nil_r (s : string) : (s ++ "")%string = s.
Proof. induction s as [|c s IH]; simpl; [reflexivity | now rewrite IH]. Qed.

Lemma string_app_assoc (a b c : string) : ((a ++ b) ++ c)%string = (a ++ (b ++ c))%string.
Proof. induction a as [|x a IH]; simpl; [reflexivity | now rewrite IH]. Qed.

Lemma string_length_app (a b : string) :
  String.length (a ++ b) = (String.length a + String.length b)%nat.
Proof. induction a as [|x a IH]; simpl; [reflexivity | now rewrite IH]. Qed.

Lemma count_app (c : ascii) (a b : string) :
  Str.count c (a ++ b) = (Str.count c a + Str.count c b)%nat.
Proof. induction a as [|x a IH]; simpl; [reflexivity | rewrite IH; lia]. Qed.

Lemma count_cons_same (c : ascii) (s : string) :
  Str.count c (String c s) = S (Str.count c s).
Proof. cbn [Str.count]. now rewrite Ascii.eqb_refl. Qed.

Lemma substring_all (s : string) : substring 0 (String.length s) s = s.
Proof. induction s as [|c s IH]; simpl; [reflexivity | now rewrite IH]. Qed.

Lemma substring_prefix (a b : string) : substring 0 (String.length a) (a ++ b) = a.
Proof.
  induction a as [|x a IH]; simpl.
  - destruct b; reflexivity.
  - now rewrite IH.
Qed.

Lemma substring_skip (a b : string) (n : nat) :
  substring (String.length a) n (a ++ b) = substring 0 n b.
Proof. induction a as [|x a IH]; simpl; [reflexivity | exact IH]. Qed.

(** [find] from the start: either the character does not occur, or the
    string splits at its first occurrence. *)
Lemma find_none (s : string) (c : ascii) :
  Str.find s c 0 = None <-> Str.count c s = 0%nat.
Proof.
  induction s as [|a s IH]; simpl.
  - split; reflexivity.
  - destruct (a =? c)%char.
    + split; discriminate.
    + destruct (Str.find s c 0); simpl in *.
      * split; [discriminate | intros H; apply IH in H; discriminate].
      * split; [intros _; now apply IH | reflexivity].
Qed.

Lemma find_some (s : string) (c : ascii) (p : nat) :
  Str.find s c 0 = Some p ->
  exists a r, s = (a ++ String c r)%string /\ String.length a = p /\ Str.count c a = 0%nat.
Proof.
  revert p. induction s as [|x s IH]; simpl; intros p H.
  - discriminate.
  - destruct (x =? c)%char eqn:E.
    + apply Ascii.eqb_eq in E. subst x. inversion H; subst.
      exists EmptyString, s. repeat split.
    + destruct (Str.find s c 0) as [q|]; simpl in H; [|discriminate].
      inversion H; subst.
      destruct (IH q eq_refl) as (a & r & -> & Hl & Hc).
      exists (String x a), r. simpl. rewrite E, Hl, Hc. repeat split.
Qed.

(** [find] from just behind a prefix that ends at an occurrence. *)
Lemma find_after (a r : string) (c : ascii) :
  Str.find (a ++ String c r) c (String.length a + 1) =
  option_map (fun q => (String.length a + 1 + q)%nat) (Str.find r c 0).
Proof.
  induction a as [|x a IH]; simpl.
  - destruct (Str.find r c 0); reflexivity.
  - rewrite IH. destruct (Str.find r c 0); reflexivity.
Qed.

End StringFacts.

(** ** Escaping *)

Lemma escape_text_no_newline (t : string) : Str.count Str.nl (escape_text t) = 0%nat.
Proof.
  induction t as [|c t IH]; simpl; [reflexivity|].
  destruct (c =? Str.nl)%char eqn:E1.
  - simpl. exact IH.
  - destruct (c =? Str.backslash)%char eqn:E2; simpl.
    + exact IH.
    + rewrite E1. exact IH.
Qed.

Lemma unescape_escape (t : string) : unescape_text (escape_text t) = t.
Proof.
  induction t as [|c t IH]; [reflexivity|].
  cbn [escape_text].
  destruct (c =? Str.nl)%char eqn:E1.
  - apply Ascii.eqb_eq in E1. subst c.
    cbn. f_equal. exact IH.
  - destruct (c =? Str.backslash)%char eqn:E2.
    + apply Ascii.eqb_eq in E2. subst c.
      cbn. f_equal. exact IH.
    + cbn [append unescape_text]. rewrite E2. f_equal. exact IH.
Qed.

(** ** The file image *)

Lemma write_item_buf (f : ofstream) (item : TodoItem) :
  out_buf (write_item f item)
  = (out_buf f ++ item_line item ++ String Str.nl EmptyString)%string.
Proof.
  unfold write_item, put, item_line; simpl.
  now rewrite !string_app_assoc.
Qed.

Lemma write_items_buf (v : list TodoItem) (f : ofstream) :
  out_buf (fold_left write_item v f) = (out_buf f ++ file_image v)%string.
Proof.
  revert f. induction v as [|item v IH]; intros f; cbn [fold_left file_image].
  - now rewrite string_app_nil_r.
  - rewrite IH, write_item_buf. rewrite !string_app_assoc. reflexivity.
Qed.

Lemma item_line_no_newline (item : TodoItem) : Str.count Str.nl (item_line item) = 0%nat.
Proof.
  unfold item_line. rewrite !count_app, escape_text_no_newline.
  destruct (completed item); reflexivity.
Qed.

Lemma file_image_newlines (v : list TodoItem) :
  Str.count Str.nl (file_image v) = List.length v.
Proof.
  induction v as [|item v IH]; cbn [file_image List.length]; [reflexivity|].
  rewrite !count_app, item_line_no_newline. simpl. now rewrite IH.
Qed.

Lemma save_to_file_ok (s : ClearApp) :
  write_succeeds (disk s) (file_image (items s)) ->
  save_to_file s = set_disk (set_disk_data (Some (file_image (items s))) (disk s)) s.
Proof.
  intros [Hw Hq]. unfold save_to_file, ofstream_open, ofstream_close.
  rewrite Hw, write_items_buf. simpl.
  destruct (disk_quota (disk s)) as [q|]; [|reflexivity].
  apply Nat.leb_le in Hq. now rewrite Hq.
Qed.

(** ** Reading lines *)

Lemma extract_line_rest_shorter (buf line rest : string) :
  extract_line buf = (line, Some rest) ->
  (String.length rest < String.length buf)%nat.
Proof.
  revert line rest.
  induction buf as [|c buf IH]; simpl; intros line rest H.
  - discriminate.
  - destruct (c =? Str.nl)%char.
    + inversion H; subst. lia.
    + destruct (extract_line buf) as [l r] eqn:E.
      inversion H; subst.
      specialize (IH l rest eq_refl). lia.
Qed.


Lemma lines_from_extract (buf cur : string) :
  match extract_line buf with
  | (l, Some rest) => lines_from cur buf = (cur ++ l)%string :: lines rest
  | (l, None) =>
      lines_from cur buf = if Str.empty (cur ++ l) then [] else [(cur ++ l)%string]
  end.
Proof.
  revert cur. induction buf as [|c buf IH]; intros cur; simpl.
  - now rewrite string_app_nil_r.
  - destruct (c =? Str.nl)%char.
    + now rewrite string_app_nil_r.
    + specialize (IH (cur ++ String c EmptyString)%string).
      destruct (extract_line buf) as [l [rest|]];
        rewrite string_app_assoc in IH; exact IH.
Qed.

Lemma load_loop_step (f : ifstream) (acc : list TodoItem) (la : bool) :
  load_loop f acc la =
  let (line, f') := getline f in
  if fail f' then (f', acc, la)
  else match parse_line line with
       | None => load_loop f' acc la
       | Some item => load_loop f' (acc ++ [item]) true
       end.
Proof.
  funelim (load_loop f acc la);
    repeat match goal with
      | H : getline _ = _ |- _ => rewrite H
      | H : fail _ = _ |- _ => rewrite H
      | H : parse_line _ = _ |- _ => rewrite H
      end; reflexivity.
Qed.

(** A stream that has hit end-of-file delivers nothing more. *)
Lemma load_loop_at_eof (buf : string) (fb bb ft : bool) (acc : list TodoItem) (la : bool) :
  load_loop (mk_ifstream buf true fb bb ft) acc la
  = (mk_ifstream buf true true bb ft, acc, la).
Proof. rewrite load_loop_step. reflexivity. Qed.

(** Reading a whole file without an I/O error: the loop appends the items
    of its lines and ends with both [eofbit] and [failbit] set. *)
Lemma load_loop_lines (buf : string) (acc : list TodoItem) (la : bool) :
  exists f',
    load_loop (mk_ifstream buf false false false false) acc la
    = (f', acc ++ parse_lines (lines buf),
       la || negb (Vec.empty (parse_lines (lines buf))))
    /\ fail f' = true /\ eof f' = true.
Proof.
  remember (String.length buf) as n eqn:Hn.
  revert buf Hn acc la.
  induction n as [n IH] using lt_wf_ind; intros buf Hn acc la.
  rewrite load_loop_step. unfold getline. cbn [good eofbit failbit badbit orb negb in_buf in_fault].
  pose proof (lines_from_extract buf EmptyString) as Hl.
  destruct (extract_line buf) as [l [rest|]] eqn:E; cbn [append] in Hl; fold (lines buf) in Hl.
  - cbn [fail failbit badbit orb]. rewrite Hl. unfold parse_lines at 1 2. cbn [flat_map].
    fold (parse_lines (lines rest)).
    apply extract_line_rest_shorter in E.
    destruct (parse_line l) as [item|].
    + destruct (IH (String.length rest) ltac:(lia) rest eq_refl (acc ++ [item]) true)
        as (f' & -> & Hf & He).
      exists f'. rewrite <- app_assoc. cbn [app Vec.empty negb]. rewrite orb_true_r.
      repeat split; assumption.
    + destruct (IH (String.length rest) ltac:(lia) rest eq_refl acc la) as (f' & -> & Hf & He).
      exists f'. repeat split; assumption.
  - cbn [fail failbit badbit orb]. rewrite Hl.
    destruct (Str.empty l) eqn:El.
    + eexists. cbn [parse_lines flat_map Vec.empty negb]. rewrite app_nil_r, orb_false_r.
      repeat split.
    + unfold parse_lines. cbn [flat_map]. rewrite app_nil_r.
      destruct (parse_line l) as [item|]; rewrite load_loop_at_eof; eexists.
      * cbn [Vec.empty negb]. rewrite orb_true_r. repeat split.
      * cbn [Vec.empty negb]. rewrite app_nil_r, orb_false_r. repeat split.
Qed.

(** ** Parsing one line *)

Lemma find_first (a r : string) (c : ascii) :
  Str.count c a = 0%nat -> Str.find (a ++ String c r) c 0 = Some (String.length a).
Proof.
  induction a as [|x a IH]; simpl; intros H.
  - now rewrite Ascii.eqb_refl.
  - destruct (x =? c)%char; [discriminate|]. now rewrite IH.
Qed.

Lemma parse_line_split (a b c : string) :
  Str.count Str.bar a = 0%nat -> Str.count Str.bar b = 0%nat ->
  parse_line (a ++ String Str.bar (b ++ String Str.bar c))
  = Some (item_of_fields b (unescape_text c)).
Proof.
  intros Ha Hb. unfold parse_line.
  assert (Str.empty (a ++ String Str.bar (b ++ String Str.bar c)) = false) as ->
    by (destruct a; reflexivity).
  rewrite (find_first a _ _ Ha), find_after, (find_first b _ _ Hb).
  cbn [option_map]. unfold Str.substr, Str.substr_from, item_of_fields, TodoItem_new, set_completed.
  cbn [text y_position swipe_offset].
  set (line := (a ++ String Str.bar (b ++ String Str.bar c))%string).
  assert (substring (String.length a + 1)
            (String.length a + 1 + String.length b - String.length a - 1) line = b) as ->.
  { replace (String.length a + 1 + String.length b - String.length a - 1)%nat
      with (String.length b) by lia.
    replace line with ((a ++ String Str.bar EmptyString) ++ (b ++ String Str.bar c))%string
      by (unfold line; now rewrite string_app_assoc).
    replace (String.length a + 1)%nat with (String.length (a ++ String Str.bar EmptyString))
      by (rewrite string_length_app; reflexivity).
    now rewrite substring_skip, substring_prefix. }
  assert (substring (String.length a + 1 + String.length b + 1)
            (String.length line - (String.length a + 1 + String.length b + 1)) line = c) as ->.
  { set (p := ((a ++ String Str.bar EmptyString) ++ (b ++ String Str.bar EmptyString))%string).
    assert (String.length p = (String.length a + 1 + String.length b + 1)%nat) as Hp
      by (unfold p; rewrite !string_length_app; simpl; lia).
    replace line with (p ++ c)%string
      by (unfold line, p; rewrite !string_app_assoc; reflexivity).
    rewrite <- Hp, string_length_app.
    replace (String.length p + String.length c - String.length p)%nat
      with (String.length c) by lia.
    now rewrite substring_skip, substring_all. }
  reflexivity.
Qed.

Lemma parse_line_some (line : string) (item : TodoItem) :
  parse_line line = Some item ->
  exists a b c,
    line = (a ++ String Str.bar (b ++ String Str.bar c))%string
    /\ Str.count Str.bar a = 0%nat /\ Str.count Str.bar b = 0%nat
    /\ item = item_of_fields b (unescape_text c).
Proof.
  intros H. pose proof H as H'. unfold parse_line in H'.
  destruct (Str.empty line); [discriminate|].
  destruct (Str.find line Str.bar 0) as [pos1|] eqn:E1; [|discriminate].
  destruct (find_some _ _ _ E1) as (a & r & -> & Hl & Ha).
  subst pos1. rewrite find_after in H'.
  destruct (Str.find r Str.bar 0) as [q|] eqn:E2; [|discriminate].
  destruct (find_some _ _ _ E2) as (b & c & -> & _ & Hb).
  exists a, b, c. rewrite (parse_line_split a b c Ha Hb) in H.
  inversion H. repeat split; assumption.
Qed.

Lemma parse_line_none (line : string) :
  parse_line line = None <-> line = EmptyString \/ (Str.count Str.bar line < 2)%nat.
Proof.
  split.
  - intros H. unfold parse_line in H.
    destruct line as [|x line']; [now left|]. right.
    cbn [Str.empty] in H. set (line := String x line') in *.
    destruct (Str.find line Str.bar 0) as [pos1|] eqn:E1.
    + destruct (find_some _ _ _ E1) as (a & r & Hline & Hl & Ha).
      rewrite Hline in *. subst pos1. rewrite find_after in H.
      destruct (Str.find r Str.bar 0) as [q|] eqn:E2; [discriminate|].
      apply find_none in E2. rewrite count_app, count_cons_same, Ha, E2. lia.
    + apply find_none in E1. lia.
  - intros [-> | H]; [reflexivity|].
    destruct (parse_line line) as [item|] eqn:E; [|reflexivity].
    destruct (parse_line_some _ _ E) as (a & b & c & -> & _ & _ & _).
    rewrite count_app, count_cons_same, count_app, count_cons_same in H. lia.
Qed.

(** ** Saving and loading *)

Lemma load_from_file_reads (s : ClearApp) (content : string) :
  disk_data (disk s) = Some content ->
  disk_readable (disk s) = true ->
  disk_read_fault (disk s) = false ->
  load_from_file s
  = (negb (Vec.empty (parse_lines (lines content))),
     set_items (parse_lines (lines content)) s).
Proof.
  intros Hd Hr Hf. unfold load_from_file, ifstream_open. rewrite Hd, Hr, Hf.
  cbn [items set_items].
  destruct (load_loop_lines content [] false) as (f' & -> & Hfail & Heof).
  rewrite Hfail, Heof. reflexivity.
Qed.

Lemma load_from_file_closed (s : ClearApp) :
  ifstream_open (disk s) = None -> load_from_file s = (false, s).
Proof. intros H. unfold load_from_file. now rewrite H. Qed.

Lemma lines_from_line (a rest cur : string) :
  Str.count Str.nl a = 0%nat ->
  lines_from cur (a ++ String Str.nl rest) = (cur ++ a)%string :: lines rest.
Proof.
  revert cur. induction a as [|c a IH]; intros cur H.
  - cbn. now rewrite string_app_nil_r.
  - cbn [append lines_from]. cbn [Str.count] in H.
    destruct (c =? Str.nl)%char; [discriminate|].
    rewrite IH by exact H. now rewrite string_app_assoc.
Qed.

Lemma parse_item_line (item : TodoItem) : parse_line (item_line item) = Some (reloaded item).
Proof.
  unfold item_line.
  change ("0|" ++ (if completed item then "1" else "0") ++ "|" ++ escape_text (text item))%string
    with ("0" ++ String Str.bar ((if completed item then "1" else "0")
                                 ++ String Str.bar (escape_text (text item))))%string.
  rewrite parse_line_split.
  - unfold item_of_fields, reloaded. rewrite unescape_escape.
    destruct (completed item); reflexivity.
  - reflexivity.
  - destruct (completed item); reflexivity.
Qed.

Lemma parse_file_image (v : list TodoItem) :
  parse_lines (lines (file_image v)) = map reloaded v.
Proof.
  induction v as [|item v IH]; [reflexivity|].
  cbn [file_image map append]. unfold lines.
  rewrite lines_from_line by apply item_line_no_newline.
  cbn [append]. unfold parse_lines. cbn [flat_map].
  rewrite parse_item_line. fold (parse_lines (lines (file_image v))).
  now rewrite IH.
Qed.

(** ** The file format, as the interface describes it *)

Lemma escape_text_escapes (t : string) : escapes t (escape_text t).
Proof.
  induction t as [|c t IH]; cbn [escape_text]; [constructor|].
  destruct (c =? Str.nl)%char eqn:E1.
  - apply Ascii.eqb_eq in E1. subst c. cbn. now constructor.
  - destruct (c =? Str.backslash)%char eqn:E2.
    + apply Ascii.eqb_eq in E2. subst c. cbn. now constructor.
    + apply Ascii.eqb_neq in E1, E2. cbn. now constructor.
Qed.

Lemma escapes_no_newline (t e : string) : escapes t e -> Str.count Str.nl e = 0%nat.
Proof.
  induction 1 as [|t e _ IH|t e _ IH|c t e Hn _ _ IH]; cbn [Str.count].
  - reflexivity.
  - cbn. exact IH.
  - cbn. exact IH.
  - apply Ascii.eqb_neq in Hn. now rewrite Hn.
Qed.

Lemma file_image_file_of (v : list TodoItem) : file_of v (file_image v).
Proof.
  induction v as [|item v IH]; cbn [file_image]; [constructor|].
  unfold item_line. rewrite !string_app_assoc.
  apply (file_of_cons item v (escape_text (text item)) (file_image v)).
  - apply escape_text_escapes.
  - exact IH.
Qed.

(** One line per item: a file in the format has as many newlines as the
    list has items. *)
Lemma file_of_newlines (v : list TodoItem) (content : string) :
  file_of v content -> Str.count Str.nl content = List.length v.
Proof.
  induction 1 as [|item rest e content He _ IH]; [reflexivity|].
  rewrite !count_app, (escapes_no_newline _ _ He), count_cons_same, IH.
  destruct (completed item); reflexivity.
Qed.

(** [unescape_text] computes what an escaped text stands for, and an
    escaped text stands for one text only. *)
Lemma unescape_text_unescapes (e : string) : unescapes e (unescape_text e).
Proof.
  assert (forall n e, (String.length e <= n)%nat -> unescapes e (unescape_text e)) as H.
  { induction n as [|n IH]; intros [|c rest] Hn; try (cbn in Hn; lia); [constructor..|].
    cbn [String.length] in Hn. cbn [unescape_text].
    destruct (c =? Str.backslash)%char eqn:Ec.
    - apply Ascii.eqb_eq in Ec. subst c. destruct rest as [|d rest'].
      + cbn [unescape_text]. constructor.
      + destruct (d =? "n")%char eqn:Ed.
        * apply Ascii.eqb_eq in Ed. subst d. constructor. apply IH.
          cbn [String.length] in Hn. lia.
        * destruct (d =? Str.backslash)%char eqn:Eb.
          -- apply Ascii.eqb_eq in Eb. subst d. constructor. apply IH.
             cbn [String.length] in Hn. lia.
          -- apply Ascii.eqb_neq in Ed, Eb. constructor; trivial. apply IH. lia.
    - apply Ascii.eqb_neq in Ec. constructor; trivial. apply IH. lia. }
  exact (H (String.length e) e (Nat.le_refl _)).
Qed.

Lemma unescapes_unescape_text (e t : string) : unescapes e t -> unescape_text e = t.
Proof.
  induction 1 as [|e t _ IH|e t _ IH|c e t Hn Hb _ IH| |c e t Hb _ IH].
  - reflexivity.
  - cbn. now rewrite IH.
  - cbn. now rewrite IH.
  - apply Ascii.eqb_neq in Hn, Hb.
    change (unescape_text (String Str.backslash (String c e)))
      with (if (c =? "n")%char then String Str.nl (unescape_text e)
            else if (c =? Str.backslash)%char then String Str.backslash (unescape_text e)
                 else String Str.backslash (unescape_text (String c e))).
    now rewrite Hn, Hb, IH.
  - reflexivity.
  - apply Ascii.eqb_neq in Hb. cbn [unescape_text]. now rewrite Hb, IH.
Qed.

Lemma line_item_parse_line (line : string) (item : TodoItem) :
  line_item line item -> parse_line line = Some item.
Proof.
  intros [a b c t Ha Hb Ht]. apply unescapes_unescape_text in Ht. subst t.
  apply (parse_line_split a b c Ha Hb).
Qed.

Lemma parse_lines_loads (ls : list string) : loads ls (parse_lines ls).
Proof.
  induction ls as [|line ls IH]; [constructor|].
  unfold parse_lines. cbn [flat_map]. fold (parse_lines ls).
  destruct (parse_line line) as [item|] eqn:E.
  - cbn [app]. apply loads_item; [| |exact IH].
    + intros Hs. apply parse_line_none in Hs. congruence.
    + destruct (parse_line_some _ _ E) as (a & b & c & -> & Ha & Hb & ->).
      apply (line_item_intro a b c (unescape_text c) Ha Hb).
      apply unescape_text_unescapes.
  - cbn [app]. apply loads_skip; [|exact IH]. now apply parse_line_none.
Qed.

Lemma loads_unique (ls : list string) (v : list TodoItem) : loads ls v -> v = parse_lines ls.
Proof.
  induction 1 as [|line ls v Hs _ IH|line ls item v _ Hitem _ IH]; [reflexivity|..].
  - unfold parse_lines. cbn [flat_map]. fold (parse_lines ls).
    apply parse_line_none in Hs. now rewrite Hs.
  - unfold parse_lines. cbn [flat_map]. fold (parse_lines ls).
    rewrite (line_item_parse_line _ _ Hitem). cbn [app]. now rewrite IH.
Qed.

(** ** Round trip, format, parsing and first run *)

(** C1: loading the file that [save_to_file] wrote, into whatever window
    holds that file, gives back the same sequence of (text, completed)
    pairs, whatever the texts contain and whatever the window held before,
    provided the file can be written in full and read back; the result is
    [true] unless the saved list was empty. *)
Theorem save_load_roundtrip (s s0 : ClearApp) :
  write_succeeds (disk s) (file_image (items s)) ->
  disk_readable (disk s) = true ->
  disk_read_fault (disk s) = false ->
  disk s0 = disk (save_to_file s) ->
  map persisted (items (snd (load_from_file s0))) = map persisted (items s)
  /\ fst (load_from_file s0) = negb (Vec.empty (items s)).
Proof.
  intros Hw Hr Hf Hd.
  rewrite (save_to_file_ok s Hw) in Hd. cbn [disk set_disk] in Hd.
  rewrite (load_from_file_reads s0 (file_image (items s)));
    [|now rewrite Hd|now rewrite Hd|now rewrite Hd].
  cbn [fst snd items set_items]. rewrite parse_file_image, map_map.
  split; [reflexivity|]. now destruct (items s).
Qed.

Lemma save_load_roundtrip_witness :
  map persisted
    (items (snd (load_from_file
                   (set_disk (disk (save_to_file (set_items awkward_items first_window)))
                      first_window))))
  = map persisted awkward_items
  /\ items first_window <> awkward_items.
Proof.
  split; [|discriminate].
  apply (save_load_roundtrip (set_items awkward_items first_window)
           (set_disk (disk (save_to_file (set_items awkward_items first_window)))
              first_window)).
  - split; [reflexivity | exact I].
  - reflexivity.
  - reflexivity.
  - reflexivity.
Defined.

(** C2: when the write goes through, the file holds one line per item, in
    list order, of the form [0|], [1] or [0] for the flag, [|], the
    escaped text, and a newline; the number of newlines is the number of
    items. *)
Theorem save_to_file_format (s : ClearApp) :
  write_succeeds (disk s) (file_image (items s)) ->
  exists content,
    disk_data (disk (save_to_file s)) = Some content
    /\ file_of (items s) content
    /\ Str.count Str.nl content = List.length (items s).
Proof.
  intros Hw. exists (file_image (items s)).
  rewrite (save_to_file_ok s Hw). cbn [disk set_disk disk_data set_disk_data].
  split; [reflexivity|]. split.
  - apply file_image_file_of.
  - apply file_image_newlines.
Qed.

Lemma save_to_file_format_witness :
  exists content,
    disk_data (disk (save_to_file (set_items awkward_items first_window))) = Some content
    /\ file_of awkward_items content
    /\ Str.count Str.nl content = 4%nat.
Proof.
  apply (save_to_file_format (set_items awkward_items first_window)).
  split; [reflexivity | exact I].
Defined.

(** C3: reading a file without I/O error, [load_from_file] makes one item
    of every line that is non-empty and has at least two separators and
    skips every other line; the item is completed exactly when the text
    between the first two separators is [1], and its text is what the
    rest of the line stands for once backslash-n is read as a newline and
    two backslashes as one; no other list fits the file in this way; the
    result is [true] exactly when some item was loaded. *)
Theorem load_from_file_parsing (s : ClearApp) (content : string) :
  disk_data (disk s) = Some content ->
  disk_readable (disk s) = true ->
  disk_read_fault (disk s) = false ->
  loads (lines content) (items (snd (load_from_file s)))
  /\ (forall v, loads (lines content) v -> v = items (snd (load_from_file s)))
  /\ (fst (load_from_file s) = true <-> items (snd (load_from_file s)) <> []).
Proof.
  intros Hd Hr Hf. rewrite (load_from_file_reads s content Hd Hr Hf).
  cbn [fst snd items set_items]. split; [|split].
  - apply parse_lines_loads.
  - apply loads_unique.
  - destruct (parse_lines (lines content)); cbn; split; congruence.
Qed.

Lemma load_from_file_parsing_witness :
  loads (lines mixed_file) (items (snd (load_from_file mixed_window)))
  /\ map persisted (items (snd (load_from_file mixed_window)))
     = [(("done \ and" ++ String Str.nl "more")%string, true); ("not|done"%string, false)]
  /\ fst (load_from_file mixed_window) = true.
Proof.
  destruct (load_from_file_parsing mixed_window mixed_file) as (Hloads & _ & Htrue);
    try reflexivity.
  split; [exact Hloads|]. split; [reflexivity|].
  apply Htrue. discriminate.
Defined.

(** C6: when the data file cannot be opened for reading, [load_from_file]
    returns [false] and leaves the window, error display included, as it
    was; the constructor then fills the list with the six sample items and
    saves them. *)
Theorem missing_file_first_run (W H : Z) (data_dir : string) (d : Disk) (y0 x0 : Z) :
  ifstream_open d = None ->
  (forall s, disk s = d -> load_from_file s = (false, s))
  /\ (exists s, items s = sample_items
                /\ error_display s = mkErrorDisplay "" false
                /\ disk s = d
                /\ ClearApp_new W H data_dir d y0 x0 = save_to_file s)
  /\ items (ClearApp_new W H data_dir d y0 x0) = sample_items
  /\ (write_succeeds d (file_image sample_items) ->
      disk_data (disk (ClearApp_new W H data_dir d y0 x0)) = Some (file_image sample_items)
      /\ error_display (ClearApp_new W H data_dir d y0 x0) = mkErrorDisplay "" false).
Proof.
  intros Hopen.
  assert (forall s, disk s = d -> load_from_file s = (false, s)) as Hload.
  { intros s Hs. apply load_from_file_closed. now rewrite Hs. }
  split; [exact Hload|].
  unfold ClearApp_new.
  match goal with
  | |- context [load_from_file ?s0] => set (start := s0)
  end.
  assert (disk start = d) as Hd by (unfold start; destruct (data_dir =? ".")%string; reflexivity).
  assert (items start = []) as Hi by (unfold start; destruct (data_dir =? ".")%string; reflexivity).
  assert (error_display start = mkErrorDisplay "" false) as He
    by (unfold start; destruct (data_dir =? ".")%string; reflexivity).
  rewrite (Hload start Hd). cbn [negb orb].
  assert (items (add_sample_items start) = sample_items) as Hs
    by (unfold add_sample_items; cbn [items set_items]; now rewrite Hi).
  split; [|split].
  - exists (add_sample_items start). repeat split; assumption.
  - unfold save_to_file.
    destruct (ofstream_open (disk (add_sample_items start))); [|exact Hs].
    destruct (ofstream_close _ _) as [d' [|]]; exact Hs.
  - intros Hw. rewrite save_to_file_ok.
    + cbn [disk set_disk disk_data set_disk_data error_display]. rewrite Hs.
      split; [reflexivity | exact He].
    + rewrite Hs. change (disk (add_sample_items start)) with (disk start).
      rewrite Hd. exact Hw.
Qed.

Lemma missing_file_first_run_witness :
  items (ClearApp_new 600 800 "/home/user/.config/Clear" fresh_disk 0 0) = sample_items
  /\ disk_data (disk (ClearApp_new 600 800 "/home/user/.config/Clear" fresh_disk 0 0))
     = Some (file_image sample_items).
Proof.
  destruct (missing_file_first_run 600 800 "/home/user/.config/Clear" fresh_disk 0 0 eq_refl)
    as (_ & _ & Hitems & Hsaved).
  split; [exact Hitems|].
  apply Hsaved. split; [reflexivity | exact I].
Defined.

(** ** What [save_to_file] and [show_error] leave alone *)

Ltac save_frame :=
  intros; unfold save_to_file;
  destruct (ofstream_open _); [destruct (ofstream_close _ _) as [? []]|];
  reflexivity.

Lemma save_to_file_items (s : ClearApp) : items (save_to_file s) = items s.
Proof. save_frame. Qed.

Lemma save_to_file_editing_index (s : ClearApp) :
  editing_index (save_to_file s) = editing_index s.
Proof. save_frame. Qed.

Lemma save_to_file_input_widget (s : ClearApp) :
  input_widget (save_to_file s) = input_widget s.
Proof. save_frame. Qed.

(** ** Vectors *)

Section VecFacts.
Context {A : Type}.

Lemma at_in_range (v : list A) (i : Z) :
  0 <= i < Vec.size v -> exists x, Vec.at_ v i = Some x.
Proof.
  unfold Vec.at_, Vec.size. intros [H0 H1].
  destruct (i <? 0) eqn:E; [lia|].
  destruct (nth_error v (Z.to_nat i)) as [x|] eqn:En; [now exists x|].
  apply nth_error_None in En. lia.
Qed.

Lemma at_some_range (v : list A) (i : Z) (x : A) :
  Vec.at_ v i = Some x -> 0 <= i < Vec.size v.
Proof.
  unfold Vec.at_, Vec.size. destruct (i <? 0) eqn:E; [discriminate|].
  intros H. assert (nth_error v (Z.to_nat i) <> None) as Hn by congruence.
  apply nth_error_Some in Hn. lia.
Qed.

Lemma at_split (v : list A) (i : Z) (x : A) :
  Vec.at_ v i = Some x ->
  v = firstn (Z.to_nat i) v ++ x :: skipn (S (Z.to_nat i)) v.
Proof.
  unfold Vec.at_. destruct (i <? 0); [discriminate|].
  generalize (Z.to_nat i) as n. clear i. intros n. revert v.
  induction n as [|n IH]; intros [|y v] H; try discriminate.
  - cbn in H. inversion H. reflexivity.
  - cbn in H. cbn [firstn skipn app]. f_equal. now apply IH.
Qed.

Lemma erase_perm (v : list A) (i : Z) (x : A) :
  Vec.at_ v i = Some x -> Permutation v (x :: Vec.erase v i).
Proof.
  intros H. rewrite (at_split v i x H) at 1.
  symmetry. apply Permutation_middle.
Qed.

Lemma insert_perm (v : list A) (i : Z) (x : A) : Permutation (Vec.insert v i x) (x :: v).
Proof.
  unfold Vec.insert. rewrite <- (firstn_skipn (Z.to_nat i) v) at 3.
  symmetry. apply Permutation_middle.
Qed.

Lemma erase_length (v : list A) (i : Z) (x : A) :
  Vec.at_ v i = Some x -> S (List.length (Vec.erase v i)) = List.length v.
Proof.
  intros H. apply erase_perm, Permutation_length in H. cbn in H. congruence.
Qed.

Lemma insert_length (v : list A) (i : Z) (x : A) :
  List.length (Vec.insert v i x) = S (List.length v).
Proof. exact (Permutation_length (insert_perm v i x)). Qed.

Lemma at_insert (v : list A) (i : Z) (x : A) :
  0 <= i <= Vec.size v -> Vec.at_ (Vec.insert v i x) i = Some x.
Proof.
  unfold Vec.at_, Vec.insert, Vec.size. intros [H0 H1].
  destruct (i <? 0) eqn:E; [lia|].
  rewrite nth_error_app2; rewrite firstn_length_le by lia; [|lia].
  now rewrite Nat.sub_diag.
Qed.

Lemma erase_insert (v : list A) (i : Z) (x : A) :
  0 <= i <= Vec.size v -> Vec.erase (Vec.insert v i x) i = v.
Proof.
  unfold Vec.erase, Vec.insert, Vec.size. intros [H0 H1].
  set (n := Z.to_nat i). assert (n <= List.length v)%nat as Hn by (unfold n; lia).
  rewrite firstn_app, firstn_firstn, Nat.min_id, firstn_length_le by exact Hn.
  rewrite Nat.sub_diag. cbn [firstn]. rewrite app_nil_r.
  rewrite skipn_app, firstn_length_le by exact Hn.
  rewrite (skipn_all2 (firstn n v)) by (rewrite firstn_length_le; lia).
  replace (S n - n)%nat with 1%nat by lia. cbn [skipn app].
  apply firstn_skipn.
Qed.

Lemma update_some (v : list A) (i : Z) (f : A -> A) :
  0 <= i < Vec.size v -> exists x, Vec.at_ v i = Some x
    /\ Vec.update v i f = Some (firstn (Z.to_nat i) v ++ f x :: skipn (S (Z.to_nat i)) v).
Proof.
  intros H. destruct (at_in_range v i H) as [x Hx].
  exists x. split; [exact Hx|]. unfold Vec.update. now rewrite Hx.
Qed.

End VecFacts.

(** ** Reordering *)

(** C10: [reorder_items] keeps the items: the result is a permutation of
    the list, of the same length.  When an index is out of range or both
    are equal nothing changes at all; otherwise the item that was at
    [from_index] is at [to_index] afterwards, field by field the same, and
    the other items keep their relative order. *)
Theorem reorder_items_preserves_content (from_index to_index : Z) (s : ClearApp) :
  Permutation (items (reorder_items from_index to_index s)) (items s)
  /\ List.length (items (reorder_items from_index to_index s)) = List.length (items s)
  /\ if reorder_refused from_index to_index s
     then reorder_items from_index to_index s = s
     else exists item,
         Vec.at_ (items s) from_index = Some item
         /\ Vec.at_ (items (reorder_items from_index to_index s)) to_index = Some item
         /\ Vec.erase (items (reorder_items from_index to_index s)) to_index
            = Vec.erase (items s) from_index.
Proof.
  unfold reorder_items, reorder_refused.
  destruct ((from_index <? 0) || (from_index >=? Vec.size (items s)) || (to_index <? 0)
            || (to_index >=? Vec.size (items s)) || (from_index =? to_index)) eqn:G.
  - repeat split; reflexivity.
  - repeat (apply orb_false_elim in G; destruct G as [G ?]).
    assert (0 <= from_index < Vec.size (items s)) as Hfrom by lia.
    destruct (at_in_range _ _ Hfrom) as [item Hitem]. rewrite Hitem.
    rewrite save_to_file_items. cbn [items set_items].
    pose proof (erase_length _ _ _ Hitem) as Hlen.
    assert (0 <= to_index <= Vec.size (Vec.erase (items s) from_index)) as Hto
      by (unfold Vec.size in *; lia).
    split; [|split].
    + rewrite insert_perm. symmetry. now apply erase_perm.
    + rewrite insert_length. exact Hlen.
    + exists item. split; [reflexivity|]. split.
      * now apply at_insert.
      * now apply erase_insert.
Qed.

(** ** Display order *)

Lemma indices_where_spec (p : TodoItem -> bool) (v : list TodoItem) (i k : Z) :
  In k (indices_where p v i)
  <-> exists item, Vec.at_ v (k - i) = Some item /\ p item = true.
Proof.
  revert i. induction v as [|x v IH]; intros i; cbn [indices_where].
  - split; [intros [] | intros (item & H & _)].
    unfold Vec.at_ in H. destruct (k - i <? 0); [discriminate|].
    destruct (Z.to_nat (k - i)); discriminate.
  - assert (In k (indices_where p v (i + 1))
            <-> exists item, Vec.at_ (x :: v) (k - i) = Some item /\ p item = true
                             /\ k <> i) as Htail.
    { rewrite IH. unfold Vec.at_.
      split; intros (item & H & Hp).
      - destruct (k - (i + 1) <? 0) eqn:E; [discriminate|].
        exists item. destruct (k - i <? 0) eqn:E'; [lia|].
        replace (Z.to_nat (k - i)) with (S (Z.to_nat (k - (i + 1)))) by lia.
        repeat split; [exact H | exact Hp | lia].
      - destruct Hp as [Hp Hne]. destruct (k - i <? 0) eqn:E; [discriminate|].
        exists item. destruct (k - (i + 1) <? 0) eqn:E'; [lia|].
        replace (Z.to_nat (k - i)) with (S (Z.to_nat (k - (i + 1)))) in H by lia.
        split; assumption. }
    assert (k = i -> Vec.at_ (x :: v) (k - i) = Some x) as Hhead.
    { intros ->. unfold Vec.at_. now rewrite Z.sub_diag. }
    destruct (p x) eqn:Hx; cbn [In]; rewrite Htail; split.
    + intros [<- | (item & H & Hp & _)]; [exists x | exists item]; auto.
    + intros (item & H & Hp). destruct (Z.eq_dec i k) as [Heq | Hne]; [now left|].
      right. exists item. repeat split; auto.
    + intros (item & H & Hp & _). now exists item.
    + intros (item & H & Hp). exists item. repeat split; auto.
      intros ->. rewrite Hhead in H by reflexivity. congruence.
Qed.

Lemma indices_where_lower (p : TodoItem -> bool) (v : list TodoItem) (i : Z) :
  Forall (fun k => i <= k) (indices_where p v i).
Proof.
  revert i. induction v as [|x v IH]; intros i; cbn [indices_where]; [constructor|].
  assert (Forall (fun k => i <= k) (indices_where p v (i + 1))) as Ht.
  { eapply Forall_impl; [|apply IH]. cbn. intros; lia. }
  destruct (p x); [constructor; [lia | exact Ht] | exact Ht].
Qed.

Lemma indices_where_sorted (p : TodoItem -> bool) (v : list TodoItem) (i : Z) :
  StronglySorted Z.lt (indices_where p v i).
Proof.
  revert i. induction v as [|x v IH]; intros i; cbn [indices_where]; [constructor|].
  destruct (p x); [|apply IH].
  constructor; [apply IH|].
  eapply Forall_impl; [|apply (indices_where_lower p v (i + 1))]. cbn. intros; lia.
Qed.

Lemma indices_where_partition (v : list TodoItem) (i : Z) :
  Permutation
    (indices_where (fun item => negb (completed item)) v i ++ indices_where completed v i)
    (map (fun k => i + Z.of_nat k) (seq 0 (List.length v))).
Proof.
  revert i. induction v as [|x v IH]; intros i; [constructor|].
  cbn [indices_where List.length seq map].
  rewrite <- seq_shift, map_map.
  replace (i + Z.of_nat 0) with i by lia.
  assert (map (fun k => i + Z.of_nat (S k)) (seq 0 (List.length v))
          = map (fun k => (i + 1) + Z.of_nat k) (seq 0 (List.length v))) as ->
    by (apply map_ext; intros; lia).
  destruct (completed x); cbn [negb].
  - rewrite <- Permutation_middle. constructor. apply IH.
  - cbn [app]. constructor. apply IH.
Qed.

Lemma get_sorted_indices_perm (s : ClearApp) :
  Permutation (get_sorted_indices s) (positions (List.length (items s))).
Proof.
  unfold get_sorted_indices, positions.
  rewrite indices_where_partition.
  erewrite map_ext; [reflexivity|]. intros; cbn; lia.
Qed.

Section UpdateFacts.
Context {A : Type}.

Lemma update_at_same (v v' : list A) (i : Z) (f : A -> A) (x : A) :
  Vec.at_ v i = Some x -> Vec.update v i f = Some v' -> Vec.at_ v' i = Some (f x).
Proof.
  intros Hx. unfold Vec.update. rewrite Hx. intros [= <-].
  pose proof (at_some_range _ _ _ Hx) as Hr. unfold Vec.size in Hr.
  unfold Vec.at_. destruct (i <? 0) eqn:E; [lia|].
  rewrite nth_error_app2; rewrite firstn_length_le by lia; [|lia].
  now rewrite Nat.sub_diag.
Qed.

Lemma update_at_other (v v' : list A) (i k : Z) (f : A -> A) :
  k <> i -> Vec.update v i f = Some v' -> Vec.at_ v' k = Vec.at_ v k.
Proof.
  intros Hk. unfold Vec.update. destruct (Vec.at_ v i) as [x|] eqn:Hx; [|discriminate].
  intros [= <-]. pose proof (at_some_range _ _ _ Hx) as Hr. unfold Vec.size in Hr.
  pose proof (at_split v i x Hx) as Hs.
  unfold Vec.at_. destruct (k <? 0) eqn:E; [reflexivity|].
  set (n := Z.to_nat i) in *. set (m := Z.to_nat k).
  assert (m <> n) as Hmn by (unfold m, n; lia).
  assert (List.length (firstn n v) = n) as Hl by (apply firstn_length_le; unfold n; lia).
  transitivity (nth_error (firstn n v ++ x :: skipn (S n) v) m); [|now rewrite <- Hs].
  destruct (Nat.lt_ge_cases m n) as [Hlt | Hge].
  - rewrite !nth_error_app1 by lia. reflexivity.
  - rewrite !nth_error_app2 by lia. rewrite Hl.
    destruct (m - n)%nat as [|d] eqn:Ed; [lia|]. reflexivity.
Qed.

Lemma update_map {B : Type} (g : A -> B) (v v' : list A) (i : Z) (f : A -> A) :
  (forall x, g (f x) = g x) -> Vec.update v i f = Some v' -> map g v' = map g v.
Proof.
  intros Hg. unfold Vec.update. destruct (Vec.at_ v i) as [x|] eqn:Hx; [|discriminate].
  intros [= <-]. pose proof (at_split v i x Hx) as Hs.
  transitivity (map g (firstn (Z.to_nat i) v ++ x :: skipn (S (Z.to_nat i)) v));
    [|now rewrite <- Hs].
  rewrite !map_app. cbn [map]. now rewrite Hg.
Qed.

End UpdateFacts.

Lemma draw_item_view (index y : Z) (s s0 : ClearApp) :
  same_view s s0 -> same_view s (draw_item index y s0).
Proof.
  unfold draw_item.
  destruct ((index <? 0) || (index >=? Vec.size (items s0))); [trivial|].
  destruct (Vec.update _ _ _); trivial.
Qed.

Lemma draw_loop_calls (rest : list Z) (visual_pos total : Z) (s s0 : ClearApp) :
  same_view s s0 ->
  snd (draw_loop rest visual_pos (visual_pos * item_height s) total s0)
  = flat_map (draw_call s total)
      (combine (map (fun k => visual_pos + Z.of_nat k) (seq 0 (List.length rest))) rest).
Proof.
  revert visual_pos s0.
  induction rest as [|index rest IH]; intros visual_pos s0 Hv; [reflexivity|].
  cbn [List.length seq map combine flat_map].
  replace (visual_pos + Z.of_nat 0) with visual_pos by lia.
  rewrite <- seq_shift, map_map.
  assert (map (fun k => visual_pos + Z.of_nat (S k)) (seq 0 (List.length rest))
          = map (fun k => (visual_pos + 1) + Z.of_nat k) (seq 0 (List.length rest))) as ->
    by (apply map_ext; intros; lia).
  cbn [draw_loop].
  pose proof Hv as (Hscroll & Hheight & Hpull & Hoffset & Hwin & Hedit).
  rewrite Hscroll, Hheight, Hpull, Hoffset, Hwin, Hedit.
  unfold draw_call at 1, on_screen, slot_y.
  set (y := visual_pos * item_height s - scroll_offset s).
  set (item_y := if is_pulling_down s && (pull_down_offset s >? 0)
                 then y + pull_down_offset s else y).
  assert (visual_pos * item_height s + item_height s = (visual_pos + 1) * item_height s)
    as Hnext by lia.
  destruct ((item_y + item_height s >? 0) && (item_y <? win_h s)).
  - pose proof (draw_item_view index item_y s s0 Hv) as Hv'.
    destruct Hv' as (_ & Hheight' & _). rewrite Hheight', Hnext.
    rewrite <- (IH (visual_pos + 1) (draw_item index item_y s0))
      by (now apply draw_item_view).
    destruct (draw_loop rest _ _ total _) as [s' calls]. reflexivity.
  - rewrite Hheight, Hnext. rewrite <- (IH (visual_pos + 1) s0 Hv).
    destruct (draw_loop rest _ _ total _) as [s' calls]. reflexivity.
Qed.

Lemma draw_calls (s : ClearApp) :
  snd (draw s)
  = flat_map (draw_call s (Vec.size (get_sorted_indices s)))
      (combine (positions (List.length (get_sorted_indices s))) (get_sorted_indices s)).
Proof.
  unfold draw.
  pose proof (draw_loop_calls (get_sorted_indices s) 0 (Vec.size (get_sorted_indices s)) s s
                ltac:(repeat split)) as H.
  cbn [Z.mul] in H.
  destruct (draw_loop _ _ _ _ _) as [s' calls]. cbn [snd] in *.
  rewrite H. reflexivity.
Qed.

(** C5: [get_sorted_indices] is a permutation of the positions [0..n-1]
    made of the positions of the incomplete items in stored order followed
    by those of the completed items in stored order; [draw] paints the
    item in slot [k] of that order at slot [k] of the window (when the slot
    is on screen); and [toggle_complete] changes one flag and moves
    nothing in the stored list. *)
Theorem completed_items_sorted_for_display_only (s : ClearApp) (index : Z) :
  (exists incomplete complete,
      get_sorted_indices s = incomplete ++ complete
      /\ StronglySorted Z.lt incomplete
      /\ StronglySorted Z.lt complete
      /\ (forall k, In k incomplete
                    <-> exists item, Vec.at_ (items s) k = Some item
                                     /\ completed item = false)
      /\ (forall k, In k complete
                    <-> exists item, Vec.at_ (items s) k = Some item
                                     /\ completed item = true))
  /\ Permutation (get_sorted_indices s) (positions (List.length (items s)))
  /\ snd (draw s)
     = flat_map (draw_call s (Vec.size (get_sorted_indices s)))
         (combine (positions (List.length (get_sorted_indices s))) (get_sorted_indices s))
  /\ map text (items (toggle_complete index s)) = map text (items s)
  /\ (forall k, k <> index ->
                Vec.at_ (items (toggle_complete index s)) k = Vec.at_ (items s) k)
  /\ (forall item, Vec.at_ (items s) index = Some item ->
                   Vec.at_ (items (toggle_complete index s)) index
                   = Some (set_completed (negb (completed item)) item)).
Proof.
  split; [|split; [|split]].
  - exists (indices_where (fun item => negb (completed item)) (items s) 0),
      (indices_where completed (items s) 0).
    split; [reflexivity|]. split; [apply indices_where_sorted|].
    split; [apply indices_where_sorted|]. split; intros k.
    + rewrite indices_where_spec, Z.sub_0_r.
      split; intros (item & H & Hc); exists item; split; auto.
      * now apply negb_true_iff.
      * now apply negb_true_iff.
    + now rewrite indices_where_spec, Z.sub_0_r.
  - apply get_sorted_indices_perm.
  - apply draw_calls.
  - unfold toggle_complete.
    destruct ((index >=? 0) && (index <? Vec.size (items s))) eqn:R.
    + apply andb_prop in R. destruct R as [R0 R1].
      destruct (update_some (items s) index
                  (fun item => set_completed (negb (completed item)) item)
                  ltac:(lia)) as (x & Hx & Hu).
      rewrite Hu, save_to_file_items. cbn [items set_items].
      split; [|split].
      * eapply update_map; [|exact Hu]. reflexivity.
      * intros k Hk. now apply (update_at_other _ _ _ _ _ Hk Hu).
      * intros item Hitem. rewrite Hitem in Hx. inversion Hx; subst x.
        now apply (update_at_same _ _ _ _ _ Hitem Hu).
    + split; [reflexivity|]. split; [reflexivity|].
      intros item Hitem. apply at_some_range in Hitem. lia.
Qed.

(** ** Editing and deleting *)

(** When nothing else is being edited, [start_editing] does not call
    [finish_editing]: whatever stands for it gives the same result. *)
Lemma start_editing_with_idle (f g : ClearApp -> option ClearApp) (index : Z) (s : ClearApp) :
  editing_index s < 0 \/ editing_index s = index ->
  start_editing_with f index s = start_editing_with g index s.
Proof.
  intros H. unfold start_editing_with.
  destruct ((index <? 0) || (index >=? Vec.size (items s))); [reflexivity|].
  assert ((editing_index s >=? 0) && negb (editing_index s =? index) = false) as ->.
  { destruct H as [H | H].
    - apply andb_false_intro1. lia.
    - apply andb_false_intro2. apply negb_false_iff. lia. }
  reflexivity.
Qed.

Lemma start_editing_refill (f : ClearApp -> option ClearApp) (s : ClearApp) :
  items s = [TodoItem_new ""] ->
  editing_index s < 0 \/ editing_index s = 0 ->
  exists s', start_editing_with f 0 s = Some s' /\ refilled s'
             /\ disk s' = disk s /\ error_display s' = error_display s.
Proof.
  intros Hi He. rewrite (start_editing_with_idle f (fun s => Some s) 0 s He).
  unfold start_editing_with, Vec.at_. rewrite Hi. cbn.
  destruct ((editing_index s >=? 0) && negb (editing_index s =? 0));
    rewrite Hi; eexists; (split; [reflexivity|]); repeat split; cbn; assumption.
Qed.

Lemma clamp_scroll_offset_items (s : ClearApp) : items (clamp_scroll_offset s) = items s.
Proof.
  unfold clamp_scroll_offset.
  destruct (scroll_offset s <? 0); [reflexivity|].
  destruct (scroll_offset s >? get_max_scroll_offset s); reflexivity.
Qed.

Lemma clamp_scroll_offset_editing_index (s : ClearApp) :
  editing_index (clamp_scroll_offset s) = editing_index s.
Proof.
  unfold clamp_scroll_offset.
  destruct (scroll_offset s <? 0); [reflexivity|].
  destruct (scroll_offset s >? get_max_scroll_offset s); reflexivity.
Qed.

Lemma refilled_save (s : ClearApp) : refilled s -> refilled (save_to_file s).
Proof.
  unfold refilled. intros (Hi & He & Ht & Hw). unfold save_to_file.
  destruct (ofstream_open _); [destruct (ofstream_close _ _) as [? []]|];
    repeat split; assumption.
Qed.

Lemma refilled_nonempty (s : ClearApp) : refilled s -> items s <> [].
Proof. intros (Hi & _). rewrite Hi. discriminate. Qed.

(** [finish_editing] always returns, and an emptied list is refilled. *)
Lemma finish_editing_total (s : ClearApp) :
  exists s', finish_editing s = Some s'
             /\ (items s <> [] -> items s' <> [])
             /\ (forall item,
                    items s = [item] -> editing_index s = 0 ->
                    (if visible (input_widget s) then value (input_widget s)
                     else editing_text s) = ""%string ->
                    refilled s').
Proof.
  unfold finish_editing, finish_editing_with.
  destruct ((editing_index s >=? 0) && (editing_index s <? Vec.size (items s))) eqn:R.
  2:{ exists s. split; [reflexivity|]. split; [trivial|].
      intros item Hi He _. rewrite Hi, He in R. discriminate. }
  apply andb_prop in R. destruct R as [R0 R1].
  set (s1 := if visible (input_widget s)
             then set_editing_text (value (input_widget s)) s else s).
  assert (items s1 = items s /\ editing_index s1 = editing_index s
          /\ editing_text s1 = if visible (input_widget s) then value (input_widget s)
                               else editing_text s) as (Hi1 & He1 & Ht1)
    by (unfold s1; destruct (visible (input_widget s)); repeat split).
  cbn [editing_index editing_text items set_input_widget set_items].
  rewrite He1, Hi1, Ht1.
  set (t := if visible (input_widget s) then value (input_widget s) else editing_text s).
  destruct (Str.empty t) eqn:Et.
  - destruct (Vec.erase (items s) (editing_index s)) as [|x rest] eqn:Ee.
    + destruct (start_editing_refill (fun _ => None)
                  (set_editing_text ""
                     (set_editing_index (-1)
                        (set_items ([] ++ [TodoItem_new ""])
                           (set_items [] (set_input_widget (hide (input_widget s1)) s1))))))
        as (s' & Hs' & Hr & _); [reflexivity | left; cbn; lia |].
      exists s'. split; [exact Hs'|]. split; [intros _; now apply refilled_nonempty|].
      intros _ _ _ _. exact Hr.
    + eexists. split; [reflexivity|]. cbn [items set_items set_editing_index set_editing_text].
      split; [intros _; discriminate|].
      intros item Hi He _. rewrite Hi, He in Ee. discriminate.
  - destruct (update_some (items s) (editing_index s) (set_text t) ltac:(lia))
      as (x & Hx & Hu).
    rewrite Hu. eexists. split; [reflexivity|]. rewrite save_to_file_items.
    cbn [items set_items set_editing_index set_editing_text].
    split; [intros _; now destruct (firstn _ _)|].
    intros item _ _ Ht. fold t in Ht. rewrite Ht in Et. discriminate.
Qed.

Lemma start_editing_total_at (index : Z) (s : ClearApp) :
  editing_index s < 0 \/ editing_index s = index ->
  exists s', start_editing index s = Some s' /\ items s' = items s.
Proof.
  intros He. unfold start_editing.
  rewrite (start_editing_with_idle _ (fun s => Some s) index s He).
  unfold start_editing_with.
  destruct ((index <? 0) || (index >=? Vec.size (items s))) eqn:R; [now exists s|].
  apply orb_false_elim in R. destruct R as [R0 R1].
  destruct (at_in_range (items s) index ltac:(lia)) as [item Hitem].
  destruct ((editing_index s >=? 0) && negb (editing_index s =? index));
    rewrite Hitem; eexists; split; reflexivity.
Qed.

(** [delete_item] always returns, and an emptied list is refilled. *)
Lemma delete_item_total (index : Z) (s : ClearApp) :
  exists s', delete_item index s = Some s'
             /\ (items s <> [] -> items s' <> [])
             /\ (forall item, items s = [item] -> index = 0 -> refilled s').
Proof.
  unfold delete_item.
  destruct ((index >=? 0) && (index <? Vec.size (items s))) eqn:R.
  2:{ exists s. split; [reflexivity|]. split; [trivial|].
      intros item Hi ->. rewrite Hi in R. discriminate. }
  cbv zeta.
  set (s1 := set_items (Vec.erase (items s) index) s).
  set (s2 := if selected_index s1 >=? Vec.size (items s1) then set_selected_index (-1) s1 else s1).
  assert (items s2 = Vec.erase (items s) index) as Hi2
    by (unfold s2; destruct (selected_index s1 >=? Vec.size (items s1)); reflexivity).
  set (s3 := set_items (map (set_swipe_offset 0) (items s2)) s2).
  set (s4 := clamp_scroll_offset s3).
  assert (items s4 = map (set_swipe_offset 0) (Vec.erase (items s) index)) as Hi4
    by (unfold s4; rewrite clamp_scroll_offset_items; unfold s3; cbn [items set_items];
        now rewrite Hi2).
  destruct (items s4) as [|x rest] eqn:E4.
  - destruct (start_editing_refill finish_editing
                (set_scroll_offset 0
                   (set_editing_text ""
                      (set_editing_index 0 (set_items ([] ++ [TodoItem_new ""]) s4)))))
      as (s' & Hs' & Hr & _); [reflexivity | right; reflexivity |].
    unfold start_editing. rewrite Hs'.
    exists (save_to_file s'). split; [reflexivity|].
    split; intros; [apply refilled_nonempty|]; now apply refilled_save.
  - exists (save_to_file s4). split; [reflexivity|]. rewrite save_to_file_items, E4.
    split; [intros _; discriminate|].
    intros item Hi ->. rewrite Hi in Hi4. discriminate.
Qed.

(** [FL_KEYBOARD] always returns, and an emptied list is refilled. *)
Lemma handle_keyboard_total (fl : Fl) (s : ClearApp) :
  exists s', handle FL_KEYBOARD fl s = Some s'
             /\ (items s <> [] -> items s' <> [])
             /\ (forall item,
                    items s = [item] -> editing_index s = 0 ->
                    input_widget s = mkFl_Input true "" ->
                    event_key fl = FL_Escape ->
                    refilled s').
Proof.
  cbn [handle]. unfold handle_keyboard.
  destruct ((editing_index s >=? 0) && visible (input_widget s)) eqn:R.
  - destruct (event_key fl =? FL_Escape) eqn:K.
    2:{ exists s. split; [reflexivity|]. split; [trivial|]. intros; lia. }
    destruct (Str.empty (value (input_widget s))
              && (editing_index s <? Vec.size (items s))) eqn:C.
    + cbv zeta. cbn [items set_items].
      destruct (Vec.erase (items s) (editing_index s)) as [|x rest] eqn:Ee.
      * destruct (start_editing_refill finish_editing
                    (set_editing_text ""
                       (set_editing_index 0
                          (set_items ([] ++ [TodoItem_new ""]) (set_items [] s)))))
          as (s' & Hs' & Hr & _); [reflexivity | right; reflexivity |].
        unfold start_editing. rewrite Hs'. exists s'. split; [reflexivity|].
        split; intros; [now apply refilled_nonempty | exact Hr].
      * eexists. split; [reflexivity|]. rewrite save_to_file_items.
        cbn [items set_items set_editing_text set_editing_index set_input_widget].
        split; [intros _; discriminate|].
        intros item Hi He _ _. rewrite Hi, He in Ee. discriminate.
    + eexists. split; [reflexivity|]. rewrite save_to_file_items.
      cbn [items set_items set_editing_text set_editing_index set_input_widget].
      split; [trivial|].
      intros item Hi He Hw _. rewrite Hi, He, Hw in C. discriminate.
  - destruct ((event_key fl =? FL_Delete) && (selected_index s >=? 0)) eqn:D.
    + destruct (delete_item_total (selected_index s) s) as (s' & Hs' & Hn & _).
      rewrite Hs'. eexists. split; [reflexivity|]. cbn [items set_selected_index].
      split; [exact Hn|].
      intros item _ He Hw _. rewrite He, Hw in R. discriminate.
    + exists s. split; [reflexivity|]. split; [trivial|].
      intros item _ He Hw _. rewrite He, Hw in R. discriminate.
Qed.

(** C9: deleting or finishing an edit never leaves the list empty.  Each
    of [delete_item], [finish_editing] and [FL_KEYBOARD] returns a state
    with a non-empty list when it starts from one; and when [delete_item]
    removes the only item, or [finish_editing] or Escape removes the only
    item because its edited text is empty, the list afterwards holds one
    new empty item, and that item is being edited. *)
Theorem list_never_left_empty (s : ClearApp) :
  items s <> [] ->
  (forall index, exists s', delete_item index s = Some s' /\ items s' <> [])
  /\ (exists s', finish_editing s = Some s' /\ items s' <> [])
  /\ (forall fl, exists s', handle FL_KEYBOARD fl s = Some s' /\ items s' <> [])
  /\ (forall item,
         items s = [item] ->
         (exists s', delete_item 0 s = Some s' /\ refilled s')
         /\ (editing_index s = 0 ->
             (if visible (input_widget s) then value (input_widget s)
              else editing_text s) = ""%string ->
             exists s', finish_editing s = Some s' /\ refilled s')
         /\ (editing_index s = 0 ->
             input_widget s = mkFl_Input true "" ->
             forall fl, event_key fl = FL_Escape ->
                        exists s', handle FL_KEYBOARD fl s = Some s' /\ refilled s')).
Proof.
  intros Hne. split; [|split; [|split]].
  - intros index. destruct (delete_item_total index s) as (s' & Hs' & Hn & _).
    exists s'. auto.
  - destruct (finish_editing_total s) as (s' & Hs' & Hn & _). exists s'. auto.
  - intros fl. destruct (handle_keyboard_total fl s) as (s' & Hs' & Hn & _).
    exists s'. auto.
  - intros item Hi. split; [|split].
    + destruct (delete_item_total 0 s) as (s' & Hs' & _ & Hr). exists s'. eauto.
    + intros He Ht. destruct (finish_editing_total s) as (s' & Hs' & _ & Hr).
      exists s'. eauto.
    + intros He Hw fl Hk. destruct (handle_keyboard_total fl s) as (s' & Hs' & _ & Hr).
      exists s'. eauto.
Qed.

Lemma list_never_left_empty_witness :
  (exists s', delete_item 0 last_item_window = Some s' /\ refilled s')
  /\ (exists s', finish_editing last_item_window = Some s' /\ refilled s')
  /\ (exists s', handle FL_KEYBOARD (mkFl 0 0 0 0 0 FL_Escape) last_item_window = Some s'
                 /\ refilled s').
Proof.
  destruct (list_never_left_empty last_item_window ltac:(discriminate))
    as (_ & _ & _ & Hlast).
  destruct (Hlast (TodoItem_new "Buy milk") eq_refl) as (Hdel & Hfin & Hesc).
  split; [exact Hdel|]. split.
  - apply Hfin; reflexivity.
  - apply Hesc; reflexivity.
Defined.

(** ** The error display and its timer *)

Lemma Callback_eqb_eq (a b : Callback) : Callback_eqb a b = true <-> a = b.
Proof. destruct a, b; cbn; split; congruence. Qed.

Lemma Callback_eqb_refl (a : Callback) : Callback_eqb a a = true.
Proof. now destruct a. Qed.

Lemma filter_none {A : Type} (p : A -> bool) (l : list A) :
  filter p (filter (fun x => negb (p x)) l) = [].
Proof.
  induction l as [|x l IH]; [reflexivity|]. cbn [filter].
  destruct (p x) eqn:E; cbn [negb filter]; [exact IH | now rewrite E].
Qed.

Lemma filter_other (cb cb' : Callback) (l : list (Callback * Q)) :
  cb <> cb' ->
  filter (fun e => Callback_eqb (fst e) cb)
    (filter (fun e => negb (Callback_eqb (fst e) cb')) l)
  = filter (fun e => Callback_eqb (fst e) cb) l.
Proof.
  intros Hne. induction l as [|x l IH]; [reflexivity|]. cbn [filter].
  destruct (Callback_eqb (fst x) cb') eqn:E'; cbn [negb filter].
  - apply Callback_eqb_eq in E'.
    destruct (Callback_eqb (fst x) cb) eqn:E; [|exact IH].
    apply Callback_eqb_eq in E. congruence.
  - now rewrite IH.
Qed.

Lemma pending_show_error (msg : string) (s : ClearApp) :
  pending hide_error_cb (show_error msg s) = [(hide_error_cb, 3.0%Q)].
Proof.
  unfold pending, show_error, add_timeout, remove_timeout. cbn [timeouts set_timeouts set_error_display].
  rewrite filter_app.
  rewrite (filter_none (fun e => Callback_eqb (fst e) hide_error_cb)). reflexivity.
Qed.

Lemma pending_hide_error (s : ClearApp) : pending hide_error_cb (hide_error s) = [].
Proof.
  unfold pending, hide_error, remove_timeout. cbn [timeouts set_timeouts set_error_display].
  apply (filter_none (fun e => Callback_eqb (fst e) hide_error_cb)).
Qed.

Lemma pending_elapse (cb : Callback) (dt : Q) (l : list (Callback * Q)) :
  filter (fun e => Callback_eqb (fst e) cb) (map (fun e => (fst e, (snd e - dt)%Q)) l)
  = map (fun e => (fst e, (snd e - dt)%Q)) (filter (fun e => Callback_eqb (fst e) cb) l).
Proof.
  induction l as [|x l IH]; [reflexivity|]. cbn [map filter fst].
  destruct (Callback_eqb (fst x) cb); cbn [map]; now rewrite IH.
Qed.

Lemma nth_error_pending (cb : Callback) (t : Q) (n : nat) (s : ClearApp) :
  nth_error (timeouts s) n = Some (cb, t) -> In (cb, t) (pending cb s).
Proof.
  intros H. unfold pending. apply filter_In. split.
  - eapply nth_error_In. exact H.
  - apply Callback_eqb_refl.
Qed.

Lemma fire_hide_error (n : nat) (t : Q) (s hidden : ClearApp) :
  nth_error (timeouts s) n = Some (hide_error_cb, t) ->
  step (Fire n) s = Some hidden ->
  error_display hidden = mkErrorDisplay "" false /\ pending hide_error_cb hidden = [].
Proof.
  intros Hn. cbn [step]. rewrite Hn.
  destruct (Qle_bool t 0); [|discriminate].
  cbn [run_callback]. intros [= <-]. split; [reflexivity|]. apply pending_hide_error.
Qed.

(** C7: [show_error] makes the message visible and leaves exactly one
    pending [hide_error_cb], due in 3.0 seconds, whatever was pending
    before; both failures of [save_to_file] go through it.  While less
    than 3.0 seconds have passed the timer cannot fire and the message
    stays; once they have passed it can, and firing hides and clears the
    message and leaves no timer.  A [show_error] in between replaces the
    message and again leaves one timer due in 3.0 seconds. *)
Theorem error_message_transient (s : ClearApp) (msg msg' : string) (dt : Q) :
  (0 <= dt)%Q ->
  error_display (show_error msg s) = mkErrorDisplay msg true
  /\ pending hide_error_cb (show_error msg s) = [(hide_error_cb, 3.0%Q)]
  /\ (disk_writable (disk s) = false ->
      save_to_file s = show_error ("Failed to save file: " ++ data_file s)%string s)
  /\ (forall q, disk_writable (disk s) = true -> disk_quota (disk s) = Some q ->
                (q < String.length (file_image (items s)))%nat ->
                exists d, save_to_file s
                          = show_error ("Error saving file: " ++ data_file s)%string
                              (set_disk d s))
  /\ exists later,
      step (Elapse dt) (show_error msg s) = Some later
      /\ error_display later = mkErrorDisplay msg true
      /\ pending hide_error_cb later = [(hide_error_cb, (3.0 - dt)%Q)]
      /\ ((dt < 3.0)%Q ->
          forall n t, nth_error (timeouts later) n = Some (hide_error_cb, t) ->
                      step (Fire n) later = None)
      /\ ((3.0 <= dt)%Q ->
          exists n hidden, nth_error (timeouts later) n = Some (hide_error_cb, (3.0 - dt)%Q)
                           /\ step (Fire n) later = Some hidden)
      /\ (forall n t hidden,
             nth_error (timeouts later) n = Some (hide_error_cb, t) ->
             step (Fire n) later = Some hidden ->
             error_display hidden = mkErrorDisplay "" false
             /\ pending hide_error_cb hidden = [])
      /\ error_display (show_error msg' later) = mkErrorDisplay msg' true
      /\ pending hide_error_cb (show_error msg' later) = [(hide_error_cb, 3.0%Q)].
Proof.
  intros Hdt.
  split; [reflexivity|]. split; [apply pending_show_error|]. split; [|split].
  - intros Hw. unfold save_to_file, ofstream_open. now rewrite Hw.
  - intros q Hw Hq Hlen. unfold save_to_file, ofstream_open, ofstream_close.
    rewrite Hw, Hq, write_items_buf. cbn [out_buf append].
    apply Nat.leb_gt in Hlen. rewrite Hlen. eexists. reflexivity.
  - cbn [step]. apply Qle_bool_iff in Hdt. rewrite Hdt.
    eexists. split; [reflexivity|].
    set (later := set_timeouts _ _).
    assert (pending hide_error_cb later = [(hide_error_cb, (3.0 - dt)%Q)]) as Hp.
    { unfold pending, later. cbn [timeouts set_timeouts].
      rewrite pending_elapse.
      change (filter _ (timeouts (show_error msg s)))
        with (pending hide_error_cb (show_error msg s)).
      now rewrite pending_show_error. }
    split; [reflexivity|]. split; [exact Hp|]. split; [|split; [|split; [|split]]].
    + intros Hlt n t Hn. pose proof (nth_error_pending _ _ _ _ Hn) as Hin.
      rewrite Hp in Hin. destruct Hin as [[= <-] | []].
      cbn [step]. rewrite Hn.
      destruct (Qle_bool (3.0 - dt) 0) eqn:E; [|reflexivity].
      apply Qle_bool_iff in E. lra.
    + intros Hge.
      assert (In (hide_error_cb, (3.0 - dt)%Q) (timeouts later)) as Hin.
      { assert (In (hide_error_cb, (3.0 - dt)%Q) (pending hide_error_cb later)) as Hin
          by (rewrite Hp; now left).
        unfold pending in Hin. now apply filter_In in Hin. }
      apply In_nth_error in Hin. destruct Hin as [n Hn].
      exists n. cbn [step]. rewrite Hn.
      assert (Qle_bool (3.0 - dt) 0 = true) as -> by (apply Qle_bool_iff; lra).
      eexists. split; reflexivity.
    + intros n t hidden. apply fire_hide_error.
    + reflexivity.
    + apply pending_show_error.
Qed.

Lemma error_message_transient_witness :
  error_display (save_to_file locked_window)
  = mkErrorDisplay "Failed to save file: /home/user/.config/Clear/todos.txt" true
  /\ pending hide_error_cb (save_to_file locked_window) = [(hide_error_cb, 3.0%Q)].
Proof.
  destruct (error_message_transient locked_window
              "Failed to save file: /home/user/.config/Clear/todos.txt" "" 1%Q
              ltac:(discriminate))
    as (Hshown & Hpending & Hopen & _).
  rewrite (Hopen eq_refl). split; [exact Hshown | exact Hpending].
Defined.

(** ** Gesture modes *)

Ltac split_ifs :=
  repeat match goal with
    | |- context [if ?b then _ else _] => destruct b
    end.

Lemma modes_show_error (msg : string) (s : ClearApp) : modes (show_error msg s) = modes s.
Proof.
  unfold modes, pending, show_error, add_timeout, remove_timeout.
  cbn [timeouts set_timeouts set_error_display is_swiping can_reorder is_pulling_down
       pending_click_index].
  rewrite filter_app, filter_other by discriminate. cbn [filter fst Callback_eqb].
  now rewrite app_nil_r.
Qed.

Lemma modes_save_to_file (s : ClearApp) : modes (save_to_file s) = modes s.
Proof.
  unfold save_to_file.
  destruct (ofstream_open _); [destruct (ofstream_close _ _) as [? []]|];
    rewrite ?modes_show_error; reflexivity.
Qed.

Lemma modes_clamp_scroll_offset (s : ClearApp) : modes (clamp_scroll_offset s) = modes s.
Proof. unfold clamp_scroll_offset. split_ifs; reflexivity. Qed.

Lemma modes_toggle_complete (index : Z) (s : ClearApp) :
  modes (toggle_complete index s) = modes s.
Proof.
  unfold toggle_complete. destruct (_ && _); [|reflexivity].
  destruct (Vec.update _ _ _); [|reflexivity]. now rewrite modes_save_to_file.
Qed.

Lemma modes_reorder_items (from_index to_index : Z) (s : ClearApp) :
  modes (reorder_items from_index to_index s) = modes s.
Proof.
  unfold reorder_items. destruct (_ || _); [reflexivity|].
  destruct (Vec.at_ _ _); [|reflexivity]. now rewrite modes_save_to_file.
Qed.

Lemma modes_start_editing_with (f : ClearApp -> option ClearApp) (index : Z)
  (s s' : ClearApp) :
  (forall a b, f a = Some b -> modes b = modes a) ->
  start_editing_with f index s = Some s' -> modes s' = modes s.
Proof.
  intros Hf. unfold start_editing_with.
  destruct (_ || _); [now intros [= <-]|].
  destruct (_ && _).
  - destruct (f s) as [s1|] eqn:E; [|discriminate].
    destruct (Vec.at_ _ _); [|discriminate]. intros [= <-].
    now rewrite <- (Hf _ _ E).
  - destruct (Vec.at_ _ _); [|discriminate]. now intros [= <-].
Qed.

Lemma modes_finish_editing (s s' : ClearApp) :
  finish_editing s = Some s' -> modes s' = modes s.
Proof.
  unfold finish_editing, finish_editing_with.
  destruct (_ && _); [|now intros [= <-]].
  set (s1 := if visible (input_widget s)
             then set_editing_text (value (input_widget s)) s else s).
  assert (modes s1 = modes s) as H1 by (unfold s1; split_ifs; reflexivity).
  cbv zeta. cbn [items set_items set_input_widget editing_text editing_index].
  destruct (Str.empty (editing_text s1)).
  - destruct (Vec.erase _ _).
    + intros H. apply modes_start_editing_with in H; [|discriminate].
      rewrite H. exact H1.
    + intros [= <-]. exact H1.
  - destruct (Vec.update _ _ _); [|discriminate]. intros [= <-].
    rewrite modes_save_to_file. exact H1.
Qed.

Lemma modes_start_editing (index : Z) (s s' : ClearApp) :
  start_editing index s = Some s' -> modes s' = modes s.
Proof. apply modes_start_editing_with. exact modes_finish_editing. Qed.

Lemma modes_delete_item (index : Z) (s s' : ClearApp) :
  delete_item index s = Some s' -> modes s' = modes s.
Proof.
  unfold delete_item. destruct (_ && _); [|now intros [= <-]].
  cbv zeta.
  set (s1 := set_items (Vec.erase (items s) index) s).
  set (s2 := if selected_index s1 >=? Vec.size (items s1) then set_selected_index (-1) s1 else s1).
  set (s4 := clamp_scroll_offset (set_items (map (set_swipe_offset 0) (items s2)) s2)).
  assert (modes s4 = modes s) as H4
    by (unfold s4; rewrite modes_clamp_scroll_offset; unfold s2; split_ifs; reflexivity).
  destruct (items s4).
  - destruct (start_editing 0 _) as [s5|] eqn:E; [|discriminate]. intros [= <-].
    rewrite modes_save_to_file. apply modes_start_editing in E. now rewrite E.
  - intros [= <-]. now rewrite modes_save_to_file.
Qed.

Lemma modes_add_item (t : string) (s s' : ClearApp) :
  add_item t s = Some s' -> modes s' = modes (set_is_pulling_down false s).
Proof.
  unfold add_item.
  destruct (if editing_index s >=? 0 then finish_editing s else Some s) as [s1|] eqn:E1;
    [|discriminate].
  assert (modes s1 = modes s) as H1.
  { destruct (editing_index s >=? 0); [now apply modes_finish_editing|].
    now inversion E1. }
  destruct (start_editing 0 _) as [s2|] eqn:E2; [|discriminate]. intros [= <-].
  rewrite modes_save_to_file. apply modes_start_editing in E2. rewrite E2.
  clear E1 E2. unfold modes, pending in *. cbn in *. congruence.
Qed.

Lemma modes_release_swipe (s s' : ClearApp) :
  release_swipe s = Some s' -> modes s' = modes s.
Proof.
  unfold release_swipe. destruct (Vec.at_ _ _) as [item|]; [|discriminate].
  destruct (_ <? _).
  - intros H. apply modes_delete_item in H. rewrite H. split_ifs; reflexivity.
  - destruct (_ >? _).
    + destruct (Vec.update _ _ _); [|discriminate]. intros [= <-].
      apply modes_toggle_complete.
    + destruct (Vec.update _ _ _); [|discriminate]. now intros [= <-].
Qed.

Lemma modes_draw_item (index y : Z) (s : ClearApp) : modes (draw_item index y s) = modes s.
Proof.
  unfold draw_item. destruct (_ || _); [reflexivity|].
  destruct (Vec.update _ _ _); reflexivity.
Qed.

Lemma modes_draw_loop (rest : list Z) (visual_pos y total : Z) (s : ClearApp) :
  modes (fst (draw_loop rest visual_pos y total s)) = modes s.
Proof.
  revert visual_pos y s. induction rest as [|index rest IH]; intros visual_pos y s;
    [reflexivity|].
  cbn [draw_loop]. cbv zeta.
  destruct (_ && (_ <? win_h s)).
  - specialize (IH (visual_pos + 1)
                  (y + item_height (draw_item index
                         (if is_pulling_down s && (pull_down_offset s >? 0)
                          then y - scroll_offset s + pull_down_offset s
                          else y - scroll_offset s) s))
                  (draw_item index
                         (if is_pulling_down s && (pull_down_offset s >? 0)
                          then y - scroll_offset s + pull_down_offset s
                          else y - scroll_offset s) s)).
    destruct (draw_loop rest _ _ total _) as [s' calls]. cbn [fst] in *.
    now rewrite IH, modes_draw_item.
  - specialize (IH (visual_pos + 1) (y + item_height s) s).
    destruct (draw_loop rest _ _ total _) as [s' calls]. exact IH.
Qed.

Lemma modes_draw (s : ClearApp) : modes (fst (draw s)) = modes s.
Proof.
  unfold draw. cbv zeta.
  pose proof (modes_draw_loop (get_sorted_indices s) 0 0
                (Vec.size (get_sorted_indices s)) s) as H.
  destruct (draw_loop _ _ _ _ _) as [s' calls]. cbn [fst] in *.
  rewrite <- H. unfold draw_editing.
  destruct (_ && visible (input_widget s')); [|reflexivity].
  cbv zeta. split_ifs; rewrite ?modes_clamp_scroll_offset; reflexivity.
Qed.

Lemma calm_core (s s' : ClearApp) :
  pending_click_index s' = pending_click_index s ->
  can_reorder s' = can_reorder s ->
  pending long_press_timeout_cb s' = pending long_press_timeout_cb s ->
  calm s -> calm s'.
Proof. unfold calm. intros -> -> ->. trivial. Qed.

Lemma calm_modes (s s' : ClearApp) : modes s' = modes s -> calm s -> calm s'.
Proof. unfold modes. intros [= _ H1 _ H2 H3]. now apply calm_core. Qed.

Lemma pending_remove_same (cb : Callback) (s : ClearApp) :
  pending cb (remove_timeout cb s) = [].
Proof.
  unfold pending, remove_timeout. cbn [timeouts set_timeouts].
  apply (filter_none (fun e => Callback_eqb (fst e) cb)).
Qed.

Lemma pending_remove_other (cb cb' : Callback) (s : ClearApp) :
  cb <> cb' -> pending cb (remove_timeout cb' s) = pending cb s.
Proof.
  intros H. unfold pending, remove_timeout. cbn [timeouts set_timeouts].
  now apply filter_other.
Qed.

Lemma pending_add_other (cb cb' : Callback) (t : Q) (s : ClearApp) :
  cb <> cb' -> pending cb (add_timeout t cb' s) = pending cb s.
Proof.
  intros H. unfold pending, add_timeout. cbn [timeouts set_timeouts].
  rewrite filter_app. cbn [filter fst].
  destruct (Callback_eqb cb' cb) eqn:E.
  - apply Callback_eqb_eq in E. congruence.
  - apply app_nil_r.
Qed.

Lemma calm_handle_push (fl : Fl) (s s' : ClearApp) :
  handle_push fl s = Some s' -> calm s -> calm s'.
Proof.
  unfold handle_push. cbv zeta.
  destruct (if (editing_index s >=? 0) && (event_button fl =? FL_LEFT_MOUSE)
            then if negb (get_item_at_y (event_y fl) s =? editing_index s)
                 then finish_editing s else Some s
            else Some s) as [s1|] eqn:E1; [|discriminate].
  assert (modes s1 = modes s) as H1.
  { destruct (_ && _); [|now inversion E1].
    destruct (negb _); [now apply modes_finish_editing | now inversion E1]. }
  remember (set_items (map (set_swipe_offset 0) (items s1)) s1) as s2 eqn:E2.
  assert (modes s2 = modes s) as H2 by (now subst s2).
  clear E1 E2 H1 s1.
  intros H Hcalm. apply (calm_modes s s2 H2) in Hcalm.
  destruct (get_item_at_y (event_y fl) s2 >=? 0).
  - destruct (event_button fl =? FL_LEFT_MOUSE).
    + injection H as <-. unfold calm. cbn. lia.
    + destruct (event_button fl =? FL_RIGHT_MOUSE); [|now injection H as <-].
      destruct (if editing_index s2 >=? 0 then finish_editing s2 else Some s2)
        as [s3|] eqn:E3; [|discriminate].
      assert (modes s3 = modes s2) as H3.
      { destruct (editing_index s2 >=? 0); [now apply modes_finish_editing|].
        now inversion E3. }
      apply modes_delete_item in H.
      apply (calm_modes s2); [|exact Hcalm].
      rewrite H, H3. reflexivity.
  - destruct (_ && (event_button fl =? FL_LEFT_MOUSE)); injection H as <-; exact Hcalm.
Qed.

Lemma calm_drag_selected (dx dy my : Z) (s s' : ClearApp) :
  drag_selected dx dy my s = Some s' -> calm s -> calm s'.
Proof.
  unfold drag_selected. destruct (negb (can_reorder s) && negb (is_swiping s)).
  { now intros [= <-]. }
  cbv zeta.
  set (s1 := if negb (is_swiping s) then set_is_dragging true s else s).
  set (s2 := if negb (is_swiping s1) && (Z.abs dx >? 10) then set_is_swiping true s1 else s1).
  assert (calm s -> calm s2) as H2.
  { apply calm_core; unfold s2, s1; split_ifs; reflexivity. }
  destruct (is_swiping s2).
  - destruct (Vec.update _ _ _); [|discriminate]. intros [= <-]. exact H2.
  - destruct (can_reorder s2 && _); [|now intros [= <-]].
    destruct (_ && negb _); [|now intros [= <-]].
    intros [= <-] Hc. apply H2 in Hc.
    eapply calm_modes; [|exact Hc].
    transitivity (modes (reorder_items (selected_index s2)
                           (get_item_at_y my s2) s2)); [reflexivity|].
    apply modes_reorder_items.
Qed.

Lemma calm_remove_long_press (s : ClearApp) :
  calm s -> calm (remove_timeout long_press_timeout_cb s).
Proof.
  unfold calm. rewrite pending_remove_same. cbn [pending_click_index can_reorder
    remove_timeout set_timeouts]. intros H Hp. split; [now apply H | reflexivity].
Qed.

Lemma calm_handle_drag (fl : Fl) (s s' : ClearApp) :
  handle_drag fl s = Some s' -> calm s -> calm s'.
Proof.
  unfold handle_drag. cbv zeta. destruct (is_pulling_down s).
  { split_ifs; intros [= <-]; trivial. }
  destruct (selected_index s >=? 0); [|now intros [= <-]].
  destruct (negb (can_reorder s) && (_ >? 20) && _).
  { intros H Hc. apply calm_drag_selected in H; [exact H|].
    apply calm_remove_long_press in Hc. exact Hc. }
  destruct (negb (can_reorder s)) eqn:Hr.
  - destruct (_ && (_ >? Z.abs _)).
    + destruct (Vec.update _ _ _); [|discriminate].
      intros H Hc. apply calm_drag_selected in H; [exact H | exact Hc].
    + destruct (_ || _); intros [= <-] Hc; [|exact Hc].
      apply calm_remove_long_press in Hc.
      revert Hc. apply calm_core; try reflexivity.
      cbn [can_reorder set_can_reorder remove_timeout set_timeouts].
      apply negb_true_iff in Hr. now rewrite Hr.
  - apply calm_drag_selected.
Qed.

Lemma handle_release_modes (fl : Fl) (s s' : ClearApp) :
  handle_release fl s = Some s' ->
  is_swiping s' = false /\ can_reorder s' = false /\ is_pulling_down s' = false
  /\ pending long_press_timeout_cb s' = [].
Proof.
  unfold handle_release. cbv zeta.
  remember (remove_timeout long_press_timeout_cb s) as s0 eqn:E0.
  assert (pending long_press_timeout_cb s0 = []) as H0
    by (subst s0; apply pending_remove_same).
  clear E0.
  match goal with
  | |- match ?inner with _ => _ end = _ -> _ =>
      assert (forall s1, inner = Some s1 ->
                         is_pulling_down s1 = false
                         /\ pending long_press_timeout_cb s1 = []) as Hinner
  end.
  { intros s1. destruct (is_pulling_down s0) eqn:Hp.
    - destruct (_ >? _).
      + intros H. apply modes_add_item in H. unfold modes in H.
        injection H as _ _ Hpd _ Hlp. rewrite Hpd, Hlp. split; [reflexivity | exact H0].
      + intros [= <-]. split; [reflexivity | exact H0].
    - assert (forall s2, release_swipe s0 = Some s2 ->
                         is_pulling_down s2 = false
                         /\ pending long_press_timeout_cb s2 = []) as Hswipe.
      { intros s2 H. apply modes_release_swipe in H. unfold modes in H.
        injection H as _ _ Hpd _ Hlp. rewrite Hpd, Hlp. now split. }
      destruct (is_dragging s0 && (selected_index s0 >=? 0) && can_reorder s0).
      { destruct (is_swiping s0); [apply Hswipe|]. intros [= <-]. now split. }
      destruct (selected_index s0 >=? 0); [|intros [= <-]; now split].
      destruct (is_swiping s0); [apply Hswipe|].
      destruct (_ && negb (can_reorder s0)); [|intros [= <-]; now split].
      destruct (event_clicks fl >? 0).
      + remember (if pending_click_index s0 >=? 0
                  then set_pending_click_index (-1) (remove_timeout click_timeout_cb s0)
                  else s0) as sa eqn:Ea.
        assert (is_pulling_down sa = false /\ pending long_press_timeout_cb sa = []) as [Ha Hb].
        { subst sa. destruct (pending_click_index s0 >=? 0); [|now split].
          split; [exact Hp|].
          transitivity (pending long_press_timeout_cb (remove_timeout click_timeout_cb s0));
            [reflexivity|].
          rewrite pending_remove_other by discriminate. exact H0. }
        intros [= <-]. destruct (editing_index sa <? 0); [|now split].
        pose proof (modes_toggle_complete (selected_index sa) sa) as H.
        unfold modes in H. injection H as _ _ Hpd _ Hlp. rewrite Hpd, Hlp. now split.
      + intros [= <-]. split.
        * destruct (pending_click_index s0 >=? 0); exact Hp.
        * match goal with
          | |- pending _ (add_timeout ?t ?cb (set_pending_click_index ?i ?x)) = _ =>
              transitivity (pending long_press_timeout_cb (add_timeout t cb x));
              [reflexivity|]
          end.
          rewrite pending_add_other by discriminate.
          destruct (pending_click_index s0 >=? 0); [|exact H0].
          rewrite pending_remove_other by discriminate. exact H0. }
  destruct (if is_pulling_down s0 then _ else _) as [s1|]; [|discriminate].
  destruct (Hinner s1 eq_refl) as [Hpd Hlp].
  intros [= <-]. repeat split; assumption.
Qed.

Lemma calm_handle_release (fl : Fl) (s s' : ClearApp) :
  handle_release fl s = Some s' -> calm s'.
Proof.
  intros H. apply handle_release_modes in H. destruct H as (_ & Hr & _ & Hl).
  intros _. now split.
Qed.

Lemma modes_handle_mousewheel (fl : Fl) (s s' : ClearApp) :
  handle_mousewheel fl s = Some s' -> modes s' = modes s.
Proof.
  unfold handle_mousewheel. cbv zeta. destruct (negb _); [|now intros [= <-]].
  destruct (is_int _ && is_int _); [|discriminate]. intros [= <-].
  now rewrite modes_clamp_scroll_offset.
Qed.

Lemma modes_handle_keyboard (fl : Fl) (s s' : ClearApp) :
  handle_keyboard fl s = Some s' -> modes s' = modes s.
Proof.
  unfold handle_keyboard. cbv zeta. destruct (_ && visible _).
  - destruct (_ =? FL_Escape); [|now intros [= <-]].
    destruct (_ && (_ <? _)).
    + cbn [items set_items]. destruct (Vec.erase _ _).
      * intros H. now apply modes_start_editing in H.
      * intros [= <-]. now rewrite modes_save_to_file.
    + intros [= <-]. now rewrite modes_save_to_file.
  - destruct (_ && (selected_index s >=? 0)); [|now intros [= <-]].
    destruct (delete_item _ _) as [s1|] eqn:E; [|discriminate].
    intros [= <-]. now apply modes_delete_item in E.
Qed.

Lemma modes_input_callback (fl : Fl) (s s' : ClearApp) :
  input_callback fl s = Some s' -> modes s' = modes s.
Proof.
  unfold input_callback. cbv zeta. destruct (negb _); [now intros [= <-]|].
  destruct (_ || _); [apply modes_finish_editing | now intros [= <-]].
Qed.

Lemma modes_handle_single_click (index : Z) (s s' : ClearApp) :
  handle_single_click index s = Some s' ->
  is_swiping s' = is_swiping s /\ can_reorder s' = can_reorder s
  /\ is_pulling_down s' = is_pulling_down s
  /\ pending long_press_timeout_cb s' = pending long_press_timeout_cb s
  /\ (pending_click_index s' = pending_click_index s \/ pending_click_index s' = -1).
Proof.
  unfold handle_single_click. destruct (_ && (_ =? index)).
  - destruct (if negb _ then _ else _) as [s1|] eqn:E; [|discriminate].
    assert (modes s1 = modes s) as H1.
    { destruct (negb _); [now apply modes_start_editing in E | now inversion E]. }
    intros [= <-]. unfold modes in H1. injection H1 as Ha Hb Hc _ He.
    repeat split; try assumption. now right.
  - intros [= <-]. repeat split. now left.
Qed.

Lemma remove_nth_filter {A : Type} (p : A -> bool) (n : nat) (l : list A) (x : A) :
  nth_error l n = Some x -> p x = false -> filter p (remove_nth n l) = filter p l.
Proof.
  intros H Hp. unfold remove_nth.
  destruct (nth_error_split l n H) as (l1 & l2 & -> & <-).
  rewrite firstn_app, Nat.sub_diag, firstn_all. cbn [firstn]. rewrite app_nil_r.
  rewrite skipn_app, skipn_all2 by lia.
  replace (S (List.length l1) - List.length l1)%nat with 1%nat by lia.
  cbn [skipn app]. rewrite !filter_app. cbn [filter]. now rewrite Hp.
Qed.

Lemma calm_step (a : Action) (s s' : ClearApp) : step a s = Some s' -> calm s -> calm s'.
Proof.
  destruct a as [event fl | new_value fl | n | | dt]; cbn [step].
  - destruct event; cbn [handle].
    + apply calm_handle_push.
    + apply calm_handle_drag.
    + intros H _. now apply calm_handle_release in H.
    + intros H. apply calm_modes. now apply modes_handle_mousewheel in H.
    + intros H. apply calm_modes. now apply modes_handle_keyboard in H.
    + now intros [= <-].
  - destruct (visible _); [|discriminate].
    intros H. apply modes_input_callback in H. now apply calm_modes.
  - destruct (nth_error (timeouts s) n) as [[cb t]|] eqn:En; [|discriminate].
    destruct (Qle_bool t 0); [|discriminate].
    remember (set_timeouts (remove_nth n (timeouts s)) s) as s0 eqn:E0.
    destruct cb; cbn [run_callback].
    + intros [= <-]. subst s0. apply calm_core; try reflexivity.
      transitivity (pending long_press_timeout_cb
                      (set_timeouts (remove_nth n (timeouts s)) s)).
      * unfold hide_error. rewrite pending_remove_other by discriminate. reflexivity.
      * unfold pending. cbn [timeouts set_timeouts].
        now apply (remove_nth_filter _ _ _ _ En).
    + assert (calm s -> calm s0) as H0.
      { apply calm_core; subst s0; try reflexivity.
        unfold pending. cbn [timeouts set_timeouts].
        now apply (remove_nth_filter _ _ _ _ En). }
      destruct (pending_click_index s0 >=? 0); [|intros [= <-]; exact H0].
      intros H Hc. apply H0 in Hc. apply modes_handle_single_click in H.
      destruct H as (_ & Hr & _ & Hl & [Hp | Hp]).
      * revert Hc. now apply calm_core.
      * unfold calm. rewrite Hp. lia.
    + intros [= <-] Hc. unfold calm.
      assert (pending_click_index (enable_reorder s0) = pending_click_index s) as ->
        by (subst s0; unfold enable_reorder; split_ifs; reflexivity).
      intros Hp. destruct (Hc Hp) as [_ Hl].
      apply nth_error_pending in En. rewrite Hl in En. destruct En.
  - intros [= <-]. apply calm_modes, modes_draw.
  - destruct (Qle_bool 0 dt); [|discriminate]. intros [= <-].
    unfold calm, pending. cbn [pending_click_index can_reorder timeouts set_timeouts].
    rewrite pending_elapse. intros H Hp. destruct (H Hp) as [Hr Hl].
    unfold pending in Hl. now rewrite Hl.
Qed.

Lemma calm_reachable (s : ClearApp) : reachable s -> calm s.
Proof.
  induction 1 as [data_dir d y0 x0 | a s s' _ IH Hstep].
  - unfold calm, main_window, ClearApp_new. cbv zeta.
    destruct (load_from_file _) as [loaded s1] eqn:E.
    assert (pending_click_index s1 = -1) as H1.
    { unfold load_from_file in E. destruct (ifstream_open _).
      - cbv zeta in E. destruct (load_loop _ _ _) as [[f v] la].
        destruct (data_dir =? ".")%string; destruct (fail f && negb (eof f));
          injection E as _ <-; reflexivity.
      - destruct (data_dir =? ".")%string; injection E as _ <-; reflexivity. }
    assert (pending_click_index (save_to_file (add_sample_items s1)) = -1) as H2.
    { pose proof (modes_save_to_file (add_sample_items s1)) as H.
      unfold modes in H. injection H as _ _ _ Hp _. rewrite Hp. exact H1. }
    destruct (negb loaded || Vec.empty (items s1)); [rewrite H2 | rewrite H1]; lia.
  - now apply (calm_step a s s').
Qed.

Lemma run_reachable (actions : list Action) (s s' : ClearApp) :
  reachable s -> run actions s = Some s' -> reachable s'.
Proof.
  revert s. induction actions as [|a rest IH]; intros s Hs; cbn [run].
  - now intros [= <-].
  - destruct (step a s) as [s1|] eqn:E; [|discriminate].
    apply IH. now apply (reachable_step a s s1).
Qed.

(** C8, as stated, fails: after [swipe_and_hold] both the swipe and the
    reorder mode are active. *)
Lemma swipe_and_reorder_together :
  exists s, run swipe_and_hold first_window = Some s
            /\ reachable s
            /\ is_swiping s = true /\ can_reorder s = true
            /\ ~ mutually_exclusive s.
Proof.
  destruct (run swipe_and_hold first_window) as [s|] eqn:E; [|vm_compute in E; discriminate].
  exists s. split; [reflexivity|]. split.
  - apply (run_reachable swipe_and_hold first_window s); [constructor | exact E].
  - vm_compute in E. injection E as <-. unfold mutually_exclusive, active_modes.
    cbn. repeat split. lia.
Qed.

(** C8, amended: in every reachable state reorder-drag and a pending
    click are never active together, and handling [FL_RELEASE] always ends
    with swipe, reorder-drag and pull-to-add all inactive, so that at most
    one mode, the pending click, is active then. *)
Theorem gesture_modes_exclusion (s : ClearApp) :
  reachable s ->
  ~ (can_reorder s = true /\ 0 <= pending_click_index s)
  /\ (forall fl s', handle FL_RELEASE fl s = Some s' ->
                    is_swiping s' = false /\ can_reorder s' = false
                    /\ is_pulling_down s' = false /\ mutually_exclusive s').
Proof.
  intros Hr. split.
  - intros [Hc Hp]. destruct (calm_reachable s Hr Hp) as [Hf _]. congruence.
  - intros fl s' H. cbn [handle] in H. apply handle_release_modes in H.
    destruct H as (Hs & Hc & Hp & _). repeat split; try assumption.
    unfold mutually_exclusive, active_modes. rewrite Hs, Hc, Hp.
    destruct (pending_click_index s' >=? 0); cbn; lia.
Qed.

Lemma gesture_modes_exclusion_witness :
  exists s s',
    run swipe_and_hold first_window = Some s
    /\ is_swiping s = true /\ can_reorder s = true
    /\ ~ (can_reorder s = true /\ 0 <= pending_click_index s)
    /\ handle FL_RELEASE (left_button 120 30) s = Some s'
    /\ is_swiping s' = false /\ can_reorder s' = false
    /\ is_pulling_down s' = false /\ mutually_exclusive s'.
Proof.
  destruct (run swipe_and_hold first_window) as [s|] eqn:E; [|vm_compute in E; discriminate].
  assert (reachable s) as Hr
    by (apply (run_reachable swipe_and_hold first_window s); [constructor | exact E]).
  destruct (gesture_modes_exclusion s Hr) as [Hcalm Hrelease].
  destruct (handle FL_RELEASE (left_button 120 30) s) as [s'|] eqn:E';
    [|vm_compute in E; injection E as <-; vm_compute in E'; discriminate].
  exists s, s'. split; [reflexivity|].
  split; [vm_compute in E; injection E as <-; reflexivity|].
  split; [vm_compute in E; injection E as <-; reflexivity|].
  split; [exact Hcalm|]. split; [exact E'|].
  exact (Hrelease (left_button 120 30) s' E').
Defined.

(** ** Persisting after a mutation *)

(** C4 fails in [finish_editing]: finishing the edit of an empty text
    removes the item from the list but not from the file, which still has
    the line of the empty item. *)
Theorem empty_edit_not_persisted :
  exists s, run add_and_leave_empty first_window = Some s
            /\ items s = sample_items
            /\ disk_data (disk s) = Some (file_image (TodoItem_new "" :: sample_items))
            /\ ~ synced s.
Proof.
  destruct (run add_and_leave_empty first_window) as [s|] eqn:E;
    [|vm_compute in E; discriminate].
  exists s. split; [reflexivity|].
  vm_compute in E. injection E as <-. unfold synced.
  split; [reflexivity|]. split; [reflexivity|].
  cbn. discriminate.
Qed.

(** The Escape path removes the item in the same way and does save. *)
Lemma empty_edit_escape_persisted :
  exists s, run add_and_escape_empty first_window = Some s
            /\ items s = sample_items /\ synced s.
Proof.
  destruct (run add_and_escape_empty first_window) as [s|] eqn:E;
    [|vm_compute in E; discriminate].
  exists s. split; [reflexivity|].
  vm_compute in E. injection E as <-. unfold synced.
  split; reflexivity.
Qed.

Lemma save_to_file_synced (s : ClearApp) : reliable (disk s) -> synced (save_to_file s).
Proof.
  intros [Hw Hq]. unfold synced.
  rewrite save_to_file_ok by (split; [exact Hw | now rewrite Hq]).
  reflexivity.
Qed.

Lemma toggle_complete_synced (index : Z) (s : ClearApp) :
  reliable (disk s) -> 0 <= index < Vec.size (items s) -> synced (toggle_complete index s).
Proof.
  intros Hd Hi. unfold toggle_complete.
  assert ((index >=? 0) && (index <? Vec.size (items s)) = true) as -> by lia.
  destruct (update_some (items s) index
              (fun item => set_completed (negb (completed item)) item) Hi) as (x & _ & ->).
  now apply save_to_file_synced.
Qed.

Lemma reorder_items_synced (from_index to_index : Z) (s : ClearApp) :
  reliable (disk s) -> reorder_refused from_index to_index s = false ->
  synced (reorder_items from_index to_index s).
Proof.
  intros Hd Hg. unfold reorder_items. fold (reorder_refused from_index to_index s).
  rewrite Hg. unfold reorder_refused in Hg.
  repeat (apply orb_false_elim in Hg; destruct Hg as [Hg ?]).
  destruct (at_in_range (items s) from_index ltac:(lia)) as [item ->].
  now apply save_to_file_synced.
Qed.

Lemma delete_item_synced (index : Z) (s s' : ClearApp) :
  reliable (disk s) -> 0 <= index < Vec.size (items s) ->
  delete_item index s = Some s' -> synced s'.
Proof.
  intros Hd Hi. unfold delete_item.
  assert ((index >=? 0) && (index <? Vec.size (items s)) = true) as -> by lia.
  cbv zeta.
  set (s1 := set_items (Vec.erase (items s) index) s).
  set (s2 := if selected_index s1 >=? Vec.size (items s1) then set_selected_index (-1) s1 else s1).
  set (s4 := clamp_scroll_offset (set_items (map (set_swipe_offset 0) (items s2)) s2)).
  assert (disk s4 = disk s) as H4.
  { unfold s4, clamp_scroll_offset. split_ifs; unfold s2; split_ifs; reflexivity. }
  destruct (items s4).
  - destruct (start_editing_refill finish_editing
                (set_scroll_offset 0
                   (set_editing_text ""
                      (set_editing_index 0 (set_items ([] ++ [TodoItem_new ""]) s4)))))
      as (s5 & Hs5 & _ & Hdisk & _); [reflexivity | right; reflexivity |].
    unfold start_editing. rewrite Hs5. intros [= <-].
    apply save_to_file_synced. rewrite Hdisk. cbn [disk set_scroll_offset set_editing_text
      set_editing_index set_items]. now rewrite H4.
  - intros [= <-]. apply save_to_file_synced. now rewrite H4.
Qed.

Lemma save_to_file_reliable (s : ClearApp) :
  reliable (disk s) -> reliable (disk (save_to_file s)).
Proof.
  intros [Hw Hq].
  rewrite save_to_file_ok by (split; [exact Hw | now rewrite Hq]).
  split; assumption.
Qed.

Lemma finish_editing_reliable (s s' : ClearApp) :
  finish_editing s = Some s' -> reliable (disk s) -> reliable (disk s').
Proof.
  unfold finish_editing, finish_editing_with.
  destruct (_ && _); [|now intros [= <-]].
  set (s1 := if visible (input_widget s)
             then set_editing_text (value (input_widget s)) s else s).
  assert (disk s1 = disk s) as H1 by (unfold s1; split_ifs; reflexivity).
  cbv zeta. cbn [items set_items set_input_widget editing_text editing_index].
  destruct (Str.empty (editing_text s1)).
  - destruct (Vec.erase _ _).
    + match goal with
      | |- start_editing_with _ 0 ?x = _ -> _ =>
          destruct (start_editing_refill (fun _ => None) x)
            as (s2 & -> & _ & Hd & _); [reflexivity | left; cbn; lia |]
      end.
      intros [= <-]. rewrite Hd. cbn [disk set_editing_text set_editing_index set_items
        set_input_widget]. now rewrite H1.
    + intros [= <-]. cbn [disk set_editing_text set_editing_index set_items
        set_input_widget]. now rewrite H1.
  - destruct (Vec.update _ _ _); [|discriminate]. intros [= <-] Hr.
    apply save_to_file_reliable. cbn [disk set_editing_text set_editing_index set_items
      set_input_widget]. now rewrite H1.
Qed.

Lemma finish_editing_synced (s s' : ClearApp) :
  reliable (disk s) ->
  0 <= editing_index s < Vec.size (items s) ->
  (if visible (input_widget s) then value (input_widget s) else editing_text s)
  <> ""%string ->
  finish_editing s = Some s' -> synced s'.
Proof.
  intros Hd Hi Ht. unfold finish_editing, finish_editing_with.
  assert ((editing_index s >=? 0) && (editing_index s <? Vec.size (items s)) = true) as ->
    by lia.
  set (s1 := if visible (input_widget s)
             then set_editing_text (value (input_widget s)) s else s).
  assert (disk s1 = disk s /\ editing_text s1
          = if visible (input_widget s) then value (input_widget s) else editing_text s)
    as [H1 H2] by (unfold s1; split_ifs; split; reflexivity).
  cbv zeta. cbn [items set_items set_input_widget editing_text editing_index].
  rewrite H2.
  destruct (if visible (input_widget s) then value (input_widget s) else editing_text s)
    as [|c t]; [congruence|]. cbn [Str.empty].
  destruct (Vec.update _ _ _); [|discriminate]. intros [= <-].
  apply save_to_file_synced. cbn [disk set_editing_text set_editing_index set_items
    set_input_widget]. now rewrite H1.
Qed.

Lemma add_item_synced (t : string) (s s' : ClearApp) :
  reliable (disk s) -> add_item t s = Some s' -> synced s'.
Proof.
  intros Hd. unfold add_item.
  destruct (if editing_index s >=? 0 then finish_editing s else Some s) as [s1|] eqn:E1;
    [|discriminate].
  assert (reliable (disk s1)) as H1.
  { destruct (editing_index s >=? 0); [now apply (finish_editing_reliable s)|].
    now injection E1 as <-. }
  match goal with
  | |- match start_editing 0 ?x with _ => _ end = _ -> _ =>
      remember x as s2 eqn:E2;
      assert (disk s2 = disk s1 /\ editing_index s2 = 0) as [H2 H2'] by (now subst s2)
  end.
  unfold start_editing.
  rewrite (start_editing_with_idle _ (fun s => Some s) 0 s2) by (now right).
  unfold start_editing_with.
  destruct (_ || _).
  - intros [= <-]. apply save_to_file_synced. now rewrite H2.
  - destruct (_ && _); (destruct (Vec.at_ _ _); [|discriminate]); intros [= <-];
      apply save_to_file_synced; cbn [disk set_input_widget set_editing_text set_editing_index];
      now rewrite H2.
Qed.

(** * Further properties *)

(** ** Escaping, once more *)

Lemma escape_text_length (t : string) :
  (String.length t <= String.length (escape_text t) <= 2 * String.length t)%nat.
Proof.
  induction t as [|c t IH]; cbn [escape_text String.length]; [lia|].
  rewrite string_length_app.
  destruct (c =? Str.nl)%char; [cbn; lia|].
  destruct (c =? Str.backslash)%char; cbn; lia.
Qed.

(** X1: an escaped text stays on one line, is at most twice as long as the
    text, and determines the text: different texts are written
    differently. *)
Theorem escape_text_one_line_injective (t u : string) :
  Str.count Str.nl (escape_text t) = 0%nat
  /\ (String.length t <= String.length (escape_text t) <= 2 * String.length t)%nat
  /\ (escape_text t = escape_text u <-> t = u).
Proof.
  split; [apply escape_text_no_newline|]. split; [apply escape_text_length|].
  split; [|now intros ->].
  intros H. rewrite <- (unescape_escape t), <- (unescape_escape u). now rewrite H.
Qed.

Lemma unescape_text_length_le (t : string) (n : nat) :
  (String.length t <= n)%nat -> (String.length (unescape_text t) <= String.length t)%nat.
Proof.
  revert t. induction n as [|n IH]; intros t Hn.
  - destruct t; [cbn; lia | cbn in Hn; lia].
  - destruct t as [|c rest]; [cbn; lia|].
    cbn [String.length] in Hn. cbn [unescape_text].
    assert (String.length (unescape_text rest) <= String.length rest)%nat as Hrest
      by (apply IH; lia).
    destruct (c =? Str.backslash)%char; [|cbn [String.length]; lia].
    destruct rest as [|d rest']; [cbn; lia|].
    cbn [String.length] in Hn.
    assert (String.length (unescape_text rest') <= String.length rest')%nat as Hrest'
      by (apply IH; lia).
    destruct (d =? "n")%char; [cbn [String.length]; lia|].
    destruct (d =? Str.backslash)%char; cbn [String.length] in *; lia.
Qed.

(** X2: [unescape_text] accepts any text: it never lengthens it, leaves a
    text without a backslash as it is, and keeps a backslash that does not
    start one of the two escapes (before another character, or at the end
    of the text). *)
Theorem unescape_text_lenient (t : string) :
  (String.length (unescape_text t) <= String.length t)%nat
  /\ (Str.count Str.backslash t = 0%nat -> unescape_text t = t)
  /\ (forall c, c <> "n"%char -> c <> Str.backslash ->
                unescape_text (String Str.backslash (String c t))
                = String Str.backslash (unescape_text (String c t)))
  /\ (Str.count Str.backslash t = 0%nat ->
      unescape_text (t ++ String Str.backslash EmptyString)
      = (t ++ String Str.backslash EmptyString)%string).
Proof.
  split; [now apply (unescape_text_length_le t (String.length t))|].
  assert (forall u, Str.count Str.backslash t = 0%nat ->
                    (u = EmptyString \/ u = String Str.backslash EmptyString) ->
                    unescape_text (t ++ u) = (t ++ u)%string) as Hplain.
  { intros u H Hu. induction t as [|c t IH]; cbn [append].
    - destruct Hu as [-> | ->]; reflexivity.
    - cbn [Str.count] in H. cbn [unescape_text].
      destruct (c =? Str.backslash)%char; [discriminate|].
      now rewrite IH. }
  split; [|split].
  - intros H. specialize (Hplain EmptyString H (or_introl eq_refl)).
    now rewrite string_app_nil_r in Hplain.
  - intros c Hn Hb. apply Ascii.eqb_neq in Hn, Hb.
    cbn [unescape_text]. rewrite Ascii.eqb_refl, Hn, Hb. reflexivity.
  - intros H. apply Hplain; [exact H | now right].
Qed.

(** ** The list operations, one by one *)

Section VecMoreFacts.
Context {A : Type}.

Lemma update_twice (v v' : list A) (i : Z) (f g : A -> A) (x : A) :
  Vec.at_ v i = Some x -> Vec.update v i f = Some v' ->
  Vec.update v' i g
  = Some (firstn (Z.to_nat i) v ++ g (f x) :: skipn (S (Z.to_nat i)) v).
Proof.
  intros Hx Hu. pose proof (update_at_same _ _ _ _ _ Hx Hu) as Hx'.
  unfold Vec.update in *. rewrite Hx in Hu. injection Hu as <-. rewrite Hx'.
  pose proof (at_some_range _ _ _ Hx) as Hr. unfold Vec.size in Hr.
  set (n := Z.to_nat i) in *.
  assert (List.length (firstn n v) = n) as Hl by (apply firstn_length_le; unfold n; lia).
  f_equal. f_equal.
  - rewrite firstn_app, Hl, Nat.sub_diag. cbn [firstn].
    rewrite app_nil_r. rewrite <- Hl at 1. apply firstn_all.
  - f_equal. rewrite skipn_app, Hl.
    rewrite skipn_all2 by lia.
    replace (S n - n)%nat with 1%nat by lia. reflexivity.
Qed.

Lemma insert_erase (v : list A) (i : Z) (x : A) :
  Vec.at_ v i = Some x -> Vec.insert (Vec.erase v i) i x = v.
Proof.
  intros Hx. pose proof (at_some_range _ _ _ Hx) as Hr. unfold Vec.size in Hr.
  pose proof (at_split v i x Hx) as Hs.
  unfold Vec.insert, Vec.erase. set (n := Z.to_nat i) in *.
  assert (List.length (firstn n v) = n) as Hl by (apply firstn_length_le; unfold n; lia).
  rewrite firstn_app, Hl, Nat.sub_diag. cbn [firstn]. rewrite app_nil_r.
  rewrite skipn_app, Hl, Nat.sub_diag. cbn [skipn].
  rewrite skipn_all2 by lia. cbn [app].
  rewrite <- Hl at 1. rewrite firstn_all. symmetry. exact Hs.
Qed.

Lemma erase_map {B : Type} (g : A -> B) (v : list A) (i : Z) :
  map g (Vec.erase v i) = Vec.erase (map g v) i.
Proof. unfold Vec.erase. now rewrite map_app, firstn_map, skipn_map. Qed.

End VecMoreFacts.

Lemma update_length {A : Type} (v v' : list A) (i : Z) (f : A -> A) :
  Vec.update v i f = Some v' -> List.length v' = List.length v.
Proof.
  intros H. rewrite <- (length_map (fun _ => tt) v'), <- (length_map (fun _ => tt) v).
  f_equal. eapply update_map; [|exact H]. reflexivity.
Qed.

(** X3: completing an item twice gives back the list exactly as it was. *)
Theorem toggle_complete_twice (index : Z) (s : ClearApp) :
  items (toggle_complete index (toggle_complete index s)) = items s.
Proof.
  unfold toggle_complete at 2.
  destruct ((index >=? 0) && (index <? Vec.size (items s))) eqn:R.
  - destruct (update_some (items s) index
                (fun item => set_completed (negb (completed item)) item) ltac:(lia))
      as (x & Hx & Hu).
    rewrite Hu. unfold toggle_complete. rewrite save_to_file_items.
    cbn [items set_items].
    pose proof (update_length _ _ _ _ Hu) as Hlen.
    unfold Vec.size in *. rewrite Hlen, R.
    rewrite (update_twice (items s) _ index _
               (fun item => set_completed (negb (completed item)) item) x Hx Hu).
    rewrite save_to_file_items. cbn [items set_items].
    pose proof (at_split (items s) index x Hx) as Hs.
    transitivity (firstn (Z.to_nat index) (items s)
                  ++ x :: skipn (S (Z.to_nat index)) (items s)); [|now rewrite <- Hs].
    destruct x as [t c y o]. cbn. now rewrite negb_involutive.
  - unfold toggle_complete. now rewrite R.
Qed.

(** [save_to_file] touches the file, the error display and the timeout
    queue, and nothing else. *)
Lemma save_to_file_frame (s : ClearApp) :
  exists d e t, save_to_file s = set_timeouts t (set_error_display e (set_disk d s)).
Proof.
  unfold save_to_file, show_error, add_timeout, remove_timeout.
  destruct (ofstream_open _); [destruct (ofstream_close _ _) as [d []]|].
  - now exists d, (mkErrorDisplay ("Error saving file: " ++ data_file s) true),
      (filter (fun e => negb (Callback_eqb (fst e) hide_error_cb)) (timeouts s)
       ++ [(hide_error_cb, 3.0%Q)]).
  - exists d, (error_display s), (timeouts s). now destruct s.
  - now exists (disk s), (mkErrorDisplay ("Failed to save file: " ++ data_file s) true),
      (filter (fun e => negb (Callback_eqb (fst e) hide_error_cb)) (timeouts s)
       ++ [(hide_error_cb, 3.0%Q)]).
Qed.

(** What [start_editing] does when nothing else is being edited. *)
Lemma start_editing_with_result (f : ClearApp -> option ClearApp) (index : Z)
  (s : ClearApp) (item : TodoItem) :
  editing_index s < 0 \/ editing_index s = index ->
  Vec.at_ (items s) index = Some item ->
  start_editing_with f index s
  = Some (s |> set_editing_index index
            |> set_editing_text (text item)
            |> set_input_widget (mkFl_Input true (Str.c_str (text item)))).
Proof.
  intros He Hitem. rewrite (start_editing_with_idle f (fun s => Some s) index s He).
  pose proof (at_some_range _ _ _ Hitem) as Hr.
  unfold start_editing_with.
  assert ((index <? 0) || (index >=? Vec.size (items s)) = false) as -> by lia.
  destruct ((editing_index s >=? 0) && negb (editing_index s =? index));
    rewrite Hitem; reflexivity.
Qed.

Lemma reorder_items_refused (from_index to_index : Z) (s : ClearApp) :
  reorder_refused from_index to_index s = true -> reorder_items from_index to_index s = s.
Proof.
  intros H. unfold reorder_items. fold (reorder_refused from_index to_index s).
  now rewrite H.
Qed.

Lemma reorder_items_moved (from_index to_index : Z) (s : ClearApp) :
  reorder_refused from_index to_index s = false ->
  exists item, Vec.at_ (items s) from_index = Some item
               /\ items (reorder_items from_index to_index s)
                  = Vec.insert (Vec.erase (items s) from_index) to_index item.
Proof.
  intros H. unfold reorder_items. fold (reorder_refused from_index to_index s).
  rewrite H. unfold reorder_refused in H.
  repeat (apply orb_false_elim in H; destruct H as [H ?]).
  destruct (at_in_range (items s) from_index ltac:(lia)) as [item Hitem].
  exists item. rewrite Hitem, save_to_file_items. split; reflexivity.
Qed.

Lemma reorder_refused_sym (a b : Z) (s s' : ClearApp) :
  Vec.size (items s') = Vec.size (items s) ->
  reorder_refused b a s' = reorder_refused a b s.
Proof.
  intros Hsize. unfold reorder_refused. rewrite Hsize, (Z.eqb_sym b a).
  destruct (a <? 0), (a >=? Vec.size (items s)), (b <? 0), (b >=? Vec.size (items s)),
    (a =? b); reflexivity.
Qed.

(** X4: moving an item and moving it back restores the list. *)
Theorem reorder_items_undo (from_index to_index : Z) (s : ClearApp) :
  items (reorder_items to_index from_index (reorder_items from_index to_index s)) = items s.
Proof.
  destruct (reorder_refused from_index to_index s) eqn:G.
  - rewrite (reorder_items_refused from_index to_index s G).
    rewrite reorder_items_refused; [reflexivity|].
    now rewrite (reorder_refused_sym from_index to_index s s).
  - destruct (reorder_items_moved from_index to_index s G) as (item & Hitem & Hmoved).
    pose proof (erase_length _ _ _ Hitem) as Hlen.
    assert (Vec.size (items (reorder_items from_index to_index s)) = Vec.size (items s))
      as Hsize.
    { rewrite Hmoved. unfold Vec.size. rewrite insert_length. lia. }
    pose proof G as G'. unfold reorder_refused in G'.
    repeat (apply orb_false_elim in G'; destruct G' as [G' ?]).
    assert (0 <= to_index <= Vec.size (Vec.erase (items s) from_index)) as Hto
      by (unfold Vec.size in *; lia).
    destruct (reorder_items_moved to_index from_index (reorder_items from_index to_index s))
      as (item' & Hitem' & Hback).
    { now rewrite (reorder_refused_sym from_index to_index s _ Hsize). }
    rewrite Hback. rewrite Hmoved in Hitem' |- *.
    rewrite at_insert in Hitem' by exact Hto. injection Hitem' as <-.
    rewrite erase_insert by exact Hto.
    now apply insert_erase.
Qed.

(** X5: an index outside the list is ignored by every operation that takes
    one: nothing changes, and nothing is saved. *)
Theorem out_of_range_index_ignored (index : Z) (s : ClearApp) :
  ~ (0 <= index < Vec.size (items s)) ->
  delete_item index s = Some s
  /\ toggle_complete index s = s
  /\ start_editing index s = Some s
  /\ handle_single_click index s = Some s
  /\ (forall y, draw_item index y s = s)
  /\ (forall other, reorder_items index other s = s /\ reorder_items other index s = s).
Proof.
  intros H.
  assert ((index >=? 0) && (index <? Vec.size (items s)) = false) as Hin by lia.
  assert ((index <? 0) || (index >=? Vec.size (items s)) = true) as Hout by lia.
  split; [unfold delete_item; now rewrite Hin|].
  split; [unfold toggle_complete; now rewrite Hin|].
  split; [unfold start_editing, start_editing_with; now rewrite Hout|].
  split; [unfold handle_single_click; now rewrite Hin|].
  split; [intros y; unfold draw_item; now rewrite Hout|].
  intros other. split; apply reorder_items_refused; unfold reorder_refused.
  - apply orb_true_iff in Hout. destruct Hout as [-> | ->]; [reflexivity|].
    now rewrite orb_true_r.
  - apply orb_true_iff in Hout. destruct Hout as [-> | ->];
      rewrite ?orb_true_r; reflexivity.
Qed.

Lemma out_of_range_index_ignored_witness :
  delete_item 6 first_window = Some first_window
  /\ toggle_complete (-1) first_window = first_window.
Proof.
  split.
  - apply (out_of_range_index_ignored 6 first_window). cbn. lia.
  - apply (out_of_range_index_ignored (-1) first_window). cbn. lia.
Defined.

Lemma get_max_scroll_offset_nonneg (s : ClearApp) : 0 <= get_max_scroll_offset s.
Proof.
  unfold get_max_scroll_offset. cbv zeta.
  destruct (_ >? 0) eqn:E; lia.
Qed.

Lemma clamp_scroll_offset_range (s : ClearApp) :
  0 <= scroll_offset (clamp_scroll_offset s) <= get_max_scroll_offset s
  /\ get_max_scroll_offset (clamp_scroll_offset s) = get_max_scroll_offset s.
Proof.
  pose proof (get_max_scroll_offset_nonneg s) as Hmax.
  unfold clamp_scroll_offset. cbv zeta.
  destruct (scroll_offset s <? 0) eqn:E1; [cbn; split; [lia | reflexivity]|].
  destruct (scroll_offset s >? get_max_scroll_offset s) eqn:E2;
    cbn; split; try reflexivity; lia.
Qed.

Lemma persisted_reset (v : list TodoItem) :
  map persisted (map (set_swipe_offset 0) v) = map persisted v.
Proof. rewrite map_map. apply map_ext. reflexivity. Qed.

(** The state that [delete_item] returns for an index in the list. *)
Lemma delete_item_result (index : Z) (s : ClearApp) :
  0 <= index < Vec.size (items s) ->
  exists s', delete_item index s = Some s'
             /\ items s' = (if Vec.empty (Vec.erase (items s) index)
                            then [TodoItem_new ""]
                            else map (set_swipe_offset 0) (Vec.erase (items s) index))
             /\ (Vec.empty (Vec.erase (items s) index) = false ->
                 map persisted (items s') = Vec.erase (map persisted (items s)) index)
             /\ selected_index s' < Vec.size (items s')
             /\ 0 <= scroll_offset s' <= get_max_scroll_offset s'.
Proof.
  intros Hi. unfold delete_item.
  assert ((index >=? 0) && (index <? Vec.size (items s)) = true) as -> by lia.
  cbv zeta.
  set (s1 := set_items (Vec.erase (items s) index) s).
  set (s2 := if selected_index s1 >=? Vec.size (items s1) then set_selected_index (-1) s1 else s1).
  assert (items s2 = Vec.erase (items s) index
          /\ selected_index s2 < Vec.size (Vec.erase (items s) index)) as [Hi2 Hsel2].
  { unfold s2. destruct (selected_index s1 >=? Vec.size (items s1)) eqn:E.
    - split; [reflexivity|]. cbn [selected_index set_selected_index]. unfold Vec.size. lia.
    - split; [reflexivity|]. cbn [selected_index items s1 set_items] in *. lia. }
  set (s3 := set_items (map (set_swipe_offset 0) (items s2)) s2).
  set (s4 := clamp_scroll_offset s3).
  assert (items s4 = map (set_swipe_offset 0) (Vec.erase (items s) index)) as Hi4
    by (unfold s4; rewrite clamp_scroll_offset_items; unfold s3; cbn [items set_items];
        now rewrite Hi2).
  assert (selected_index s4 = selected_index s2) as Hsel4.
  { unfold s4, clamp_scroll_offset. split_ifs; reflexivity. }
  destruct (clamp_scroll_offset_range s3) as [Hscroll Hmax]. fold s4 in Hscroll, Hmax.
  destruct (Vec.erase (items s) index) as [|x rest] eqn:Ee; cbn [Vec.empty map] in *.
  - rewrite Hi4.
    unfold start_editing.
    erewrite start_editing_with_result;
      [| right; reflexivity | reflexivity].
    destruct (save_to_file_frame
                (set_input_widget (mkFl_Input true (Str.c_str (text (TodoItem_new ""))))
                   (set_editing_text (text (TodoItem_new ""))
                      (set_editing_index 0
                         (set_scroll_offset 0
                            (set_editing_text ""
                               (set_editing_index 0
                                  (set_items ([] ++ [TodoItem_new ""]) s4))))))))
      as (d & e & t & ->).
    eexists. split; [reflexivity|]. cbn.
    split; [reflexivity|]. split; [discriminate|].
    pose proof (get_max_scroll_offset_nonneg
                  (set_timeouts t (set_error_display e (set_disk d
                     (set_input_widget (mkFl_Input true "")
                        (set_editing_text ""
                           (set_editing_index 0
                              (set_scroll_offset 0
                                 (set_editing_text ""
                                    (set_editing_index 0
                                       (set_items [TodoItem_new ""] s4))))))))))) as Hnn.
    rewrite Hsel4. cbn in Hsel2. split; [lia|]. split; [lia | exact Hnn].
  - rewrite Hi4. destruct (save_to_file_frame s4) as (d & e & t & ->).
    eexists. split; [reflexivity|].
    cbn [items set_timeouts set_error_display set_disk selected_index scroll_offset].
    rewrite Hi4. split; [reflexivity|]. split.
    + intros _. change (set_swipe_offset 0 x :: map (set_swipe_offset 0) rest)
        with (map (set_swipe_offset 0) (x :: rest)).
      rewrite persisted_reset, <- Ee. apply erase_map.
    + rewrite Hsel4. split.
      * unfold Vec.size in *. cbn [List.length map] in *. rewrite length_map. exact Hsel2.
      * rewrite <- Hmax in Hscroll. exact Hscroll.
Qed.

(** X6: [delete_item] with an index in the list removes that item and no
    other, keeping texts, flags and order of the rest; when that empties
    the list, one empty item takes its place, so the new list is one
    shorter but never empty.  Afterwards the selection and the scroll
    offset are within the bounds of the new list. *)
Theorem delete_item_removes (index : Z) (s : ClearApp) :
  0 <= index < Vec.size (items s) ->
  exists s', delete_item index s = Some s'
             /\ items s' = (if Vec.empty (Vec.erase (items s) index)
                            then [TodoItem_new ""]
                            else map (set_swipe_offset 0) (Vec.erase (items s) index))
             /\ (Vec.empty (Vec.erase (items s) index) = false ->
                 map persisted (items s') = Vec.erase (map persisted (items s)) index)
             /\ selected_index s' < Vec.size (items s')
             /\ 0 <= scroll_offset s' <= get_max_scroll_offset s'
             /\ Vec.size (items s') = Z.max 1 (Vec.size (items s) - 1).
Proof.
  intros Hi. destruct (delete_item_result index s Hi) as (s' & Hs' & Hitems & Hsaved & Hrest).
  exists s'. split; [exact Hs'|]. split; [exact Hitems|]. split; [exact Hsaved|].
  split; [exact (proj1 Hrest)|]. split; [exact (proj2 Hrest)|].
  destruct (at_in_range (items s) index Hi) as [x Hx].
  pose proof (erase_length _ _ _ Hx) as Hlen. rewrite Hitems. unfold Vec.size.
  destruct (Vec.erase (items s) index) as [|a rest]; cbn [Vec.empty List.length map] in *.
  - lia.
  - rewrite length_map. lia.
Qed.

Lemma delete_item_removes_witness :
  exists s', delete_item 2 first_window = Some s'
             /\ map text (items s')
                = ["Welcome to Clear"; "Pull down to add new task";
                   "Double-click to complete"; "Swipe right to delete";
                   "Long press to reorder"]%string.
Proof.
  destruct (delete_item_removes 2 first_window ltac:(cbn; lia)) as (s' & Hs' & Hitems & _).
  exists s'. split; [exact Hs'|]. rewrite Hitems. reflexivity.
Defined.

(** The state that [add_item] returns. *)
Lemma add_item_result (t : string) (s : ClearApp) :
  exists s' rest,
    add_item t s = Some s'
    /\ items s' = TodoItem_new t :: rest
    /\ (editing_index s < 0 -> rest = items s)
    /\ editing_index s' = 0 /\ editing_text s' = t
    /\ input_widget s' = mkFl_Input true (Str.c_str t)
    /\ scroll_offset s' = 0 /\ is_pulling_down s' = false /\ pull_down_offset s' = 0.
Proof.
  unfold add_item.
  assert (exists s1, (if editing_index s >=? 0 then finish_editing s else Some s) = Some s1
                     /\ (editing_index s < 0 -> s1 = s)) as (s1 & -> & H1).
  { destruct (editing_index s >=? 0) eqn:E.
    - destruct (finish_editing_total s) as (s1 & Hs1 & _). exists s1. split; [exact Hs1 | lia].
    - exists s. split; trivial. }
  unfold start_editing.
  erewrite start_editing_with_result; [| right; reflexivity | reflexivity].
  match goal with
  | |- context [save_to_file ?x] => destruct (save_to_file_frame x) as (d & e & q & ->)
  end.
  eexists.
  exists (items s1).
  split; [reflexivity|]. cbn.
  split; [reflexivity|]. split; [intros H; now rewrite (H1 H)|].
  repeat split.
Qed.

(** X7: [add_item] always returns; the new item, holding the whole text,
    is the first of the list and is the one being edited; the input
    widget shows its text up to the first NUL byte, the scroll offset is
    back at the top and pull-down is over.  When nothing was being edited
    the old items follow unchanged. *)
Theorem add_item_inserts_first (t : string) (s : ClearApp) :
  exists s' rest,
    add_item t s = Some s'
    /\ items s' = TodoItem_new t :: rest
    /\ (editing_index s < 0 -> rest = items s)
    /\ editing_index s' = 0 /\ editing_text s' = t
    /\ input_widget s' = mkFl_Input true (Str.c_str t)
    /\ scroll_offset s' = 0 /\ is_pulling_down s' = false /\ pull_down_offset s' = 0
    /\ Vec.at_ (items s') (editing_index s') = Some (TodoItem_new t).
Proof.
  destruct (add_item_result t s)
    as (s' & rest & Hs' & Hitems & Hrest & Hedit & Htext & Hwidget & Hview).
  exists s', rest. split; [exact Hs'|]. split; [exact Hitems|]. split; [exact Hrest|].
  split; [exact Hedit|]. split; [exact Htext|]. split; [exact Hwidget|].
  destruct Hview as (Hscroll & Hpull & Hoff). repeat split; trivial.
  rewrite Hedit, Hitems. reflexivity.
Qed.

(** X8: finishing an edit with a non-empty text stores that text in the
    edited item and changes nothing else in the list: the item keeps its
    flag, the others stay as they are.  The edit is over afterwards and
    the input widget hidden. *)
Theorem finish_editing_commits (s : ClearApp) (item : TodoItem) (t : string) :
  Vec.at_ (items s) (editing_index s) = Some item ->
  (if visible (input_widget s) then value (input_widget s) else editing_text s) = t ->
  t <> ""%string ->
  exists s', finish_editing s = Some s'
             /\ Vec.at_ (items s') (editing_index s) = Some (set_text t item)
             /\ (forall k, k <> editing_index s -> Vec.at_ (items s') k = Vec.at_ (items s) k)
             /\ List.length (items s') = List.length (items s)
             /\ editing_index s' = -1 /\ editing_text s' = ""%string
             /\ visible (input_widget s') = false.
Proof.
  intros Hitem Ht Hne. pose proof (at_some_range _ _ _ Hitem) as Hr.
  unfold finish_editing, finish_editing_with.
  assert ((editing_index s >=? 0) && (editing_index s <? Vec.size (items s)) = true) as ->
    by lia.
  set (s1 := if visible (input_widget s)
             then set_editing_text (value (input_widget s)) s else s).
  assert (items s1 = items s /\ editing_index s1 = editing_index s /\ editing_text s1 = t)
    as (Hi1 & He1 & Ht1)
    by (unfold s1; destruct (visible (input_widget s)); repeat split; assumption).
  cbv zeta. cbn [items set_items set_input_widget editing_text editing_index].
  rewrite Ht1, He1, Hi1.
  destruct t as [|c t]; [congruence|]. cbn [Str.empty].
  destruct (update_some (items s) (editing_index s) (set_text (String c t)) Hr)
    as (x & Hx & Hu).
  rewrite Hitem in Hx. injection Hx as <-. rewrite Hu.
  match goal with
  | |- context [save_to_file ?x] => destruct (save_to_file_frame x) as (d & e & q & ->)
  end.
  eexists. split; [reflexivity|]. cbn [items set_timeouts set_error_display set_disk
    set_editing_text set_editing_index set_items set_input_widget editing_index editing_text
    input_widget hide visible].
  split; [now apply (update_at_same _ _ _ _ _ Hitem Hu)|].
  split; [intros k Hk; now apply (update_at_other _ _ _ _ _ Hk Hu)|].
  split; [now apply (update_length _ _ _ _ Hu)|].
  repeat split.
Qed.

Lemma finish_editing_commits_witness :
  exists s', finish_editing (set_input_widget (mkFl_Input true "Buy bread") last_item_window)
             = Some s'
             /\ Vec.at_ (items s') 0 = Some (TodoItem_new "Buy bread").
Proof.
  destruct (finish_editing_commits
              (set_input_widget (mkFl_Input true "Buy bread") last_item_window)
              (TodoItem_new "Buy milk") "Buy bread" eq_refl eq_refl ltac:(discriminate))
    as (s' & Hs' & Hat & _).
  exists s'. split; [exact Hs' | exact Hat].
Defined.

Lemma c_str_spec (t shown : string) : c_string_of t shown <-> Str.c_str t = shown.
Proof.
  unfold c_string_of. split.
  - intros [Hn [-> | [rest ->]]].
    + induction shown as [|c r IH]; [reflexivity|]. cbn [Str.c_str Str.count] in *.
      destruct (c =? Str.nul)%char; [discriminate|]. now rewrite IH.
    + induction shown as [|c r IH]; [reflexivity|]. cbn [Str.c_str Str.count append] in *.
      destruct (c =? Str.nul)%char; [discriminate|]. now rewrite IH.
  - intros <-. induction t as [|c r [IH1 IH2]]; cbn [Str.c_str].
    + split; [reflexivity | now left].
    + destruct (c =? Str.nul)%char eqn:E.
      * apply Ascii.eqb_eq in E. subst c. split; [reflexivity|]. right. now exists r.
      * split; [cbn [Str.count]; now rewrite E|].
        destruct IH2 as [H | [rest H]]; [left | right; exists rest]; cbn [append];
          now rewrite <- H.
Qed.

Lemma update_same {A : Type} (v : list A) (i : Z) (f : A -> A) (x : A) :
  Vec.at_ v i = Some x -> f x = x -> Vec.update v i f = Some v.
Proof.
  intros Hx Hf. unfold Vec.update. rewrite Hx, Hf. f_equal. symmetry.
  apply (at_split v i x Hx).
Qed.

(** X9: opening an item for editing and leaving it without typing stores
    back what the widget holds of the item's text, which is the text up
    to its first NUL byte.  So the list is kept when the text is not
    empty and has no NUL byte; a text with a NUL byte is cut there; and
    the item is removed when nothing stands before the first NUL byte
    (and it is not the only item). *)
Theorem edit_without_typing (index : Z) (s : ClearApp) (item : TodoItem) (shown : string) :
  editing_index s < 0 ->
  Vec.at_ (items s) index = Some item ->
  c_string_of (text item) shown ->
  exists s1 s2,
    start_editing index s = Some s1
    /\ finish_editing s1 = Some s2
    /\ (shown <> ""%string ->
        Vec.update (items s) index (set_text shown) = Some (items s2)
        /\ editing_index s2 = -1)
    /\ (shown <> ""%string -> shown = text item -> items s2 = items s)
    /\ (shown = ""%string -> 2 <= Vec.size (items s) ->
        items s2 = Vec.erase (items s) index /\ editing_index s2 = -1).
Proof.
  intros He Hitem Hshown. apply c_str_spec in Hshown.
  pose proof (at_some_range _ _ _ Hitem) as Hr.
  unfold start_editing.
  rewrite (start_editing_with_result finish_editing index s item (or_introl He) Hitem).
  rewrite Hshown.
  match goal with
  | |- context [Some ?x = Some _] => remember x as s1 eqn:E1
  end.
  assert (items s1 = items s) as Hi1 by now subst s1.
  assert (editing_index s1 = index) as He1 by now subst s1.
  assert (input_widget s1 = mkFl_Input true shown) as Hw1 by now subst s1.
  clear E1. exists s1.
  unfold finish_editing, finish_editing_with. rewrite He1, Hi1, Hw1.
  assert ((index >=? 0) && (index <? Vec.size (items s)) = true) as -> by lia.
  cbv zeta.
  cbn [items set_items set_input_widget set_editing_text set_editing_index editing_index
       editing_text input_widget visible value hide].
  rewrite He1, Hi1.
  destruct shown as [|c t] eqn:Et; cbn [Str.empty].
  - destruct (Vec.erase (items s) index) as [|x rest] eqn:Ee.
    + erewrite start_editing_with_result; [|left; cbn; lia|reflexivity].
      eexists. split; [reflexivity|]. split; [reflexivity|].
      split; [congruence|]. split; [congruence|]. intros _ Hsize.
      pose proof (erase_length _ _ _ Hitem) as Hlen. rewrite Ee in Hlen. cbn in Hlen.
      unfold Vec.size in Hsize. lia.
    + eexists. split; [reflexivity|]. split; [reflexivity|].
      split; [congruence|]. split; [congruence|]. intros _ _. split; reflexivity.
  - destruct (update_some (items s) index (set_text (String c t)) Hr) as (x & Hx & Hu).
    rewrite Hu. eexists. split; [reflexivity|]. split; [reflexivity|].
    rewrite save_to_file_items, save_to_file_editing_index.
    cbn [items set_items set_editing_text set_editing_index editing_index].
    split; [intros _; split; reflexivity|]. split; [|congruence].
    intros _ Htext.
    assert (Vec.update (items s) index (set_text (String c t)) = Some (items s)) as Hsame.
    { apply (update_same _ _ _ item Hitem). rewrite Htext. now destruct item. }
    congruence.
Qed.

Lemma edit_without_typing_witness :
  exists s1 s2,
    start_editing 0 nul_window = Some s1
    /\ finish_editing s1 = Some s2
    /\ items s2 = [TodoItem_new "a"; TodoItem_new "x"].
Proof.
  destruct (edit_without_typing 0 nul_window (TodoItem_new ("a" ++ String Str.nul "b")) "a"
              ltac:(reflexivity) ltac:(reflexivity))
    as (s1 & s2 & H1 & H2 & Hcut & _).
  - split; [reflexivity|]. right. now exists "b"%string.
  - exists s1, s2. split; [exact H1|]. split; [exact H2|].
    destruct (Hcut ltac:(discriminate)) as [Hu _]. now injection Hu as <-.
Defined.

(** ** Hit testing and scrolling *)

Lemma get_sorted_indices_in (s : ClearApp) (k : Z) :
  In k (get_sorted_indices s) -> 0 <= k < Vec.size (items s).
Proof.
  intros H. apply (Permutation_in _ (get_sorted_indices_perm s)) in H.
  unfold positions in H. apply in_map_iff in H. destruct H as (n & <- & Hn).
  apply in_seq in Hn. unfold Vec.size. lia.
Qed.

Lemma get_sorted_indices_length (s : ClearApp) :
  List.length (get_sorted_indices s) = List.length (items s).
Proof.
  rewrite (Permutation_length (get_sorted_indices_perm s)).
  unfold positions. now rewrite length_map, length_seq.
Qed.

(** X10: [get_item_at_y] answers [-1] or a position of the list, never
    anything else; it answers [-1] above the first item and below the
    last one. *)
Theorem get_item_at_y_valid (y : Z) (s : ClearApp) :
  0 < item_height s ->
  (get_item_at_y y s = -1 \/ 0 <= get_item_at_y y s < Vec.size (items s))
  /\ (y + scroll_offset s < 0 -> get_item_at_y y s = -1)
  /\ (Vec.size (items s) * item_height s <= y + scroll_offset s -> get_item_at_y y s = -1).
Proof.
  intros Hh. unfold get_item_at_y. cbv zeta.
  destruct (y + scroll_offset s <? 0) eqn:E.
  { split; [now left|]. split; trivial. }
  rewrite Z.sub_0_r.
  destruct ((_ >=? 0) && (_ <? Vec.size (get_sorted_indices s))) eqn:R.
  - apply andb_prop in R. destruct R as [R0 R1].
    assert (In (nth (Z.to_nat (Z.quot (y + scroll_offset s) (item_height s)))
                  (get_sorted_indices s) (-1)) (get_sorted_indices s)) as Hin.
    { apply nth_In. unfold Vec.size in R1. lia. }
    apply get_sorted_indices_in in Hin.
    split; [now right|]. split; [lia|].
    intros Hbelow. exfalso.
    unfold Vec.size in R1. rewrite get_sorted_indices_length in R1.
    assert (Z.of_nat (List.length (items s))
            <= Z.quot (y + scroll_offset s) (item_height s)); [|lia].
    rewrite Z.quot_div_nonneg by lia.
    apply Z.div_le_lower_bound; [lia|]. unfold Vec.size in Hbelow. lia.
  - split; [now left|]. split; trivial.
Qed.

Lemma get_item_at_y_valid_witness :
  get_item_at_y 130 first_window = 2 /\ get_item_at_y 400 first_window = -1.
Proof.
  split; [reflexivity|].
  apply (get_item_at_y_valid 400 first_window); cbn; lia.
Defined.

(** X11: hit testing agrees with painting.  When the list is not pulled
    down, a point inside the strip where [draw] paints slot [k] of the
    display order is answered with the item of that slot. *)
Theorem hit_test_matches_slots (s : ClearApp) (k : nat) (y : Z) :
  0 < item_height s ->
  (k < List.length (items s))%nat ->
  is_pulling_down s && (pull_down_offset s >? 0) = false ->
  slot_y s (Z.of_nat k) <= y < slot_y s (Z.of_nat k) + item_height s ->
  get_item_at_y y s = nth k (get_sorted_indices s) (-1).
Proof.
  intros Hh Hk Hpull Hy. unfold slot_y in Hy. cbv zeta in Hy. rewrite Hpull in Hy.
  unfold get_item_at_y. cbv zeta.
  assert ((y + scroll_offset s <? 0) = false) as -> by lia.
  rewrite Z.sub_0_r.
  assert (Z.quot (y + scroll_offset s) (item_height s) = Z.of_nat k) as ->.
  { rewrite Z.quot_div_nonneg by lia. symmetry.
    apply Z.div_unique with (r := y + scroll_offset s - Z.of_nat k * item_height s); lia. }
  unfold Vec.size. rewrite get_sorted_indices_length.
  assert ((Z.of_nat k >=? 0) && (Z.of_nat k <? Z.of_nat (List.length (items s))) = true)
    as -> by lia.
  now rewrite Nat2Z.id.
Qed.

Lemma hit_test_matches_slots_witness :
  get_item_at_y 200 first_window = nth 3 (get_sorted_indices first_window) (-1).
Proof.
  apply (hit_test_matches_slots first_window 3 200); cbn; lia.
Defined.



(** ** What is saved, and what the constructor loads *)

Lemma escape_synced (fl : Fl) (s s' : ClearApp) :
  reliable (disk s) ->
  event_key fl = FL_Escape ->
  editing_index s >= 0 -> visible (input_widget s) = true ->
  value (input_widget s) <> ""%string \/ 2 <= Vec.size (items s) ->
  handle FL_KEYBOARD fl s = Some s' -> synced s'.
Proof.
  intros Hd Hk He Hv Hkeep. cbn [handle]. unfold handle_keyboard.
  assert ((editing_index s >=? 0) && visible (input_widget s) = true) as ->
    by (rewrite Hv; lia).
  rewrite Hk, Z.eqb_refl. cbv zeta.
  destruct (Str.empty (value (input_widget s))
            && (editing_index s <? Vec.size (items s))) eqn:C.
  - apply andb_prop in C. destruct C as [C1 C2]. cbn [items set_items].
    destruct (Vec.erase (items s) (editing_index s)) as [|x rest] eqn:Ee.
    + exfalso. destruct Hkeep as [Hne | Hsize].
      * destruct (value (input_widget s)); [congruence | discriminate].
      * destruct (at_in_range (items s) (editing_index s) ltac:(lia)) as [item Hitem].
        pose proof (erase_length _ _ _ Hitem) as Hlen. rewrite Ee in Hlen.
        unfold Vec.size in Hsize. cbn in Hlen. lia.
    + intros [= <-]. now apply save_to_file_synced.
  - intros [= <-]. now apply save_to_file_synced.
Qed.

(** X13: on a file that can be written, these mutations leave the file
    equal to the serialization of the list they produce: completing,
    deleting, adding, moving, finishing an edit with a non-empty text, and
    giving an edit up with Escape unless that removes the only item. *)
Theorem saving_mutations_persist (s : ClearApp) (index : Z) :
  reliable (disk s) ->
  0 <= index < Vec.size (items s) ->
  synced (toggle_complete index s)
  /\ (forall s', delete_item index s = Some s' -> synced s')
  /\ (forall t s', add_item t s = Some s' -> synced s')
  /\ (forall to_index, reorder_refused index to_index s = false ->
                       synced (reorder_items index to_index s))
  /\ (forall s', editing_index s = index ->
                 (if visible (input_widget s) then value (input_widget s)
                  else editing_text s) <> ""%string ->
                 finish_editing s = Some s' -> synced s')
  /\ (forall fl s', event_key fl = FL_Escape ->
                    editing_index s = index -> visible (input_widget s) = true ->
                    value (input_widget s) <> ""%string \/ 2 <= Vec.size (items s) ->
                    handle FL_KEYBOARD fl s = Some s' -> synced s').
Proof.
  intros Hd Hi. split; [now apply toggle_complete_synced|].
  split; [intros s'; now apply delete_item_synced|].
  split; [intros t s'; now apply add_item_synced|].
  split; [intros to_index; now apply reorder_items_synced|].
  split.
  - intros s' He Ht. apply finish_editing_synced; [exact Hd | lia | exact Ht].
  - intros fl s' Hk He Hv Hkeep. apply (escape_synced fl s s'); try assumption. lia.
Qed.

Lemma saving_mutations_persist_witness :
  synced (toggle_complete 1 first_window)
  /\ synced (reorder_items 1 4 first_window).
Proof.
  destruct (saving_mutations_persist first_window 1) as (Htoggle & _ & _ & Hmove & _).
  - split; reflexivity.
  - cbn. lia.
  - split; [exact Htoggle | now apply Hmove].
Defined.

(** X14: when the data file opens and is read without error, the
    constructor takes the list from it and leaves the file alone, showing
    no error; but a file without a single usable line is treated like a
    first run: the list becomes the six sample items and the file is
    overwritten with them. *)
Theorem constructor_loads_or_seeds (W H : Z) (data_dir : string) (d : Disk) (y0 x0 : Z)
  (content : string) :
  disk_data d = Some content ->
  disk_readable d = true ->
  disk_read_fault d = false ->
  (parse_lines (lines content) <> [] ->
   items (ClearApp_new W H data_dir d y0 x0) = parse_lines (lines content)
   /\ disk (ClearApp_new W H data_dir d y0 x0) = d
   /\ error_display (ClearApp_new W H data_dir d y0 x0) = mkErrorDisplay "" false
   /\ timeouts (ClearApp_new W H data_dir d y0 x0) = [])
  /\ (parse_lines (lines content) = [] ->
      items (ClearApp_new W H data_dir d y0 x0) = sample_items
      /\ (write_succeeds d (file_image sample_items) ->
          disk_data (disk (ClearApp_new W H data_dir d y0 x0))
          = Some (file_image sample_items))).
Proof.
  intros Hd Hr Hf. unfold ClearApp_new.
  match goal with
  | |- context [load_from_file ?s0] => set (start := s0)
  end.
  assert (disk start = d) as Hdisk
    by (unfold start; destruct (data_dir =? ".")%string; reflexivity).
  assert (error_display start = mkErrorDisplay "" false /\ timeouts start = []) as [He Ht]
    by (unfold start; destruct (data_dir =? ".")%string; split; reflexivity).
  rewrite (load_from_file_reads start content) by (rewrite Hdisk; assumption).
  cbn [items set_items].
  destruct (parse_lines (lines content)) as [|item rest] eqn:Ep.
  - split; [congruence|]. intros _. cbn [Vec.empty negb orb].
    rewrite save_to_file_items. split; [reflexivity|].
    intros Hw. rewrite save_to_file_ok; [reflexivity|].
    cbn [disk add_sample_items set_items items app]. rewrite Hdisk. exact Hw.
  - split; [|congruence]. intros _. cbn [Vec.empty negb orb].
    cbn [items disk error_display timeouts set_items]. repeat split; assumption.
Qed.

Lemma constructor_loads_or_seeds_witness :
  map persisted
    (items (ClearApp_new 600 800 "." (mkDisk (Some mixed_file) true true None false) 0 0))
  = [("done \ and" ++ String Str.nl "more", true); ("not|done", false)]%string.
Proof.
  destruct (constructor_loads_or_seeds 600 800 "."
              (mkDisk (Some mixed_file) true true None false) 0 0 mixed_file
              eq_refl eq_refl eq_refl) as [Hload _].
  destruct Hload as (Hitems & _); [discriminate|].
  rewrite Hitems. reflexivity.
Defined.

(** ** Well-formedness is kept *)

Lemma keeps_refl (s : ClearApp) : keeps s s.
Proof. repeat split; trivial. Qed.

Lemma keeps_trans (s1 s2 s3 : ClearApp) : keeps s1 s2 -> keeps s2 s3 -> keeps s1 s3.
Proof.
  intros (A1 & B1 & C1 & D1 & E1 & F1 & G1) (A2 & B2 & C2 & D2 & E2 & F2 & G2).
  repeat split; try congruence; auto.
Qed.

Lemma keeps_same (s s' : ClearApp) :
  item_height s' = item_height s -> win_w s' = win_w s -> win_h s' = win_h s ->
  items s' = items s -> scroll_offset s' = scroll_offset s ->
  error_display s' = error_display s ->
  pending hide_error_cb s' = pending hide_error_cb s ->
  value (input_widget s') = value (input_widget s) ->
  keeps s s'.
Proof.
  intros A B C D E F G H. unfold keeps, toast_ok, c_string. rewrite A, B, C, D, E, F, G, H.
  repeat split; trivial.
Qed.

Lemma c_str_no_nul (t : string) : Str.count Str.nul (Str.c_str t) = 0%nat.
Proof.
  induction t as [|c t IH]; [reflexivity|]. cbn [Str.c_str].
  destruct (c =? Str.nul)%char eqn:E; [reflexivity|]. cbn [Str.count]. now rewrite E.
Qed.

(** The same when the widget is given a new C string. *)
Lemma keeps_edit (s s' : ClearApp) :
  item_height s' = item_height s -> win_w s' = win_w s -> win_h s' = win_h s ->
  items s' = items s -> scroll_offset s' = scroll_offset s ->
  error_display s' = error_display s ->
  pending hide_error_cb s' = pending hide_error_cb s ->
  c_string (input_widget s') ->
  keeps s s'.
Proof.
  intros A B C D E F G H. unfold keeps, toast_ok. rewrite A, B, C, D, E, F, G.
  repeat split; trivial.
Qed.

(** The same when the list or the scroll offset change. *)
Lemma keeps_list (s s' : ClearApp) :
  item_height s' = item_height s -> win_w s' = win_w s -> win_h s' = win_h s ->
  (items s <> [] -> items s' <> []) ->
  (0 <= scroll_offset s -> 0 <= scroll_offset s') ->
  error_display s' = error_display s ->
  pending hide_error_cb s' = pending hide_error_cb s ->
  value (input_widget s') = value (input_widget s) ->
  keeps s s'.
Proof.
  intros A B C D E F G H. unfold keeps, toast_ok, c_string. rewrite A, B, C, F, G, H.
  repeat split; trivial.
Qed.

Lemma keeps_show_error (msg : string) (s : ClearApp) : keeps s (show_error msg s).
Proof.
  unfold keeps. repeat split; trivial. intros _.
  unfold toast_ok. cbn [show_error error_display is_visible add_timeout remove_timeout
    set_timeouts set_error_display].
  exists 3.0%Q. apply pending_show_error.
Qed.

Lemma keeps_save_to_file (s : ClearApp) : keeps s (save_to_file s).
Proof.
  unfold save_to_file.
  destruct (ofstream_open _); [destruct (ofstream_close _ _) as [d []]|].
  - eapply keeps_trans; [|apply keeps_show_error]. now apply keeps_same.
  - now apply keeps_same.
  - apply keeps_show_error.
Qed.

Lemma keeps_clamp_scroll_offset (s : ClearApp) : keeps s (clamp_scroll_offset s).
Proof.
  destruct (clamp_scroll_offset_range s) as [Hr _].
  apply keeps_list; try (unfold clamp_scroll_offset; split_ifs; reflexivity).
  - now rewrite clamp_scroll_offset_items.
  - intros _. lia.
Qed.

Lemma update_nonempty {A : Type} (v v' : list A) (i : Z) (f : A -> A) :
  Vec.update v i f = Some v' -> v' <> [].
Proof.
  unfold Vec.update. destruct (Vec.at_ v i); [|discriminate]. intros [= <-].
  now destruct (firstn _ _).
Qed.

Lemma keeps_toggle_complete (index : Z) (s : ClearApp) : keeps s (toggle_complete index s).
Proof.
  unfold toggle_complete. destruct (_ && _); [|apply keeps_refl].
  destruct (Vec.update _ _ _) as [v|] eqn:E; [|apply keeps_refl].
  eapply keeps_trans; [|apply keeps_save_to_file].
  apply keeps_list; try reflexivity; trivial.
  intros _. cbn [items set_items]. now apply (update_nonempty _ _ _ _ E).
Qed.

Lemma keeps_reorder_items (from_index to_index : Z) (s : ClearApp) :
  keeps s (reorder_items from_index to_index s).
Proof.
  unfold reorder_items. destruct (_ || _); [apply keeps_refl|].
  destruct (Vec.at_ _ _) as [item|]; [|apply keeps_refl].
  eapply keeps_trans; [|apply keeps_save_to_file].
  apply keeps_list; try reflexivity; trivial.
  intros _. cbn [items set_items]. unfold Vec.insert. now destruct (firstn _ _).
Qed.

Lemma keeps_start_editing_with (f : ClearApp -> option ClearApp) (index : Z)
  (s s' : ClearApp) :
  (forall a b, f a = Some b -> keeps a b) ->
  start_editing_with f index s = Some s' -> keeps s s'.
Proof.
  intros Hf. unfold start_editing_with.
  destruct (_ || _); [intros [= <-]; apply keeps_refl|].
  destruct (_ && _).
  - destruct (f s) as [s1|] eqn:E; [|discriminate].
    destruct (Vec.at_ _ _); [|discriminate]. intros [= <-].
    eapply keeps_trans; [apply (Hf _ _ E)|].
    apply keeps_edit; try reflexivity. apply c_str_no_nul.
  - destruct (Vec.at_ _ _); [|discriminate]. intros [= <-].
    apply keeps_edit; try reflexivity. apply c_str_no_nul.
Qed.

Lemma keeps_finish_editing (s s' : ClearApp) : finish_editing s = Some s' -> keeps s s'.
Proof.
  unfold finish_editing, finish_editing_with.
  destruct (_ && _); [|intros [= <-]; apply keeps_refl].
  set (s1 := if visible (input_widget s)
             then set_editing_text (value (input_widget s)) s else s).
  assert (keeps s s1) as H1 by (unfold s1; split_ifs; now apply keeps_same).
  cbv zeta. cbn [items set_items set_input_widget editing_text editing_index].
  destruct (Str.empty (editing_text s1)).
  - destruct (Vec.erase _ _) as [|x rest].
    + intros H. apply keeps_start_editing_with in H; [|discriminate].
      eapply keeps_trans; [exact H1|]. eapply keeps_trans; [|exact H].
      apply keeps_list; try reflexivity; trivial. intros _. discriminate.
    + intros [= <-]. eapply keeps_trans; [exact H1|].
      apply keeps_list; try reflexivity; trivial. intros _. discriminate.
  - destruct (Vec.update _ _ _) as [v|] eqn:E; [|discriminate]. intros [= <-].
    eapply keeps_trans; [exact H1|]. eapply keeps_trans; [|apply keeps_save_to_file].
    apply keeps_list; try reflexivity; trivial.
    intros _. cbn [items set_items set_editing_index set_editing_text].
    now apply (update_nonempty _ _ _ _ E).
Qed.

Lemma keeps_start_editing (index : Z) (s s' : ClearApp) :
  start_editing index s = Some s' -> keeps s s'.
Proof. apply keeps_start_editing_with. exact keeps_finish_editing. Qed.

Lemma keeps_delete_item (index : Z) (s s' : ClearApp) :
  delete_item index s = Some s' -> keeps s s'.
Proof.
  intros H.
  destruct ((index >=? 0) && (index <? Vec.size (items s))) eqn:R.
  2:{ unfold delete_item in H. rewrite R in H. injection H as <-. apply keeps_refl. }
  destruct (delete_item_result index s ltac:(lia)) as (s2 & H2 & Hitems & _ & _ & Hscroll).
  rewrite H in H2. injection H2 as <-.
  unfold delete_item in H. rewrite R in H. cbv zeta in H.
  set (s1 := set_items (Vec.erase (items s) index) s) in H.
  set (s2 := if selected_index s1 >=? Vec.size (items s1)
             then set_selected_index (-1) s1 else s1) in H.
  set (s4 := clamp_scroll_offset (set_items (map (set_swipe_offset 0) (items s2)) s2)) in H.
  assert (item_height s4 = item_height s /\ win_w s4 = win_w s /\ win_h s4 = win_h s
          /\ error_display s4 = error_display s
          /\ pending hide_error_cb s4 = pending hide_error_cb s
          /\ input_widget s4 = input_widget s) as (A & B & C & E & P & W).
  { unfold s4, clamp_scroll_offset. split_ifs; unfold s2; split_ifs; repeat split. }
  assert (forall x, keeps s x -> keeps x s' -> keeps s s') as Hvia
    by (intros x; apply keeps_trans).
  destruct (items s4).
  - destruct (start_editing 0 _) as [s5|] eqn:E5; [|discriminate]. injection H as <-.
    apply keeps_start_editing in E5.
    eapply keeps_trans; [|apply keeps_save_to_file].
    eapply keeps_trans; [|exact E5].
    apply keeps_list; trivial; try (cbn [input_widget set_scroll_offset set_editing_text
                                         set_editing_index set_items]; now rewrite W).
    + intros _. cbn. discriminate.
    + intros _. cbn. lia.
  - injection H as <-. eapply keeps_trans; [|apply keeps_save_to_file].
    apply keeps_list; trivial; try (now rewrite W).
    + intros _. rewrite save_to_file_items in Hitems. rewrite Hitems.
      destruct (Vec.erase (items s) index); cbn; discriminate.
    + intros _. destruct (clamp_scroll_offset_range
                            (set_items (map (set_swipe_offset 0) (items s2)) s2)) as [Hr _].
      fold s4 in Hr. lia.
Qed.

Lemma keeps_add_item (t : string) (s s' : ClearApp) : add_item t s = Some s' -> keeps s s'.
Proof.
  unfold add_item.
  destruct (if editing_index s >=? 0 then finish_editing s else Some s) as [s1|] eqn:E1;
    [|discriminate].
  assert (keeps s s1) as H1.
  { destruct (editing_index s >=? 0); [now apply keeps_finish_editing|].
    injection E1 as <-. apply keeps_refl. }
  destruct (start_editing 0 _) as [s2|] eqn:E2; [|discriminate]. intros [= <-].
  apply keeps_start_editing in E2.
  eapply keeps_trans; [exact H1|]. eapply keeps_trans; [|apply keeps_save_to_file].
  eapply keeps_trans; [|exact E2].
  apply keeps_list; try reflexivity; trivial.
  intros _. cbn. unfold Vec.insert. cbn. discriminate.
Qed.

Lemma keeps_release_swipe (s s' : ClearApp) : release_swipe s = Some s' -> keeps s s'.
Proof.
  unfold release_swipe. destruct (Vec.at_ _ _) as [item|]; [|discriminate].
  destruct (_ <? _).
  - intros H. apply keeps_delete_item in H.
    eapply keeps_trans; [|exact H]. split_ifs; now apply keeps_same.
  - destruct (_ >? _).
    + destruct (Vec.update _ _ _) as [v|] eqn:E; [|discriminate]. intros [= <-].
      eapply keeps_trans; [apply keeps_toggle_complete|].
      apply keeps_list; try reflexivity; trivial.
      intros _. now apply (update_nonempty _ _ _ _ E).
    + destruct (Vec.update _ _ _) as [v|] eqn:E; [|discriminate]. intros [= <-].
      apply keeps_list; try reflexivity; trivial.
      intros _. now apply (update_nonempty _ _ _ _ E).
Qed.

Lemma map_nonempty {A B : Type} (f : A -> B) (v : list A) : v <> [] -> map f v <> [].
Proof. destruct v; [congruence | discriminate]. Qed.

Lemma keeps_handle_push (fl : Fl) (s s' : ClearApp) : handle_push fl s = Some s' -> keeps s s'.
Proof.
  unfold handle_push. cbv zeta.
  destruct (if (editing_index s >=? 0) && (event_button fl =? FL_LEFT_MOUSE)
            then if negb (get_item_at_y (event_y fl) s =? editing_index s)
                 then finish_editing s else Some s
            else Some s) as [s1|] eqn:E1; [|discriminate].
  assert (keeps s s1) as H1.
  { destruct (_ && _); [|injection E1 as <-; apply keeps_refl].
    destruct (negb _); [now apply keeps_finish_editing|].
    injection E1 as <-. apply keeps_refl. }
  remember (set_items (map (set_swipe_offset 0) (items s1)) s1) as s2 eqn:E2.
  assert (keeps s s2) as H2.
  { eapply keeps_trans; [exact H1|]. subst s2.
    apply keeps_list; try reflexivity; trivial. apply map_nonempty. }
  clear E1 E2 H1 s1. intros H.
  destruct (get_item_at_y (event_y fl) s2 >=? 0).
  - destruct (event_button fl =? FL_LEFT_MOUSE).
    + injection H as <-. eapply keeps_trans; [exact H2|].
      apply keeps_same; try reflexivity.
      now rewrite pending_add_other by discriminate.
    + destruct (event_button fl =? FL_RIGHT_MOUSE);
        [|injection H as <-; exact H2].
      destruct (if editing_index s2 >=? 0 then finish_editing s2 else Some s2)
        as [s3|] eqn:E3; [|discriminate].
      assert (keeps s2 s3) as H3.
      { destruct (editing_index s2 >=? 0); [now apply keeps_finish_editing|].
        injection E3 as <-. apply keeps_refl. }
      apply keeps_delete_item in H.
      eapply keeps_trans; [exact H2|]. eapply keeps_trans; [exact H3 | exact H].
  - destruct (_ && (event_button fl =? FL_LEFT_MOUSE)); injection H as <-;
      [|exact H2].
    eapply keeps_trans; [exact H2|]. now apply keeps_same.
Qed.

Lemma keeps_drag_selected (dx dy my : Z) (s s' : ClearApp) :
  drag_selected dx dy my s = Some s' -> keeps s s'.
Proof.
  unfold drag_selected. destruct (negb (can_reorder s) && negb (is_swiping s)).
  { intros [= <-]. apply keeps_refl. }
  cbv zeta.
  set (s1 := if negb (is_swiping s) then set_is_dragging true s else s).
  set (s2 := if negb (is_swiping s1) && (Z.abs dx >? 10) then set_is_swiping true s1 else s1).
  assert (keeps s s2) as H2.
  { unfold s2, s1; split_ifs; now apply keeps_same. }
  destruct (is_swiping s2).
  - destruct (Vec.update _ _ _) as [v|] eqn:E; [|discriminate]. intros [= <-].
    eapply keeps_trans; [exact H2|].
    apply keeps_list; try reflexivity; trivial.
    intros _. now apply (update_nonempty _ _ _ _ E).
  - destruct (can_reorder s2 && _); [|intros [= <-]; exact H2].
    destruct (_ && negb _); [|intros [= <-]; exact H2].
    intros [= <-]. eapply keeps_trans; [exact H2|].
    eapply keeps_trans; [apply (keeps_reorder_items (selected_index s2)
                                  (get_item_at_y my s2) s2)|].
    now apply keeps_same.
Qed.

Lemma keeps_remove_timeout (cb : Callback) (s : ClearApp) :
  cb <> hide_error_cb -> keeps s (remove_timeout cb s).
Proof.
  intros H. apply keeps_same; try reflexivity.
  apply pending_remove_other. congruence.
Qed.

Lemma keeps_handle_drag (fl : Fl) (s s' : ClearApp) : handle_drag fl s = Some s' -> keeps s s'.
Proof.
  unfold handle_drag. cbv zeta. destruct (is_pulling_down s).
  { split_ifs; intros [= <-]; now apply keeps_same. }
  destruct (selected_index s >=? 0); [|intros [= <-]; apply keeps_refl].
  destruct (negb (can_reorder s) && (_ >? 20) && _).
  { intros H. apply keeps_drag_selected in H.
    eapply keeps_trans; [|exact H].
    eapply keeps_trans; [apply (keeps_remove_timeout long_press_timeout_cb); discriminate|].
    now apply keeps_same. }
  destruct (negb (can_reorder s)).
  - destruct (_ && (_ >? Z.abs _)).
    + destruct (Vec.update _ _ _) as [v|] eqn:E; [|discriminate].
      intros H. apply keeps_drag_selected in H.
      eapply keeps_trans; [|exact H].
      apply keeps_list; try reflexivity; trivial.
      intros _. now apply (update_nonempty _ _ _ _ E).
    + destruct (_ || _); intros [= <-]; [|apply keeps_refl].
      eapply keeps_trans; [apply (keeps_remove_timeout long_press_timeout_cb); discriminate|].
      now apply keeps_same.
  - apply keeps_drag_selected.
Qed.

Lemma keeps_add_timeout (t : Q) (cb : Callback) (s : ClearApp) :
  cb <> hide_error_cb -> keeps s (add_timeout t cb s).
Proof.
  intros H. apply keeps_same; try reflexivity.
  apply pending_add_other. congruence.
Qed.

Lemma keeps_handle_release (fl : Fl) (s s' : ClearApp) :
  handle_release fl s = Some s' -> keeps s s'.
Proof.
  unfold handle_release. cbv zeta.
  remember (remove_timeout long_press_timeout_cb s) as s0 eqn:E0.
  assert (keeps s s0) as H0
    by (subst s0; apply keeps_remove_timeout; discriminate).
  clear E0.
  match goal with
  | |- match ?inner with _ => _ end = _ -> _ =>
      assert (forall s1, inner = Some s1 -> keeps s0 s1) as Hinner
  end.
  { intros s1. destruct (is_pulling_down s0).
    - destruct (_ >? _); [apply keeps_add_item|].
      intros [= <-]. now apply keeps_same.
    - destruct (is_dragging s0 && (selected_index s0 >=? 0) && can_reorder s0).
      { destruct (is_swiping s0); [apply keeps_release_swipe|].
        intros [= <-]. apply keeps_refl. }
      destruct (selected_index s0 >=? 0); [|intros [= <-]; apply keeps_refl].
      destruct (is_swiping s0); [apply keeps_release_swipe|].
      destruct (_ && negb (can_reorder s0)); [|intros [= <-]; apply keeps_refl].
      destruct (event_clicks fl >? 0).
      + remember (if pending_click_index s0 >=? 0
                  then set_pending_click_index (-1) (remove_timeout click_timeout_cb s0)
                  else s0) as sa eqn:Ea.
        assert (keeps s0 sa) as Ha.
        { subst sa. destruct (pending_click_index s0 >=? 0); [|apply keeps_refl].
          eapply keeps_trans;
            [apply (keeps_remove_timeout click_timeout_cb); discriminate|].
          now apply keeps_same. }
        intros [= <-]. destruct (editing_index sa <? 0); [|exact Ha].
        eapply keeps_trans; [exact Ha | apply keeps_toggle_complete].
      + remember (if pending_click_index s0 >=? 0
                  then remove_timeout click_timeout_cb s0 else s0) as sb eqn:Eb.
        assert (keeps s0 sb) as Hb.
        { subst sb. destruct (pending_click_index s0 >=? 0); [|apply keeps_refl].
          apply keeps_remove_timeout. discriminate. }
        intros [= <-]. eapply keeps_trans; [exact Hb|].
        eapply keeps_trans; [|apply keeps_add_timeout; discriminate].
        now apply keeps_same. }
  destruct (if is_pulling_down s0 then _ else _) as [s1|]; [|discriminate].
  specialize (Hinner s1 eq_refl). intros [= <-].
  eapply keeps_trans; [exact H0|]. eapply keeps_trans; [exact Hinner|].
  now apply keeps_same.
Qed.

Lemma keeps_handle_keyboard (fl : Fl) (s s' : ClearApp) :
  handle_keyboard fl s = Some s' -> keeps s s'.
Proof.
  unfold handle_keyboard. cbv zeta. destruct (_ && visible _).
  - destruct (_ =? FL_Escape); [|intros [= <-]; apply keeps_refl].
    destruct (_ && (_ <? _)).
    + cbn [items set_items]. destruct (Vec.erase _ _) as [|x rest].
      * intros H. apply keeps_start_editing in H.
        eapply keeps_trans; [|exact H].
        apply keeps_list; try reflexivity; trivial. intros _. discriminate.
      * intros [= <-]. eapply keeps_trans; [|apply keeps_save_to_file].
        apply keeps_list; try reflexivity; trivial. intros _. discriminate.
    + intros [= <-]. eapply keeps_trans; [|apply keeps_save_to_file].
      now apply keeps_same.
  - destruct (_ && (selected_index s >=? 0)); [|intros [= <-]; apply keeps_refl].
    destruct (delete_item _ _) as [s1|] eqn:E; [|discriminate].
    intros [= <-]. apply keeps_delete_item in E.
    eapply keeps_trans; [exact E|]. now apply keeps_same.
Qed.

Lemma keeps_draw_item (index y : Z) (s : ClearApp) : keeps s (draw_item index y s).
Proof.
  unfold draw_item. destruct (_ || _); [apply keeps_refl|].
  destruct (Vec.update _ _ _) as [v|] eqn:E; [|apply keeps_refl].
  apply keeps_list; try reflexivity; trivial.
  intros _. now apply (update_nonempty _ _ _ _ E).
Qed.

Lemma keeps_draw_loop (rest : list Z) (visual_pos y total : Z) (s : ClearApp) :
  keeps s (fst (draw_loop rest visual_pos y total s)).
Proof.
  revert visual_pos y s. induction rest as [|index rest IH]; intros visual_pos y s;
    [apply keeps_refl|].
  cbn [draw_loop]. cbv zeta.
  destruct (_ && (_ <? win_h s)).
  - match goal with
    | |- context [draw_loop rest ?a ?b total ?c] => specialize (IH a b c)
    end.
    destruct (draw_loop rest _ _ total _) as [s' calls]. cbn [fst] in *.
    eapply keeps_trans; [apply keeps_draw_item | exact IH].
  - specialize (IH (visual_pos + 1) (y + item_height s) s).
    destruct (draw_loop rest _ _ total _) as [s' calls]. exact IH.
Qed.

Lemma keeps_scroll_to (v : Z) (s : ClearApp) :
  keeps s (clamp_scroll_offset (set_scroll_offset v s)).
Proof.
  destruct (clamp_scroll_offset_range (set_scroll_offset v s)) as [Hr _].
  apply keeps_list; try (unfold clamp_scroll_offset; split_ifs; reflexivity).
  - now rewrite clamp_scroll_offset_items.
  - intros _. lia.
Qed.

Lemma keeps_draw (s : ClearApp) : keeps s (fst (draw s)).
Proof.
  unfold draw. cbv zeta.
  pose proof (keeps_draw_loop (get_sorted_indices s) 0 0
                (Vec.size (get_sorted_indices s)) s) as H.
  destruct (draw_loop _ _ _ _ _) as [s' calls]. cbn [fst] in *.
  eapply keeps_trans; [exact H|]. unfold draw_editing.
  destruct (_ && visible (input_widget s')); [|apply keeps_refl].
  cbv zeta. split_ifs; try apply keeps_refl; apply keeps_scroll_to.
Qed.

Lemma keeps_handle_single_click (index : Z) (s s' : ClearApp) :
  handle_single_click index s = Some s' -> keeps s s'.
Proof.
  unfold handle_single_click. destruct (_ && (_ =? index)); [|intros [= <-]; apply keeps_refl].
  destruct (if negb _ then _ else _) as [s1|] eqn:E; [|discriminate].
  assert (keeps s s1) as H1.
  { destruct (negb _); [now apply keeps_start_editing in E|].
    injection E as <-. apply keeps_refl. }
  intros [= <-]. eapply keeps_trans; [exact H1|]. now apply keeps_same.
Qed.

Lemma toast_ok_hide_error (s : ClearApp) : toast_ok (hide_error s).
Proof.
  unfold toast_ok. cbn [hide_error error_display is_visible message remove_timeout
    set_timeouts set_error_display].
  split; [reflexivity | apply pending_hide_error].
Qed.

Lemma keeps_step (a : Action) (s s' : ClearApp) : step a s = Some s' -> keeps s s'.
Proof.
  destruct a as [event fl | new_value fl | n | | dt]; cbn [step].
  - destruct event; cbn [handle].
    + apply keeps_handle_push.
    + apply keeps_handle_drag.
    + apply keeps_handle_release.
    + unfold handle_mousewheel. cbv zeta.
      destruct (negb _); [|intros [= <-]; apply keeps_refl].
      destruct (is_int _ && is_int _); [|discriminate].
      intros [= <-]. apply keeps_scroll_to.
    + apply keeps_handle_keyboard.
    + intros [= <-]. apply keeps_refl.
  - destruct (visible _); [|discriminate].
    unfold input_callback. cbv zeta. cbn [input_widget set_input_widget visible set_value].
    assert (keeps s (set_input_widget (mkFl_Input true (Str.c_str new_value)) s)) as Htyped
      by (apply keeps_edit; try reflexivity; apply c_str_no_nul).
    destruct (negb _); [intros [= <-]; exact Htyped|].
    destruct (_ || _); [|intros [= <-]; exact Htyped].
    intros H. apply keeps_finish_editing in H.
    eapply keeps_trans; [|exact H]. exact Htyped.
  - destruct (nth_error (timeouts s) n) as [[cb t]|] eqn:En; [|discriminate].
    destruct (Qle_bool t 0); [|discriminate].
    destruct cb; cbn [run_callback].
    + intros [= <-]. unfold keeps.
      split; [reflexivity|]. split; [reflexivity|]. split; [reflexivity|].
      split; [trivial|]. split; [trivial|]. split; [|trivial].
      intros _. apply toast_ok_hide_error.
    + assert (keeps s (set_timeouts (remove_nth n (timeouts s)) s)) as H0.
      { apply keeps_same; try reflexivity.
        unfold pending. cbn [timeouts set_timeouts].
        now apply (remove_nth_filter _ _ _ _ En). }
      destruct (_ >=? 0); [|intros [= <-]; exact H0].
      intros H. apply keeps_handle_single_click in H.
      eapply keeps_trans; [exact H0 | exact H].
    + intros [= <-].
      assert (keeps s (set_timeouts (remove_nth n (timeouts s)) s)) as H0.
      { apply keeps_same; try reflexivity.
        unfold pending. cbn [timeouts set_timeouts].
        now apply (remove_nth_filter _ _ _ _ En). }
      eapply keeps_trans; [exact H0|].
      unfold enable_reorder. split_ifs; [now apply keeps_same | apply keeps_refl].
  - intros [= <-]. apply keeps_draw.
  - destruct (Qle_bool 0 dt); [|discriminate]. intros [= <-].
    unfold keeps.
    split; [reflexivity|]. split; [reflexivity|]. split; [reflexivity|].
    split; [trivial|]. split; [trivial|]. split; [|trivial].
    unfold toast_ok, pending. cbn [error_display timeouts set_timeouts].
    rewrite pending_elapse. fold (pending hide_error_cb s).
    destruct (is_visible (error_display s)).
    + intros [t ->]. now eexists.
    + intros [Hm ->]. split; [exact Hm | reflexivity].
Qed.

(** X15: the window of [main] is well formed whenever the event loop is
    idle, whatever the file held and whatever happened since: the list is
    not empty, the geometry is the one [main] chose (items 60 pixels high
    in a window of 600 by 800), the scroll offset is not negative, and the
    error message is visible exactly while one [hide_error_cb] is
    pending. *)
Theorem reachable_well_formed (s : ClearApp) : reachable s -> well_formed s.
Proof.
  induction 1 as [data_dir d y0 x0 | a s s' _ IH Hstep].
  - unfold main_window, ClearApp_new. cbv zeta.
    match goal with
    | |- context [load_from_file ?s0] => set (start := s0)
    end.
    assert (item_height start = 60 /\ win_w start = 600 /\ win_h start = 800
            /\ scroll_offset start = 0 /\ toast_ok start) as (A & B & C & D & T).
    { unfold start; destruct (data_dir =? ".")%string; repeat split. }
    destruct (load_from_file start) as [loaded s1] eqn:E.
    assert (item_height s1 = 60 /\ win_w s1 = 600 /\ win_h s1 = 800
            /\ scroll_offset s1 = 0 /\ toast_ok s1) as (A1 & B1 & C1 & D1 & T1).
    { unfold load_from_file in E. destruct (ifstream_open _).
      - cbv zeta in E. destruct (load_loop _ _ _) as [[f v] la].
        destruct (fail f && negb (eof f)); injection E as _ <-.
        + pose proof (keeps_show_error
                        ("Error reading file: " ++ data_file (set_items v (set_items [] start)))
                        (set_items v (set_items [] start))) as (_ & _ & _ & _ & _ & K6 & _).
          split; [exact A|]. split; [exact B|]. split; [exact C|]. split; [exact D|].
          apply K6. exact T.
        + repeat split; assumption.
      - injection E as _ <-. repeat split; assumption. }
    destruct (negb loaded || Vec.empty (items s1)) eqn:Ec.
    + pose proof (keeps_save_to_file (add_sample_items s1))
        as (K1 & K2 & K3 & K4 & K5 & K6 & _).
      unfold well_formed. rewrite K1, K2, K3.
      split; [apply K4; unfold add_sample_items; cbn [items set_items];
              destruct (items s1); discriminate|].
      repeat split; try assumption.
      * apply K5. cbn [scroll_offset add_sample_items set_items]. lia.
      * now apply K6.
    + apply orb_false_elim in Ec. destruct Ec as [_ Ec].
      unfold well_formed. repeat split; try assumption; [|lia].
      destruct (items s1); [discriminate | discriminate].
  - pose proof (keeps_step a s s' Hstep) as (K1 & K2 & K3 & K4 & K5 & K6 & _).
    destruct IH as (I1 & I2 & I3 & I4 & I5 & I6).
    unfold well_formed. rewrite K1, K2, K3. repeat split; auto.
Qed.

Lemma reachable_well_formed_witness : well_formed first_window.
Proof.
  apply (reachable_well_formed first_window). apply reachable_start.
Defined.

(** X26: the input widget never holds a NUL byte.  Whatever the file held
    and whatever happened since, the text in the input widget of the
    window of [main] is a C string: [start_editing] hands the widget the
    item's text up to its first NUL byte, and of what the user types the
    program sees no more.  Reading the widget into a [std::string], as
    [finish_editing] and the Escape key do, therefore drops nothing. *)
Theorem widget_holds_c_string (s : ClearApp) :
  reachable s ->
  c_string (input_widget s) /\ Str.c_str (value (input_widget s)) = value (input_widget s).
Proof.
  intros Hr. assert (c_string (input_widget s)) as Hc.
  { induction Hr as [data_dir d y0 x0 | a s s' _ IH Hstep].
    - assert (input_widget (main_window data_dir d y0 x0) = mkFl_Input false "") as ->;
        [|reflexivity].
      unfold main_window, ClearApp_new. cbv zeta.
      match goal with
      | |- context [load_from_file ?s0] =>
          assert (input_widget (snd (load_from_file s0)) = mkFl_Input false "") as Hload
      end.
      { unfold load_from_file. destruct (ifstream_open _); [|now split_ifs].
        cbv zeta. destruct (load_loop _ _ _) as [[f v] la].
        destruct (fail f && negb (eof f)); cbn [snd]; [|now split_ifs].
        unfold show_error, add_timeout, remove_timeout. now split_ifs. }
      destruct (load_from_file _) as [loaded s1]. cbn [snd] in Hload.
      destruct (negb loaded || Vec.empty (items s1)); [|exact Hload].
      now rewrite save_to_file_input_widget.
    - destruct (keeps_step a s s' Hstep) as (_ & _ & _ & _ & _ & _ & K). exact (K IH). }
  split; [exact Hc|]. now apply c_str_spec; split; [|left].
Qed.

Lemma widget_holds_c_string_witness :
  exists s,
    run [Deliver FL_PUSH (left_click 10 30 0); Deliver FL_RELEASE (left_click 10 30 0);
         Elapse 0.3; Fire 0] nul_window = Some s
    /\ map text (items s) = [("a" ++ String Str.nul "b")%string; "x"%string]
    /\ input_widget s = mkFl_Input true "a"
    /\ c_string (input_widget s).
Proof.
  destruct (run [Deliver FL_PUSH (left_click 10 30 0); Deliver FL_RELEASE (left_click 10 30 0);
                 Elapse 0.3; Fire 0] nul_window) as [s|] eqn:E;
    [|vm_compute in E; discriminate].
  exists s. split; [reflexivity|].
  split; [vm_compute in E; injection E as <-; reflexivity|].
  split; [vm_compute in E; injection E as <-; reflexivity|].
  apply (widget_holds_c_string s).
  eapply run_reachable; [apply reachable_start | exact E].
Defined.

(** ** Gestures *)

Lemma indices_where_map (p : TodoItem -> bool) (f : TodoItem -> TodoItem)
  (v : list TodoItem) (i : Z) :
  (forall x, p (f x) = p x) -> indices_where p (map f v) i = indices_where p v i.
Proof.
  intros H. revert i. induction v as [|x v IH]; intros i; [reflexivity|].
  cbn [map indices_where]. now rewrite H, IH.
Qed.

Lemma get_item_at_y_settled (y : Z) (s : ClearApp) :
  get_item_at_y y (set_items (settled (items s)) s) = get_item_at_y y s.
Proof.
  unfold get_item_at_y, get_sorted_indices, settled. cbn [items set_items scroll_offset item_height].
  now rewrite !indices_where_map by reflexivity.
Qed.

Lemma at_settled (v : list TodoItem) (i : Z) (item : TodoItem) :
  Vec.at_ v i = Some item -> Vec.at_ (settled v) i = Some (set_swipe_offset 0 item).
Proof.
  unfold Vec.at_, settled. destruct (i <? 0); [discriminate|].
  intros H. now rewrite nth_error_map, H.
Qed.

Lemma persisted_settled (v : list TodoItem) : map persisted (settled v) = map persisted v.
Proof. apply persisted_reset. Qed.

(** The left button going down on an item while nothing is edited. *)
Lemma press_on_item (x y i clicks : Z) (s : ClearApp) :
  editing_index s < 0 -> get_item_at_y y s = i -> 0 <= i ->
  handle_push (left_click x y clicks) s = Some (pressed x y i s).
Proof.
  intros He Hi Hi0. unfold handle_push. cbv zeta.
  cbn [event_x event_y event_button left_click].
  assert ((editing_index s >=? 0) = false) as -> by lia. cbn [andb].
  fold (settled (items s)). rewrite get_item_at_y_settled, Hi.
  assert ((i >=? 0) = true) as -> by lia.
  reflexivity.
Qed.

Lemma at_last {A : Type} (l : list A) (x : A) : nth_error (l ++ [x]) (List.length l) = Some x.
Proof. rewrite nth_error_app2 by lia. now rewrite Nat.sub_diag. Qed.

Lemma remove_last {A : Type} (l : list A) (x : A) : remove_nth (List.length l) (l ++ [x]) = l.
Proof.
  unfold remove_nth. rewrite firstn_app, Nat.sub_diag, firstn_all. cbn [firstn].
  rewrite skipn_all2 by (rewrite length_app; cbn; lia). now rewrite !app_nil_r.
Qed.

Lemma release_pressed (x y i : Z) (s : ClearApp) :
  remove_timeout long_press_timeout_cb (pressed x y i s)
  = set_timeouts (other_timers s) (pressed x y i s).
Proof.
  unfold remove_timeout, other_timers. f_equal.
  unfold pressed, add_timeout. cbn [timeouts set_timeouts].
  rewrite filter_app. cbn [filter fst Callback_eqb negb]. now rewrite app_nil_r.
Qed.

(** The button coming up in place after [press_on_item], as the first
    click of a series. *)
Lemma click_on_item (x y x' y' i : Z) (s : ClearApp) :
  0 <= i -> Z.abs (x' - x) < 5 -> Z.abs (y' - y) < 5 ->
  handle_release (left_click x' y' 0) (pressed x y i s) = Some (clicked x y i s).
Proof.
  intros Hi Hx Hy. unfold handle_release. cbv zeta. rewrite release_pressed.
  cbn -[Z.mul Z.add Z.sub Z.abs Z.ltb Z.gtb Z.geb other_timers].
  assert ((i >=? 0) = true) as -> by lia.
  assert ((Z.abs (x' - x) <? 5) = true) as -> by lia.
  assert ((Z.abs (y' - y) <? 5) = true) as -> by lia.
  reflexivity.
Qed.

(** The double-click timer of [clicked] running out. *)
Lemma click_timer_fires (x y i : Z) (s : ClearApp) (item : TodoItem) :
  editing_index s < 0 -> Vec.at_ (items s) i = Some item ->
  exists s2,
    run [Elapse 0.3; Fire (List.length (other_timers s))] (clicked x y i s) = Some s2
    /\ editing_index s2 = i
    /\ input_widget s2 = mkFl_Input true (Str.c_str (text item))
    /\ pending_click_index s2 = -1
    /\ items s2 = settled (items s).
Proof.
  intros He Hitem. pose proof (at_some_range _ _ _ Hitem) as Hr.
  remember (clicked x y i s) as c eqn:Ec.
  assert (timeouts c = other_timers s ++ [(click_timeout_cb, 0.3%Q)]) as Ht by now subst c.
  assert (items c = settled (items s)) as Hitems by now subst c.
  assert (editing_index c = editing_index s) as Hedit by now subst c.
  assert (pending_click_index c = i) as Hpend by now subst c.
  clear Ec. cbn [run step].
  change (Qle_bool 0 0.3) with true. cbv iota.
  cbn [timeouts set_timeouts]. rewrite Ht, map_app. cbn [map fst snd].
  rewrite <- (length_map (fun e => (fst e, (snd e - 0.3)%Q)) (other_timers s)).
  rewrite at_last, remove_last.
  change (Qle_bool (0.3 - 0.3) 0) with true. cbv iota.
  cbn [run_callback pending_click_index set_timeouts]. rewrite Hpend.
  assert ((i >=? 0) = true) as -> by lia.
  unfold handle_single_click.
  cbn [items set_timeouts pending_click_index editing_index]. rewrite Hpend, Hitems, Hedit.
  assert (Vec.size (settled (items s)) = Vec.size (items s)) as ->
    by (unfold Vec.size, settled; now rewrite length_map).
  assert ((i >=? 0) && (i <? Vec.size (items s)) && (i =? i) = true) as -> by lia.
  assert (negb (editing_index s =? i) = true) as -> by lia.
  unfold start_editing.
  erewrite start_editing_with_result;
    [| left; cbn [editing_index set_timeouts]; rewrite Hedit; exact He
     | cbn [items set_timeouts]; rewrite Hitems; apply (at_settled _ _ _ Hitem)].
  eexists. split; [reflexivity|].
  cbn [editing_index input_widget pending_click_index items set_pending_click_index
       set_input_widget set_editing_text set_editing_index set_timeouts text set_swipe_offset].
  repeat split. exact Hitems.
Qed.

(** X16: a click edits after the double-click delay.  With nothing being
    edited, pressing the left button on an item and releasing it less than
    5 pixels away starts nothing at once: the click is only noted and a
    0.3 second timer started.  When the timer fires the item is being
    edited, the input widget shows its text up to the first NUL byte, and
    texts and flags of the list are as before. *)
Theorem single_click_starts_editing (s : ClearApp) (x y x' y' i : Z) (item : TodoItem) :
  editing_index s < 0 ->
  get_item_at_y y s = i ->
  Vec.at_ (items s) i = Some item ->
  Z.abs (x' - x) < 5 -> Z.abs (y' - y) < 5 ->
  exists s1 n s2,
    run [Deliver FL_PUSH (left_click x y 0); Deliver FL_RELEASE (left_click x' y' 0)] s
    = Some s1
    /\ editing_index s1 < 0 /\ pending_click_index s1 = i
    /\ nth_error (timeouts s1) n = Some (click_timeout_cb, 0.3%Q)
    /\ run [Elapse 0.3; Fire n] s1 = Some s2
    /\ editing_index s2 = i
    /\ input_widget s2 = mkFl_Input true (Str.c_str (text item))
    /\ pending_click_index s2 = -1
    /\ map persisted (items s2) = map persisted (items s).
Proof.
  intros He Hi Hitem Hx Hy. pose proof (at_some_range _ _ _ Hitem) as Hr.
  destruct (click_timer_fires x y i s item He Hitem) as (s2 & Hrun & H1 & H2 & H3 & H4).
  exists (clicked x y i s), (List.length (other_timers s)), s2.
  split.
  { cbn [run step handle]. rewrite (press_on_item x y i 0 s He Hi) by lia.
    cbn [run step handle].
    now rewrite (click_on_item x y x' y' i s) by lia. }
  split; [exact He|]. split; [reflexivity|].
  split; [apply (at_last (other_timers s))|].
  split; [exact Hrun|].
  repeat split; trivial. rewrite H4. apply persisted_settled.
Qed.

Lemma single_click_starts_editing_witness :
  exists s1 n s2,
    run [Deliver FL_PUSH (left_click 50 130 0); Deliver FL_RELEASE (left_click 51 129 0)]
      first_window = Some s1
    /\ run [Elapse 0.3; Fire n] s1 = Some s2
    /\ editing_index s2 = 2
    /\ input_widget s2 = mkFl_Input true "Click to edit task".
Proof.
  destruct (single_click_starts_editing first_window 50 130 51 129 2
              (TodoItem_new "Click to edit task"))
    as (s1 & n & s2 & H1 & _ & _ & _ & H2 & He & Hw & _);
    try reflexivity; try (cbn; lia).
  exists s1, n, s2. repeat split; assumption.
Defined.

Lemma indices_where_same (p : TodoItem -> bool) (v v' : list TodoItem) (i : Z) :
  (forall a b, completed a = completed b -> p a = p b) ->
  map completed v' = map completed v -> indices_where p v' i = indices_where p v i.
Proof.
  intros Hp. revert v' i. induction v as [|a v IH]; intros [|b v'] i H; try discriminate.
  - reflexivity.
  - cbn [map] in H. injection H as Hab Hrest. cbn [indices_where].
    now rewrite (Hp b a Hab), (IH v' (i + 1) Hrest).
Qed.

(** The hit test reads the completion flags, the scroll offset and the
    item height, and nothing else. *)
Lemma get_item_at_y_same (y : Z) (s s' : ClearApp) :
  map completed (items s') = map completed (items s) ->
  scroll_offset s' = scroll_offset s -> item_height s' = item_height s ->
  get_item_at_y y s' = get_item_at_y y s.
Proof.
  intros Hc Hs Hh. unfold get_item_at_y, get_sorted_indices. rewrite Hs, Hh.
  rewrite (indices_where_same (fun item => negb (completed item)) _ _ 0
             ltac:(intros a b E; cbn beta; now rewrite E) Hc).
  now rewrite (indices_where_same completed _ _ 0 ltac:(intros a b E; exact E) Hc).
Qed.

Lemma completed_settled (v : list TodoItem) : map completed (settled v) = map completed v.
Proof. unfold settled. rewrite map_map. apply map_ext. reflexivity. Qed.

Lemma settled_twice (v : list TodoItem) : settled (settled v) = settled v.
Proof. unfold settled. rewrite map_map. apply map_ext. reflexivity. Qed.

Lemma size_settled (v : list TodoItem) : Vec.size (settled v) = Vec.size v.
Proof. unfold Vec.size, settled. now rewrite length_map. Qed.

Lemma update_map_with {A B : Type} (g : A -> B) (h : B -> B) (v v' : list A) (i : Z)
  (f : A -> A) :
  (forall x, g (f x) = h (g x)) -> Vec.update v i f = Some v' ->
  Vec.update (map g v) i h = Some (map g v').
Proof.
  intros Hg. unfold Vec.update, Vec.at_. destruct (i <? 0); [discriminate|].
  rewrite nth_error_map. destruct (nth_error v (Z.to_nat i)) as [x|]; [|discriminate].
  intros [= <-]. cbn [option_map]. rewrite map_app. cbn [map].
  now rewrite firstn_map, skipn_map, Hg.
Qed.

(** What [toggle_complete] returns for an index in the list. *)
Lemma toggle_complete_result (index : Z) (s : ClearApp) (item : TodoItem) :
  Vec.at_ (items s) index = Some item ->
  exists v d e t,
    Vec.update (items s) index (fun item => set_completed (negb (completed item)) item) = Some v
    /\ toggle_complete index s = set_timeouts t (set_error_display e (set_disk d (set_items v s))).
Proof.
  intros Hitem. pose proof (at_some_range _ _ _ Hitem) as Hr.
  destruct (update_some (items s) index
              (fun item => set_completed (negb (completed item)) item) Hr) as (x & _ & Hu).
  unfold toggle_complete.
  assert ((index >=? 0) && (index <? Vec.size (items s)) = true) as -> by lia.
  rewrite Hu.
  destruct (save_to_file_frame
              (set_items (firstn (Z.to_nat index) (items s)
                          ++ set_completed (negb (completed x)) x
                             :: skipn (S (Z.to_nat index)) (items s)) s))
    as (d & e & t & ->).
  eexists. exists d, e, t. split; reflexivity.
Qed.

Lemma toggle_complete_flipped (index : Z) (s : ClearApp) (item : TodoItem)
  (saved : list (string * bool)) :
  Vec.at_ (items s) index = Some item -> map persisted (items s) = saved ->
  Vec.update saved index flipped = Some (map persisted (items (toggle_complete index s))).
Proof.
  intros Hitem <-. destruct (toggle_complete_result index s item Hitem)
    as (v & d & e & t & Hu & ->).
  cbn [items set_timeouts set_error_display set_disk set_items].
  eapply update_map_with; [|exact Hu]. reflexivity.
Qed.

(** The button coming up in place after [press_on_item], as a further
    click of a series. *)
Lemma click_again_on_item (x y x' y' i clicks : Z) (s : ClearApp) :
  editing_index s < 0 -> 0 <= i -> 0 < clicks ->
  Z.abs (x' - x) < 5 -> Z.abs (y' - y) < 5 ->
  handle_release (left_click x' y' clicks) (pressed x y i s)
  = Some (pressed x y i s
            |> set_timeouts (other_timers s)
            |> toggle_complete i
            |> set_is_dragging false
            |> set_is_swiping false
            |> set_can_reorder false).
Proof.
  intros He Hi Hc Hx Hy. unfold handle_release. cbv zeta. rewrite release_pressed.
  cbn -[Z.mul Z.add Z.sub Z.abs Z.ltb Z.gtb Z.geb other_timers toggle_complete].
  assert ((i >=? 0) = true) as -> by lia.
  assert ((Z.abs (x' - x) <? 5) = true) as -> by lia.
  assert ((Z.abs (y' - y) <? 5) = true) as -> by lia.
  assert ((clicks >? 0) = true) as -> by lia.
  change (-1 >=? 0) with false.
  cbn -[Z.mul Z.add Z.sub Z.abs Z.ltb Z.gtb Z.geb other_timers toggle_complete].
  assert ((editing_index s <? 0) = true) as -> by lia.
  reflexivity.
Qed.

(** A timer that runs out while no click is pending changes neither the
    list nor what is edited. *)
Lemma fire_without_pending_click (n : nat) (s s' : ClearApp) :
  pending_click_index s = -1 -> step (Fire n) s = Some s' ->
  items s' = items s /\ editing_index s' = editing_index s.
Proof.
  intros Hp. cbn [step]. destruct (nth_error (timeouts s) n) as [[cb t]|]; [|discriminate].
  destruct (Qle_bool t 0); [|discriminate].
  destruct cb; cbn [run_callback pending_click_index set_timeouts].
  - intros [= <-]. split; reflexivity.
  - rewrite Hp. cbn. intros [= <-]. split; reflexivity.
  - intros [= <-]. unfold enable_reorder.
    destruct (selected_index _ >=? 0); split; reflexivity.
Qed.

Lemma timer_without_pending_click (dt : Q) (n : nat) (s s' : ClearApp) :
  pending_click_index s = -1 -> run [Elapse dt; Fire n] s = Some s' ->
  items s' = items s /\ editing_index s' = editing_index s.
Proof.
  intros Hp. cbn [run]. destruct (step (Elapse dt) s) as [s1|] eqn:H1; [|discriminate].
  destruct (step (Fire n) s1) as [s2|] eqn:H2; [|discriminate]. intros [= <-].
  cbn [step] in H1. destruct (Qle_bool 0 dt); [|discriminate]. injection H1 as <-.
  apply fire_without_pending_click in H2; [|exact Hp]. exact H2.
Qed.

(** X17: a double click completes and does not edit.  With nothing being
    edited, two clicks on the same item, the second one counted by FLTK
    as a further click of the series, toggle the completion flag of that
    item and nothing else in what is saved; no click stays pending, so
    whichever timer runs out afterwards starts no edit and leaves the list
    alone. *)
Theorem double_click_toggles_completion (s : ClearApp) (x y x1 y1 x2 y2 x3 y3 i clicks : Z)
  (item : TodoItem) :
  editing_index s < 0 ->
  get_item_at_y y s = i -> get_item_at_y y2 s = i ->
  Vec.at_ (items s) i = Some item ->
  Z.abs (x1 - x) < 5 -> Z.abs (y1 - y) < 5 ->
  Z.abs (x3 - x2) < 5 -> Z.abs (y3 - y2) < 5 ->
  0 < clicks ->
  exists s',
    run [Deliver FL_PUSH (left_click x y 0); Deliver FL_RELEASE (left_click x1 y1 0);
         Deliver FL_PUSH (left_click x2 y2 clicks);
         Deliver FL_RELEASE (left_click x3 y3 clicks)] s = Some s'
    /\ Vec.update (map persisted (items s)) i flipped = Some (map persisted (items s'))
    /\ editing_index s' < 0
    /\ pending_click_index s' = -1
    /\ forall n s'', run [Elapse 0.3; Fire n] s' = Some s'' ->
                     items s'' = items s' /\ editing_index s'' < 0.
Proof.
  intros He Hi Hi2 Hitem Hx1 Hy1 Hx3 Hy3 Hc.
  pose proof (at_some_range _ _ _ Hitem) as Hr.
  set (c := clicked x y i s).
  assert (editing_index c < 0) as Hec by exact He.
  assert (get_item_at_y y2 c = i) as Hic.
  { rewrite <- Hi2. apply get_item_at_y_same; try reflexivity.
    apply (completed_settled (items s)). }
  set (p := set_timeouts (other_timers c) (pressed x2 y2 i c)).
  assert (Vec.at_ (items p) i = Some (set_swipe_offset 0 item)) as Hp.
  { change (items p) with (settled (settled (items s))). rewrite settled_twice.
    apply (at_settled _ _ _ Hitem). }
  destruct (toggle_complete_result i p _ Hp) as (v & d & e & t & Hu & Ht).
  eexists. split.
  { cbn [run step handle]. rewrite (press_on_item x y i 0 s He Hi) by lia.
    cbn [run step handle]. rewrite (click_on_item x y x1 y1 i s) by lia.
    cbn [run step handle]. fold c. rewrite (press_on_item x2 y2 i clicks c Hec Hic) by lia.
    cbn [run step handle].
    rewrite (click_again_on_item x2 y2 x3 y3 i clicks c Hec) by lia.
    reflexivity. }
  fold p.
  assert (map persisted (items p) = map persisted (items s)) as Hsaved.
  { change (items p) with (settled (settled (items s))).
    now rewrite settled_twice, persisted_settled. }
  split.
  { cbn [items set_is_dragging set_is_swiping set_can_reorder].
    apply (toggle_complete_flipped i p _ _ Hp Hsaved). }
  rewrite Ht.
  split; [exact He|]. split; [reflexivity|].
  intros n s'' Hrun. apply timer_without_pending_click in Hrun; [|reflexivity].
  destruct Hrun as [Hit Hed]. rewrite Hit, Hed. split; [reflexivity | exact He].
Qed.

Lemma double_click_toggles_completion_witness :
  exists s',
    run [Deliver FL_PUSH (left_click 50 130 0); Deliver FL_RELEASE (left_click 50 130 0);
         Deliver FL_PUSH (left_click 50 130 1);
         Deliver FL_RELEASE (left_click 50 130 1)] first_window = Some s'
    /\ map completed (items s') = [false; false; true; false; false; false].
Proof.
  destruct (double_click_toggles_completion first_window 50 130 50 130 50 130 50 130 2 1
              (TodoItem_new "Click to edit task"))
    as (s' & Hrun & Hu & _); try reflexivity; try (cbn; lia).
  exists s'. split; [exact Hrun|].
  injection Hu as Hu.
  rewrite <- (map_map persisted snd), <- Hu. reflexivity.
Defined.

(** ** Swipes *)

Lemma update_same_twice {A : Type} (v u : list A) (i : Z) (f : A -> A) :
  (forall x, f (f x) = f x) -> Vec.update v i f = Some u -> Vec.update u i f = Some u.
Proof.
  intros Hf Hu. destruct (Vec.at_ v i) as [x|] eqn:Hx.
  - rewrite (update_twice v u i f f x Hx Hu), Hf.
    unfold Vec.update in Hu. rewrite Hx in Hu. exact Hu.
  - unfold Vec.update in Hu. rewrite Hx in Hu. discriminate.
Qed.

(** A mostly horizontal move of more than 10 pixels after [press_on_item]:
    the item follows the pointer. *)
Lemma swipe_on_item (x y x1 y1 i clicks : Z) (s : ClearApp) (u : list TodoItem) :
  0 <= i ->
  Vec.update (settled (items s)) i (set_swipe_offset (x1 - x)) = Some u ->
  Z.abs (x1 - x) > 10 -> Z.abs (x1 - x) > Z.abs (y1 - y) ->
  ~ (y1 - y > 20 /\ Z.abs (x1 - x) < 30) ->
  handle_drag (left_click x1 y1 clicks) (pressed x y i s)
  = Some (pressed x y i s |> set_is_swiping true |> set_is_dragging true
            |> set_items u |> set_items u).
Proof.
  intros Hi Hu Hdx Hdy Hpull.
  pose proof (update_same_twice _ _ _ (set_swipe_offset (x1 - x)) (fun _ => eq_refl) Hu) as Hu2.
  unfold handle_drag, drag_selected. cbv zeta.
  cbn -[Z.mul Z.add Z.sub Z.abs Z.ltb Z.gtb Z.geb Vec.update settled].
  assert ((i >=? 0) = true) as -> by lia.
  assert ((y1 - y >? 20) && (Z.abs (x1 - x) <? 30) = false) as -> by lia.
  assert ((Z.abs (x1 - x) >? 10) && (Z.abs (x1 - x) >? Z.abs (y1 - y)) = true) as -> by lia.
  fold (settled (items s)). rewrite Hu.
  cbn -[Z.mul Z.add Z.sub Z.abs Z.ltb Z.gtb Z.geb Vec.update settled].
  rewrite Hu2. reflexivity.
Qed.

(** What the block "Handle swipe based on direction" does to what is
    saved of the list: far enough to the left the selected item is
    deleted, far enough to the right its completion is toggled, and
    otherwise nothing changes. *)
Lemma release_swipe_result (s : ClearApp) (item : TodoItem) :
  Vec.at_ (items s) (selected_index s) = Some item ->
  exists s',
    release_swipe s = Some s'
    /\ (10 * swipe_offset item < - (3 * win_w s) ->
        map persisted (items s')
        = if Vec.empty (Vec.erase (items s) (selected_index s)) then [(""%string, false)]
          else Vec.erase (map persisted (items s)) (selected_index s))
    /\ (3 * win_w s < 10 * swipe_offset item ->
        - (3 * win_w s) <= 10 * swipe_offset item ->
        Vec.update (map persisted (items s)) (selected_index s) flipped
        = Some (map persisted (items s')))
    /\ (- (3 * win_w s) <= 10 * swipe_offset item <= 3 * win_w s ->
        map persisted (items s') = map persisted (items s)).
Proof.
  intros Hitem. pose proof (at_some_range _ _ _ Hitem) as Hr.
  unfold release_swipe. rewrite Hitem. cbv zeta.
  destruct (10 * swipe_offset item <? - (3 * win_w s)) eqn:Hleft.
  - set (s0 := if editing_index s =? selected_index s
               then s |> set_editing_index (-1) |> set_editing_text "" else s).
    assert (items s0 = items s /\ selected_index s0 = selected_index s) as [Hi0 Hs0]
      by (unfold s0; destruct (editing_index s =? selected_index s); split; reflexivity).
    rewrite Hs0.
    destruct (delete_item_result (selected_index s) s0 ltac:(rewrite Hi0; exact Hr))
      as (s' & -> & Hitems & Hsaved & _).
    exists s'. split; [reflexivity|]. rewrite Hi0 in Hitems, Hsaved.
    split; [|split; intros; lia].
    intros _. destruct (Vec.empty (Vec.erase (items s) (selected_index s))).
    + rewrite Hitems. reflexivity.
    + now apply Hsaved.
  - destruct (10 * swipe_offset item >? 3 * win_w s) eqn:Hright.
    + destruct (toggle_complete_result (selected_index s) s item Hitem)
        as (v & d & e & t & Hv & ->).
      cbn [items selected_index set_timeouts set_error_display set_disk set_items].
      pose proof (update_length _ _ _ _ Hv) as Hlen.
      destruct (update_some v (selected_index s) (set_swipe_offset 0)
                  ltac:(unfold Vec.size in *; lia)) as (x' & _ & Hu).
      rewrite Hu. eexists. split; [reflexivity|].
      cbn [items set_items].
      split; [intros; lia|]. split; [|intros; lia].
      intros _ _.
      rewrite (update_map persisted _ _ _ (set_swipe_offset 0) ltac:(reflexivity) Hu).
      eapply update_map_with; [|exact Hv]. reflexivity.
    + destruct (update_some (items s) (selected_index s) (set_swipe_offset 0) Hr)
        as (x' & _ & Hu).
      rewrite Hu. eexists. split; [reflexivity|]. cbn [items set_items].
      split; [intros; lia|]. split; [intros; lia|]. intros _.
      apply (update_map persisted _ _ _ (set_swipe_offset 0) ltac:(reflexivity) Hu).
Qed.

(** X18: a swipe far enough completes or deletes.  With nothing being
    edited, pressing on an item, moving the pointer more than 10 pixels
    sideways (more than up or down, and not the move that starts
    pull-to-add) and releasing does this to what is saved of the list:
    a move to the right of more than three tenths of the window width
    toggles the completion of the item; the same to the left deletes the
    item, an empty item taking its place when it was the only one; a
    shorter move changes nothing.  No swipe or drag is left active. *)
Theorem swipe_completes_or_deletes (s : ClearApp) (x y x1 y1 x2 y2 i : Z) (item : TodoItem) :
  editing_index s < 0 -> 0 <= win_w s ->
  get_item_at_y y s = i ->
  Vec.at_ (items s) i = Some item ->
  Z.abs (x1 - x) > 10 -> Z.abs (x1 - x) > Z.abs (y1 - y) ->
  ~ (y1 - y > 20 /\ Z.abs (x1 - x) < 30) ->
  exists s',
    run [Deliver FL_PUSH (left_click x y 0); Deliver FL_DRAG (left_click x1 y1 0);
         Deliver FL_RELEASE (left_click x2 y2 0)] s = Some s'
    /\ (3 * win_w s < 10 * (x1 - x) ->
        Vec.update (map persisted (items s)) i flipped = Some (map persisted (items s')))
    /\ (10 * (x1 - x) < - (3 * win_w s) ->
        map persisted (items s')
        = if Vec.size (items s) <=? 1 then [(""%string, false)]
          else Vec.erase (map persisted (items s)) i)
    /\ (- (3 * win_w s) <= 10 * (x1 - x) <= 3 * win_w s ->
        map persisted (items s') = map persisted (items s))
    /\ is_swiping s' = false /\ is_dragging s' = false /\ can_reorder s' = false.
Proof.
  intros He Hw Hi Hitem Hdx Hdy Hpull. pose proof (at_some_range _ _ _ Hitem) as Hr.
  pose proof (at_settled _ _ _ Hitem) as Hitem0.
  destruct (update_some (settled (items s)) i (set_swipe_offset (x1 - x))
              ltac:(rewrite size_settled; exact Hr)) as (x0 & Hx0 & Hu).
  remember (firstn (Z.to_nat i) (settled (items s))
            ++ set_swipe_offset (x1 - x) x0 :: skipn (S (Z.to_nat i)) (settled (items s)))
    as u eqn:Eu.
  pose proof (update_at_same _ _ _ _ _ Hx0 Hu) as Hat.
  assert (map persisted u = map persisted (items s)) as Hsaved.
  { rewrite (update_map persisted _ _ _ (set_swipe_offset (x1 - x)) (fun _ => eq_refl) Hu).
    apply persisted_settled. }
  set (d := pressed x y i s |> set_is_swiping true |> set_is_dragging true
              |> set_items u |> set_items u).
  set (r := set_timeouts (other_timers s) d).
  assert (remove_timeout long_press_timeout_cb d = r) as Hremove.
  { unfold remove_timeout, r, other_timers. f_equal.
    change (timeouts d) with (timeouts s ++ [(long_press_timeout_cb, 0.3%Q)]).
    rewrite filter_app. cbn [filter fst Callback_eqb negb]. now rewrite app_nil_r. }
  assert (Vec.at_ (items r) (selected_index r) = Some (set_swipe_offset (x1 - x) x0)) as Hsel
    by exact Hat.
  destruct (release_swipe_result r _ Hsel) as (s1 & Hs1 & Hleft & Hright & Hback).
  change (swipe_offset (set_swipe_offset (x1 - x) x0)) with (x1 - x) in *.
  change (win_w r) with (win_w s) in *.
  change (items r) with u in *. change (selected_index r) with i in *.
  rewrite Hsaved in *.
  exists (s1 |> set_is_dragging false |> set_is_swiping false |> set_can_reorder false).
  split.
  { cbn [run step handle]. rewrite (press_on_item x y i 0 s He Hi) by lia.
    cbn [run step handle]. rewrite (swipe_on_item x y x1 y1 i 0 s u (proj1 Hr) Hu Hdx Hdy Hpull).
    cbn [run step handle]. fold d. unfold handle_release. cbv zeta. rewrite Hremove.
    change (is_pulling_down r) with false.
    change (is_dragging r) with true. change (selected_index r) with i.
    change (can_reorder r) with false. change (is_swiping r) with true.
    assert ((i >=? 0) = true) as -> by lia. cbn [andb]. now rewrite Hs1. }
  cbn [items is_swiping is_dragging can_reorder set_is_dragging set_is_swiping set_can_reorder].
  split; [intros H; apply Hright; lia|].
  split.
  { intros H. rewrite (Hleft H).
    pose proof (erase_length _ _ _ Hat) as Hlen.
    assert (List.length u = List.length (items s)) as Hlu
      by (rewrite <- (length_map persisted u), Hsaved; apply length_map).
    unfold Vec.size.
    destruct (Vec.erase u i) as [|a rest]; cbn [List.length Vec.empty] in *.
    - assert ((Z.of_nat (List.length (items s)) <=? 1) = true) as -> by lia. reflexivity.
    - assert ((Z.of_nat (List.length (items s)) <=? 1) = false) as -> by lia. reflexivity. }
  split; [exact Hback|]. repeat split.
Qed.

Lemma swipe_completes_or_deletes_witness :
  exists s',
    run [Deliver FL_PUSH (left_click 100 90 0); Deliver FL_DRAG (left_click 300 95 0);
         Deliver FL_RELEASE (left_click 300 95 0)] first_window = Some s'
    /\ map completed (items s') = [false; true; false; false; false; false].
Proof.
  destruct (swipe_completes_or_deletes first_window 100 90 300 95 300 95 1
              (TodoItem_new "Pull down to add new task"))
    as (s' & Hrun & Hu & _); try reflexivity; try (cbn; lia).
  exists s'. split; [exact Hrun|].
  specialize (Hu ltac:(cbn; lia)). injection Hu as Hu.
  rewrite <- (map_map persisted snd), <- Hu. reflexivity.
Defined.

(** ** Pull to add *)

Lemma other_timers_pressed (x y i : Z) (s : ClearApp) :
  filter (fun e => negb (Callback_eqb (fst e) long_press_timeout_cb))
    (timeouts s ++ [(long_press_timeout_cb, 0.3%Q)]) = other_timers s.
Proof.
  unfold other_timers. rewrite filter_app. cbn [filter fst Callback_eqb negb].
  now rewrite app_nil_r.
Qed.

(** A move down of more than 20 pixels, less than 30 sideways, after
    [press_on_item]: the press turns into pull-to-add. *)
Lemma pull_on_item (x y x1 y1 i clicks : Z) (s : ClearApp) :
  0 <= i -> y1 - y > 20 -> Z.abs (x1 - x) < 30 ->
  handle_drag (left_click x1 y1 clicks) (pressed x y i s)
  = Some (pressed x y i s
            |> set_timeouts (other_timers s)
            |> set_is_pulling_down true
            |> set_is_dragging true
            |> set_selected_index (-1)
            |> set_pull_down_offset (y1 - y)).
Proof.
  intros Hi Hdy Hdx. unfold handle_drag, drag_selected, remove_timeout. cbv zeta.
  cbn -[Z.mul Z.add Z.sub Z.abs Z.ltb Z.gtb Z.geb Vec.update settled filter].
  assert ((i >=? 0) = true) as -> by lia.
  assert ((y1 - y >? 20) && (Z.abs (x1 - x) <? 30) = true) as -> by lia.
  cbn -[Z.mul Z.add Z.sub Z.abs Z.ltb Z.gtb Z.geb Vec.update settled filter].
  rewrite (other_timers_pressed x y i s). reflexivity.
Qed.

(** X19: pulling down adds an item.  With nothing being edited, pressing
    on an item and moving the pointer down by more than 20 pixels (less
    than 30 sideways) pulls the list down.  Releasing after a pull of
    more than six tenths of the item height puts a new empty item in front
    of the list, which is otherwise unchanged, and starts editing it at
    the top of the list; releasing earlier only resets the swipe offsets.
    Pull-down mode is over either way. *)
Theorem pull_down_adds_item (s : ClearApp) (x y x1 y1 x2 y2 i : Z) :
  editing_index s < 0 ->
  get_item_at_y y s = i -> 0 <= i ->
  y1 - y > 20 -> Z.abs (x1 - x) < 30 ->
  exists s',
    run [Deliver FL_PUSH (left_click x y 0); Deliver FL_DRAG (left_click x1 y1 0);
         Deliver FL_RELEASE (left_click x2 y2 0)] s = Some s'
    /\ (5 * (y1 - y) > 3 * item_height s ->
        items s' = TodoItem_new "" :: settled (items s)
        /\ editing_index s' = 0 /\ input_widget s' = mkFl_Input true ""
        /\ scroll_offset s' = 0)
    /\ (5 * (y1 - y) <= 3 * item_height s ->
        items s' = settled (items s) /\ editing_index s' = editing_index s
        /\ scroll_offset s' = scroll_offset s)
    /\ is_pulling_down s' = false /\ pull_down_offset s' = 0 /\ is_dragging s' = false.
Proof.
  intros He Hi Hi0 Hdy Hdx.
  set (d := pressed x y i s
              |> set_timeouts (other_timers s)
              |> set_is_pulling_down true
              |> set_is_dragging true
              |> set_selected_index (-1)
              |> set_pull_down_offset (y1 - y)).
  set (r := remove_timeout long_press_timeout_cb d).
  assert (editing_index r < 0) as Her by exact He.
  destruct (add_item_result "" r)
    as (s1 & rest & Hadd & Hitems & Hrest & Hedit & _ & Hwidget & Hscroll & Hpull & Hoff).
  specialize (Hrest Her). change (items r) with (settled (items s)) in Hrest. subst rest.
  assert (run [Deliver FL_PUSH (left_click x y 0); Deliver FL_DRAG (left_click x1 y1 0);
               Deliver FL_RELEASE (left_click x2 y2 0)] s
          = do s1 <- (if 5 * (y1 - y) >? 3 * item_height s then add_item "" r
                      else Some (r |> set_pull_down_offset 0 |> set_is_pulling_down false));
            Some (s1 |> set_is_dragging false |> set_is_swiping false |> set_can_reorder false))
    as Hrun.
  { cbn [run step handle]. rewrite (press_on_item x y i 0 s He Hi Hi0).
    cbn [run step handle]. rewrite (pull_on_item x y x1 y1 i 0 s Hi0 Hdy Hdx).
    cbn [run step handle]. fold d. unfold handle_release. cbv zeta. fold r.
    change (is_pulling_down r) with true. cbv iota.
    change (pull_down_offset r) with (y1 - y). change (item_height r) with (item_height s).
    destruct (5 * (y1 - y) >? 3 * item_height s); [now destruct (add_item "" r)|reflexivity]. }
  rewrite Hrun. destruct (5 * (y1 - y) >? 3 * item_height s) eqn:Hfar.
  - rewrite Hadd. eexists. split; [reflexivity|].
    cbn [items editing_index input_widget scroll_offset is_pulling_down pull_down_offset
         is_dragging set_is_dragging set_is_swiping set_can_reorder].
    split; [intros _; repeat split; assumption|].
    split; [intros; lia|]. repeat split; assumption.
  - eexists. split; [reflexivity|].
    split; [intros; lia|]. split; [intros _|]; repeat split.
Qed.

Lemma pull_down_adds_item_witness :
  exists s',
    run [Deliver FL_PUSH (left_click 100 30 0); Deliver FL_DRAG (left_click 100 80 0);
         Deliver FL_RELEASE (left_click 100 80 0)] first_window = Some s'
    /\ List.length (items s') = 7%nat /\ editing_index s' = 0.
Proof.
  destruct (pull_down_adds_item first_window 100 30 100 80 100 80 0)
    as (s' & Hrun & Hadd & _); try reflexivity; try (cbn; lia).
  exists s'. split; [exact Hrun|].
  destruct (Hadd ltac:(cbn; lia)) as (Hitems & Hedit & _).
  rewrite Hitems. split; [reflexivity | exact Hedit].
Defined.

(** ** Deleting, reordering, cancelling *)

(** What is saved of the list after [delete_item] at an index in it. *)
Lemma delete_item_saved (index : Z) (s : ClearApp) (item : TodoItem) :
  Vec.at_ (items s) index = Some item ->
  exists s', delete_item index s = Some s'
             /\ map persisted (items s')
                = if Vec.size (items s) <=? 1 then [(""%string, false)]
                  else Vec.erase (map persisted (items s)) index.
Proof.
  intros Hitem. pose proof (at_some_range _ _ _ Hitem) as Hr.
  destruct (delete_item_result index s Hr) as (s' & Hs' & Hitems & Hsaved & _).
  exists s'. split; [exact Hs'|].
  pose proof (erase_length _ _ _ Hitem) as Hlen. unfold Vec.size.
  destruct (Vec.erase (items s) index) as [|a rest]; cbn [List.length Vec.empty] in *.
  - assert ((Z.of_nat (List.length (items s)) <=? 1) = true) as -> by lia.
    now rewrite Hitems.
  - assert ((Z.of_nat (List.length (items s)) <=? 1) = false) as -> by lia.
    now apply Hsaved.
Qed.

(** X20: the right button and the Delete key delete.  With nothing being
    edited, pressing the right button on an item deletes that item, and
    the Delete key deletes the selected item and clears the selection.
    What is saved of the other items keeps its order; when the deleted
    item was the only one, an empty item takes its place. *)
Theorem right_click_and_delete_key (s : ClearApp) :
  editing_index s < 0 ->
  (forall x y i clicks item,
     get_item_at_y y s = i -> Vec.at_ (items s) i = Some item ->
     exists s', handle FL_PUSH (mkFl x y FL_RIGHT_MOUSE clicks 0 0) s = Some s'
                /\ map persisted (items s')
                   = if Vec.size (items s) <=? 1 then [(""%string, false)]
                     else Vec.erase (map persisted (items s)) i)
  /\ (forall chosen,
        Vec.at_ (items s) (selected_index s) = Some chosen ->
        exists s', handle FL_KEYBOARD (key FL_Delete) s = Some s'
                   /\ map persisted (items s')
                      = (if Vec.size (items s) <=? 1 then [(""%string, false)]
                         else Vec.erase (map persisted (items s)) (selected_index s))
                   /\ selected_index s' = -1).
Proof.
  intros He. split.
  - intros x y i clicks item Hi Hitem. pose proof (at_some_range _ _ _ Hitem) as Hr.
    destruct (delete_item_saved i (set_items (settled (items s)) s) _
                (at_settled _ _ _ Hitem)) as (s' & Hs' & Hsaved).
    exists s'. cbn [items set_items] in Hsaved.
    rewrite size_settled, persisted_settled in Hsaved. split; [|exact Hsaved].
    cbn [handle]. unfold handle_push. cbv zeta.
    cbn [event_x event_y event_button].
    assert ((editing_index s >=? 0) = false) as E by lia. rewrite E. cbn [andb].
    fold (settled (items s)). rewrite get_item_at_y_settled, Hi.
    assert ((i >=? 0) = true) as -> by lia.
    change (FL_RIGHT_MOUSE =? FL_LEFT_MOUSE) with false.
    change (FL_RIGHT_MOUSE =? FL_RIGHT_MOUSE) with true. cbv iota.
    change (editing_index (set_items (settled (items s)) s)) with (editing_index s).
    rewrite E. exact Hs'.
  - intros chosen Hchosen. pose proof (at_some_range _ _ _ Hchosen) as Hrc.
    destruct (delete_item_saved (selected_index s) s _ Hchosen) as (s' & Hs' & Hsaved).
    exists (set_selected_index (-1) s'). split; [|split; [exact Hsaved | reflexivity]].
    cbn [handle]. unfold handle_keyboard.
    assert ((editing_index s >=? 0) = false) as -> by lia. cbn [andb].
    change (event_key (key FL_Delete) =? FL_Delete) with true.
    assert ((selected_index s >=? 0) = true) as -> by lia. cbn [andb].
    now rewrite Hs'.
Qed.

Lemma right_click_and_delete_key_witness :
  exists s', handle FL_PUSH (mkFl 100 90 FL_RIGHT_MOUSE 0 0 0) first_window = Some s'
             /\ map text (items s')
                = ["Welcome to Clear"; "Click to edit task"; "Double-click to complete";
                   "Swipe right to delete"; "Long press to reorder"]%string.
Proof.
  destruct (right_click_and_delete_key first_window ltac:(cbn; lia)) as [Hright _].
  destruct (Hright 100 90 1 0 (TodoItem_new "Pull down to add new task")
              ltac:(reflexivity) ltac:(reflexivity)) as (s' & Hs' & Hsaved).
  exists s'. split; [exact Hs'|].
  rewrite <- (map_map persisted fst), Hsaved. reflexivity.
Defined.

Lemma run_app (first rest : list Action) (s : ClearApp) :
  run (first ++ rest) s = do s' <- run first s; run rest s'.
Proof.
  revert s. induction first as [|a first IH]; intros s; [reflexivity|].
  cbn [app run]. destruct (step a s); [apply IH | reflexivity].
Qed.

(** The long-press timer of [pressed] running out: dragging now
    reorders. *)
Lemma long_press_fires (x y i : Z) (s : ClearApp) :
  0 <= i ->
  exists h,
    run [Elapse 0.3; Fire (List.length (timeouts s))] (pressed x y i s) = Some h
    /\ items h = settled (items s) /\ selected_index h = i
    /\ can_reorder h = true /\ is_swiping h = false /\ is_pulling_down h = false
    /\ drag_start_x h = x /\ drag_start_y h = y
    /\ scroll_offset h = scroll_offset s /\ item_height h = item_height s.
Proof.
  intros Hi. cbn [run step]. change (Qle_bool 0 0.3) with true. cbv iota.
  change (timeouts (pressed x y i s)) with (timeouts s ++ [(long_press_timeout_cb, 0.3%Q)]).
  cbn [timeouts set_timeouts]. rewrite map_app. cbn [map fst snd].
  rewrite <- (length_map (fun e => (fst e, (snd e - 0.3)%Q)) (timeouts s)).
  rewrite at_last, remove_last.
  change (Qle_bool (0.3 - 0.3) 0) with true. cbv iota.
  cbn [run_callback]. unfold enable_reorder.
  match goal with
  | |- context [selected_index ?st >=? 0] => change (selected_index st) with i
  end.
  assert ((i >=? 0) = true) as -> by lia.
  eexists. split; [reflexivity|]. repeat split.
Qed.

(** A mostly vertical move over another item while dragging may
    reorder. *)
Lemma reorder_drag (fl : Fl) (h : ClearApp) (i j : Z) :
  is_pulling_down h = false -> selected_index h = i -> 0 <= i ->
  can_reorder h = true -> is_swiping h = false ->
  Z.abs (event_x fl - drag_start_x h) <= 10 ->
  Z.abs (event_y fl - drag_start_y h) > 10 ->
  get_item_at_y (event_y fl) h = j -> 0 <= j -> j <> i ->
  handle_drag fl h
  = Some (h |> set_is_dragging true |> reorder_items i j |> set_selected_index j).
Proof.
  intros Hpull Hsel Hi Hre Hsw Hdx Hdy Hj Hj0 Hji.
  unfold handle_drag. cbv zeta. rewrite Hpull, Hsel, Hre.
  assert ((i >=? 0) = true) as -> by lia. cbn [negb andb].
  unfold drag_selected. cbv zeta. rewrite Hre, Hsw. cbn [negb andb].
  change (is_swiping (set_is_dragging true h)) with (is_swiping h). rewrite Hsw.
  cbn [negb andb].
  assert ((Z.abs (event_x fl - drag_start_x h) >? 10) = false) as -> by lia.
  change (is_swiping (set_is_dragging true h)) with (is_swiping h). rewrite Hsw.
  change (can_reorder (set_is_dragging true h)) with (can_reorder h). rewrite Hre.
  assert ((Z.abs (event_y fl - drag_start_y h) >? 10) = true) as -> by lia. cbn [andb].
  assert (get_item_at_y (event_y fl) (set_is_dragging true h) = j) as ->
    by (rewrite <- Hj; now apply get_item_at_y_same).
  change (selected_index (set_is_dragging true h)) with (selected_index h). rewrite Hsel.
  assert ((j >=? 0) && negb (j =? i) = true) as -> by lia.
  reflexivity.
Qed.

(** X21: a long press allows reordering.  With nothing being edited,
    pressing on an item, holding it until the long-press timer fires after
    0.3 seconds, and then moving more than 10 pixels up or down (at most
    10 sideways) onto another item moves the pressed item to the position
    of that other item; the rest of the list keeps its order, and the
    moved item stays selected. *)
Theorem long_press_drag_reorders (s : ClearApp) (x y x1 y1 i j : Z) (item : TodoItem) :
  editing_index s < 0 ->
  get_item_at_y y s = i -> Vec.at_ (items s) i = Some item ->
  get_item_at_y y1 s = j -> 0 <= j < Vec.size (items s) -> j <> i ->
  Z.abs (x1 - x) <= 10 -> Z.abs (y1 - y) > 10 ->
  exists s',
    run [Deliver FL_PUSH (left_click x y 0); Elapse 0.3; Fire (List.length (timeouts s));
         Deliver FL_DRAG (left_click x1 y1 0)] s = Some s'
    /\ items s' = Vec.insert (Vec.erase (settled (items s)) i) j (set_swipe_offset 0 item)
    /\ selected_index s' = j /\ can_reorder s' = true.
Proof.
  intros He Hi Hitem Hj Hjr Hji Hdx Hdy. pose proof (at_some_range _ _ _ Hitem) as Hr.
  destruct (long_press_fires x y i s (proj1 Hr))
    as (h & Hrun & Hitems & Hsel & Hre & Hsw & Hpull & Hx & Hy & Hscroll & Hheight).
  assert (get_item_at_y y1 h = j) as Hjh.
  { rewrite <- Hj. apply get_item_at_y_same; trivial.
    rewrite Hitems. apply completed_settled. }
  exists (h |> set_is_dragging true |> reorder_items i j |> set_selected_index j).
  split.
  { change [Deliver FL_PUSH (left_click x y 0); Elapse 0.3; Fire (List.length (timeouts s));
             Deliver FL_DRAG (left_click x1 y1 0)]
      with ([Deliver FL_PUSH (left_click x y 0)]
            ++ [Elapse 0.3; Fire (List.length (timeouts s))]
            ++ [Deliver FL_DRAG (left_click x1 y1 0)]).
    rewrite run_app. cbn [run step handle].
    rewrite (press_on_item x y i 0 s He Hi (proj1 Hr)).
    rewrite run_app, Hrun. cbn [run step handle].
    rewrite (reorder_drag (left_click x1 y1 0) h i j); trivial; try lia.
    - cbn [event_x left_click]. rewrite Hx. exact Hdx.
    - cbn [event_y left_click]. rewrite Hy. exact Hdy. }
  cbn [items selected_index can_reorder set_selected_index].
  destruct (reorder_items_moved i j (set_is_dragging true h)) as (moved & Hmoved & Hres).
  { unfold reorder_refused. cbn [items set_is_dragging]. rewrite Hitems, size_settled. lia. }
  cbn [items set_is_dragging] in Hmoved, Hres. rewrite Hitems in Hmoved, Hres.
  rewrite (at_settled _ _ _ Hitem) in Hmoved. injection Hmoved as <-.
  split; [exact Hres|]. split; [reflexivity|].
  pose proof (modes_reorder_items i j (set_is_dragging true h)) as Hm.
  apply (f_equal (fun m => snd (fst (fst (fst m))))) in Hm. cbn [modes fst snd] in Hm.
  rewrite Hm. exact Hre.
Qed.

Lemma long_press_drag_reorders_witness :
  exists s',
    run [Deliver FL_PUSH (left_click 100 30 0); Elapse 0.3; Fire 0;
         Deliver FL_DRAG (left_click 100 150 0)] first_window = Some s'
    /\ map text (items s')
       = ["Pull down to add new task"; "Click to edit task"; "Welcome to Clear";
          "Double-click to complete"; "Swipe right to delete";
          "Long press to reorder"]%string.
Proof.
  destruct (long_press_drag_reorders first_window 100 30 100 150 0 2
              (TodoItem_new "Welcome to Clear"))
    as (s' & Hrun & Hitems & _); try reflexivity; try (cbn; lia).
  exists s'. split; [exact Hrun|]. rewrite Hitems. reflexivity.
Defined.

Lemma drag_selected_before_long_press (dx dy my : Z) (s s' : ClearApp) :
  can_reorder s = false -> drag_selected dx dy my s = Some s' ->
  map persisted (items s') = map persisted (items s) /\ can_reorder s' = false.
Proof.
  intros Hre. unfold drag_selected. cbv zeta. rewrite Hre. cbn [negb andb].
  destruct (is_swiping s) eqn:Hsw; cbn [negb andb].
  - rewrite Hsw. cbn [negb andb]. rewrite Hsw.
    destruct (Vec.update (items s) (selected_index s) (set_swipe_offset dx)) as [u|] eqn:Hu;
      [|discriminate].
    intros [= <-]. split; [|exact Hre].
    apply (update_map persisted _ _ _ (set_swipe_offset dx) (fun _ => eq_refl) Hu).
  - intros [= <-]. split; [reflexivity | exact Hre].
Qed.

(** X22: no reordering before the long press.  While [can_reorder] is
    off, an [FL_DRAG] event, wherever the pointer is, leaves texts,
    flags and order of the list as they are and does not switch
    [can_reorder] on. *)
Theorem drag_before_long_press (fl : Fl) (s s' : ClearApp) :
  can_reorder s = false -> handle_drag fl s = Some s' ->
  map persisted (items s') = map persisted (items s) /\ can_reorder s' = false.
Proof.
  intros Hre. unfold handle_drag. cbv zeta. rewrite Hre. cbn [negb andb].
  destruct (is_pulling_down s).
  { destruct (_ >? 0).
    - intros [= <-]. destruct (_ >? _); split; trivial.
    - destruct (_ <? -5); intros [= <-]; split; trivial. }
  destruct (selected_index s >=? 0); [|intros [= <-]; split; trivial].
  destruct ((_ >? 20) && _).
  { intros H. apply drag_selected_before_long_press in H; [exact H | exact Hre]. }
  destruct ((_ >? 10) && _).
  - cbn [items selected_index set_is_dragging set_is_swiping].
    destruct (Vec.update (items s) (selected_index s) _) as [u|] eqn:Hu;
      cbv beta iota; [|discriminate].
    intros H. apply drag_selected_before_long_press in H; [|exact Hre].
    destruct H as [H1 H2]. split; [|exact H2]. rewrite H1. cbn [items set_items].
    eapply update_map; [|exact Hu]. reflexivity.
  - destruct (_ || _); intros [= <-]; split; trivial.
Qed.

Lemma drag_before_long_press_witness :
  exists s',
    handle_drag (left_click 100 150 0) (pressed 100 30 0 first_window) = Some s'
    /\ map persisted (items s') = map persisted (items first_window).
Proof.
  pose proof (pull_on_item 100 30 100 150 0 0 first_window
                ltac:(lia) ltac:(lia) ltac:(cbn; lia)) as Hdrag.
  eexists. split; [exact Hdrag|].
  destruct (drag_before_long_press (left_click 100 150 0) (pressed 100 30 0 first_window) _
              eq_refl Hdrag) as [Hsaved _].
  rewrite Hsaved. apply persisted_settled.
Defined.

(** X23: Escape gives the typed text up.  While an item is edited and
    the input widget shows a text that is not empty, the Escape key ends
    the edit, hides the widget and leaves every item as it was, the typed
    text being dropped; other keys change nothing. *)
Theorem escape_cancels_edit (fl : Fl) (s : ClearApp) :
  0 <= editing_index s -> visible (input_widget s) = true ->
  value (input_widget s) <> ""%string ->
  exists s',
    handle FL_KEYBOARD fl s = Some s'
    /\ (event_key fl = FL_Escape ->
        items s' = items s /\ editing_index s' = -1 /\ editing_text s' = ""%string
        /\ input_widget s' = mkFl_Input false (value (input_widget s)))
    /\ (event_key fl <> FL_Escape -> s' = s).
Proof.
  intros He Hv Hval. cbn [handle]. unfold handle_keyboard. cbv zeta.
  assert ((editing_index s >=? 0) = true) as -> by lia. rewrite Hv. cbn [andb].
  destruct (event_key fl =? FL_Escape) eqn:Hk.
  - assert (Str.empty (value (input_widget s)) = false) as ->
      by (destruct (value (input_widget s)); [congruence | reflexivity]).
    cbn [andb].
    destruct (save_to_file_frame
                (set_editing_text ""
                   (set_editing_index (-1)
                      (set_input_widget (hide (input_widget s)) s))))
      as (d & e & t & ->).
    eexists. split; [reflexivity|]. split; [|intros; lia].
    intros _. repeat split.
  - exists s. split; [reflexivity|]. split; [intros; lia | reflexivity].
Qed.

Lemma escape_cancels_edit_witness :
  exists s',
    handle FL_KEYBOARD (key FL_Escape)
      (first_window |> set_editing_index 1 |> set_input_widget (mkFl_Input true "typed"))
    = Some s'
    /\ items s' = items first_window /\ editing_index s' = -1.
Proof.
  destruct (escape_cancels_edit (key FL_Escape)
              (first_window |> set_editing_index 1 |> set_input_widget (mkFl_Input true "typed")))
    as (s' & Hs' & Hesc & _); try reflexivity; try (cbn; lia); try discriminate.
  exists s'. split; [exact Hs'|].
  destruct (Hesc eq_refl) as (Hitems & Hedit & _). split; [exact Hitems | exact Hedit].
Defined.

(** X24: a swipe that turns downwards leaves the list's bounds.  When an
    [FL_DRAG] event arrives during a swipe that started without a long
    press, with the pointer more than 20 pixels below and less than 30
    pixels beside the point of the press, [handle] switches to
    pull-down, which sets [selected_index] to -1, and then still runs the
    swipe code [items[selected_index].swipe_offset = dx]: an access
    outside the vector, on which the handler has no defined result. *)
Theorem drag_down_while_swiping (fl : Fl) (s : ClearApp) :
  is_pulling_down s = false -> 0 <= selected_index s ->
  can_reorder s = false -> is_swiping s = true ->
  event_y fl - drag_start_y s > 20 -> Z.abs (event_x fl - drag_start_x s) < 30 ->
  handle FL_DRAG fl s = None.
Proof.
  intros Hpull Hsel Hre Hsw Hdy Hdx. cbn [handle]. unfold handle_drag. cbv zeta.
  rewrite Hpull, Hre.
  assert ((selected_index s >=? 0) = true) as -> by lia. cbn [negb andb].
  assert ((event_y fl - drag_start_y s >? 20)
          && (Z.abs (event_x fl - drag_start_x s) <? 30) = true) as -> by lia.
  unfold drag_selected, remove_timeout. cbv zeta.
  cbn [can_reorder is_swiping items selected_index set_pull_down_offset set_selected_index
       set_is_dragging set_is_pulling_down set_timeouts].
  rewrite Hre, Hsw. cbn [negb andb].
  cbn [can_reorder is_swiping items selected_index set_pull_down_offset set_selected_index
       set_is_dragging set_is_pulling_down set_timeouts].
  rewrite Hsw. cbn [negb andb].
  cbn [can_reorder is_swiping items selected_index set_pull_down_offset set_selected_index
       set_is_dragging set_is_pulling_down set_timeouts].
  rewrite Hsw. reflexivity.
Qed.

Lemma drag_down_while_swiping_witness :
  exists s,
    run [Deliver FL_PUSH (left_click 100 30 0); Deliver FL_DRAG (left_click 115 30 0)]
      first_window = Some s
    /\ handle FL_DRAG (left_click 115 55 0) s = None.
Proof.
  pose proof (swipe_on_item 100 30 115 30 0 0 first_window _ ltac:(lia) eq_refl
                ltac:(cbn; lia) ltac:(cbn; lia) ltac:(cbn; lia)) as Hdrag.
  eexists. split.
  - cbn [run step handle].
    rewrite (press_on_item 100 30 0 0 first_window) by (try reflexivity; cbn; lia).
    cbn [run step handle]. rewrite Hdrag. reflexivity.
  - apply drag_down_while_swiping; try reflexivity; cbn; lia.
Defined.

(** ** Painting while editing *)





